(** * fussy-git: URL normalizer, registry store and reconciler

    A shallow embedding of the Go sources
    [internal/gitutil/url.go], [internal/state] (the registry store) and
    [cmd/reorganize] (the reconciler), together with the parts of the Go
    standard library they call ([strings], [path/filepath] on Unix,
    [regexp] for the one SCP pattern, [net/url]); and of the commands
    that use them: [cmd/doctor], [cmd/clone], [cmd/add], and the search
    for a repository root of [cmd/root].

    Go strings are byte sequences: they are modelled by [string], whose
    characters are the 256 values of [ascii]. *)

From Stdlib Require Import String Ascii List ZArith Bool Lia.
From stdpp Require Import base option strings list gmap.

Local Open Scope string_scope.

(** ** Results of fallible functions: Go's [(value, error)] pairs *)

Inductive result (E A : Type) : Type :=
| Ok (a : A)
| Err (e : E).
Arguments Ok {E A} a.
Arguments Err {E A} e.

Definition is_ok {E A} (r : result E A) : bool :=
  match r with Ok _ => true | Err _ => false end.

(** Go's [v, _ := f()] on a function that returns the zero value with its
    error: the error is dropped and the zero value is kept. *)
Definition discard_err {E A} (zero : A) (r : result E A) : A :=
  match r with Ok a => a | Err _ => zero end.

Definition bind {E A B} (r : result E A) (f : A -> result E B) : result E B :=
  match r with Ok a => f a | Err e => Err e end.

Notation "x <- r ;; k" := (bind r (fun x => k))
  (at level 100, r at next level, k at level 200, right associativity).

(** ** Package [strings] *)

Module GoStrings.

Fixpoint take (n : nat) (s : string) : string :=
  match n, s with
  | S n', String c s' => String c (take n' s')
  | _, _ => EmptyString
  end.

Fixpoint drop (n : nat) (s : string) : string :=
  match n, s with
  | S n', String _ s' => drop n' s'
  | _, _ => s
  end.

Definition len (s : string) : nat := String.length s.

Definition HasPrefix (s pre : string) : bool := String.prefix pre s.

Definition HasSuffix (s suf : string) : bool :=
  (len suf <=? len s)%nat && String.eqb (drop (len s - len suf) s) suf.

Definition TrimPrefix (s pre : string) : string :=
  if HasPrefix s pre then drop (len pre) s else s.

Definition TrimSuffix (s suf : string) : string :=
  if HasSuffix s suf then take (len s - len suf) s else s.

(** [IndexByte s c]: position of the first [c] in [s]. *)
Fixpoint IndexByte (s : string) (c : ascii) : option nat :=
  match s with
  | EmptyString => None
  | String d s' =>
      if Ascii.eqb d c then Some 0
      else match IndexByte s' c with
           | Some i => Some (S i)
           | None => None
           end
  end.

(** [LastIndexByte s c]: position of the last [c] in [s]. *)
Fixpoint LastIndexByte (s : string) (c : ascii) : option nat :=
  match s with
  | EmptyString => None
  | String d s' =>
      match LastIndexByte s' c with
      | Some i => Some (S i)
      | None => if Ascii.eqb d c then Some 0 else None
      end
  end.

Definition ContainsByte (s : string) (c : ascii) : bool :=
  match IndexByte s c with Some _ => true | None => false end.

(** [strings.Contains(s, sub)] *)
Definition Contains (s sub : string) : bool :=
  match String.index 0 sub s with Some _ => true | None => false end.

(** [strings.Cut(s, sep)] for a one-byte separator. *)
Definition Cut (s : string) (sep : ascii) : string * string * bool :=
  match IndexByte s sep with
  | Some i => (take i s, drop (S i) s, true)
  | None => (s, EmptyString, false)
  end.

Fixpoint CountByte (s : string) (c : ascii) : nat :=
  match s with
  | EmptyString => 0
  | String d s' => (if Ascii.eqb d c then 1 else 0) + CountByte s' c
  end.

Fixpoint forallb (p : ascii -> bool) (s : string) : bool :=
  match s with
  | EmptyString => true
  | String c s' => p c && forallb p s'
  end.

Fixpoint rev_onto (s acc : string) : string :=
  match s with
  | EmptyString => acc
  | String c s' => rev_onto s' (String c acc)
  end.

Definition rev (s : string) : string := rev_onto s EmptyString.

Fixpoint drop_while (p : ascii -> bool) (s : string) : string :=
  match s with
  | EmptyString => EmptyString
  | String c s' => if p c then drop_while p s' else s
  end.

(** [strings.TrimRight(s, cutset)] for a one-byte cutset. *)
Definition TrimRightByte (s : string) (c : ascii) : string :=
  rev (drop_while (fun d => Ascii.eqb d c) (rev s)).

(** [strings.Split(s, sep)] for a one-byte separator. *)
Fixpoint SplitByte (s : string) (sep : ascii) : list string :=
  match s with
  | EmptyString => [EmptyString]
  | String c s' =>
      if Ascii.eqb c sep then EmptyString :: SplitByte s' sep
      else match SplitByte s' sep with
           | w :: ws => String c w :: ws
           | [] => [String c EmptyString]
           end
  end.

(** [strings.Join(elems, sep)] *)
Fixpoint Join (elems : list string) (sep : string) : string :=
  match elems with
  | [] => EmptyString
  | [e] => e
  | e :: es => e ++ sep ++ Join es sep
  end.

Definition byte_in (lo hi : ascii) (c : ascii) : bool :=
  (nat_of_ascii lo <=? nat_of_ascii c)%nat && (nat_of_ascii c <=? nat_of_ascii hi)%nat.

Definition is_lower (c : ascii) : bool := byte_in "a" "z" c.
Definition is_upper (c : ascii) : bool := byte_in "A" "Z" c.
Definition is_digit (c : ascii) : bool := byte_in "0" "9" c.
Definition is_alnum (c : ascii) : bool := is_lower c || is_upper c || is_digit c.

Definition one_of (set : string) (c : ascii) : bool := ContainsByte set c.

Definition lower_byte (c : ascii) : ascii :=
  if is_upper c then ascii_of_nat (nat_of_ascii c + 32) else c.

(** [strings.ToLower] on the ASCII range, which is all a scheme can hold. *)
Fixpoint ToLower (s : string) : string :=
  match s with
  | EmptyString => EmptyString
  | String c s' => String (lower_byte c) (ToLower s')
  end.

End GoStrings.

(** ** Package [path/filepath] (Unix: the separator is a slash) *)

Module Filepath.
Import GoStrings.

Definition Separator : ascii := "/".

(** [filepath.Base]: the last element of the path, after trailing slashes
    are removed; [.] for the empty path, [/] for a path of slashes only. *)
Definition Base (path : string) : string :=
  match path with
  | EmptyString => "."
  | _ =>
      let p := TrimRightByte path Separator in
      let p :=
        match LastIndexByte p Separator with
        | Some i => drop (S i) p
        | None => p
        end in
      match p with
      | EmptyString => "/"
      | _ => p
      end
  end.

(** One element of the path being cleaned against the elements already
    written, most recent first. *)
Definition clean_step (rooted : bool) (out : list string) (elem : string) : list string :=
  if String.eqb elem "" || String.eqb elem "." then out
  else if String.eqb elem ".." then
    match out with
    | prev :: out' =>
        if String.eqb prev ".." then
          (if rooted then out else elem :: out)
        else out'
    | [] => if rooted then out else [elem]
    end
  else elem :: out.

(** [filepath.Clean]: repeated separators collapse, [.] elements vanish, an
    inner [..] removes the element before it, a [..] at the start of a
    rooted path vanishes; the empty result is [.]. *)
Definition Clean (path : string) : string :=
  match path with
  | EmptyString => "."
  | String c _ =>
      let rooted := Ascii.eqb c Separator in
      let out := fold_left (clean_step rooted) (SplitByte path Separator) [] in
      let body := Join (List.rev out) "/" in
      if rooted then String Separator body
      else match body with
           | EmptyString => "."
           | _ => body
           end
  end.

(** [filepath.Join]: the elements from the first non-empty one on, joined
    by the separator and cleaned; the empty string when all are empty. *)
Fixpoint Join (elem : list string) : string :=
  match elem with
  | [] => EmptyString
  | e :: rest =>
      if String.eqb e "" then Join rest
      else Clean (GoStrings.Join elem "/")
  end.

(** [filepath.Dir]: all but the last element of the path, cleaned. *)
Definition Dir (path : string) : string :=
  match LastIndexByte path Separator with
  | Some i => Clean (take (S i) path)
  | None => "."
  end.

End Filepath.

(** ** Package [regexp]: the one pattern of [url.go] *)

Module Regexp.
Import GoStrings.

(** The class [[a-zA-Z0-9_.-]] of the user group. *)
Definition user_class (c : ascii) : bool := is_alnum c || one_of "_.-" c.

(** The class [[a-zA-Z0-9.-]] of the host group. *)
Definition host_class (c : ascii) : bool := is_alnum c || one_of ".-" c.

(** The dot of the pattern: any byte but a newline. *)
Definition newline : ascii := ascii_of_nat 10.
Definition dot_class (c : ascii) : bool := negb (Ascii.eqb c newline).

Definition nonempty (s : string) : bool :=
  match s with EmptyString => false | _ => true end.

(** [scpLikeURLRegex.FindStringSubmatch]: the three groups of the pattern
    (user class, once or more; an at sign; host class, once or more; a
    colon; any run of non-newline bytes; anchored at both ends) when the
    whole input matches, nothing otherwise. Neither class holds the
    delimiter that follows its group, so the user group ends at the first
    [@] and the host group at the first colon after it. *)
Definition scpLikeURLRegex_FindStringSubmatch (s : string)
  : option (string * string * string) :=
  match IndexByte s "@" with
  | None => None
  | Some i =>
      let user := take i s in
      let rest := drop (S i) s in
      match IndexByte rest ":" with
      | None => None
      | Some j =>
          let host := take j rest in
          let path := drop (S j) rest in
          if nonempty user && forallb user_class user
             && nonempty host && forallb host_class host
             && forallb dot_class path
          then Some (user, host, path)
          else None
      end
  end.

End Regexp.

(** ** Package [net/url]: [url.Parse] and the accessors [url.go] reads *)

Module NetURL.
Import GoStrings.

Record Userinfo := mkUserinfo { username : string; password : option string }.

(** The fields of [url.URL] that [ParseGitURL] reads. *)
Record URL := mkURL {
  Scheme : string;
  Opaque : string;
  User : option Userinfo;
  Host : string;
  Path : string;
  RawQuery : string;
  Fragment : string
}.

Inductive encoding :=
| encodePath | encodeHost | encodeZone | encodeUserPassword | encodeFragment.

Definition is_host_mode (mode : encoding) : bool :=
  match mode with encodeHost | encodeZone => true | _ => false end.

Definition dquote : ascii := ascii_of_nat 34.

(** [shouldEscape(c, encodeHost)]: alphanumerics, the sub-delimiters, the
    colon, brackets and angle brackets of a host, and the unreserved marks
    need no escape. *)
Definition shouldEscape_host (c : ascii) : bool :=
  negb (is_alnum c
        || one_of "!$&'()*+,;=:[]<>" c || Ascii.eqb c dquote
        || one_of "-_.~" c).

Definition ishex (c : ascii) : bool :=
  is_digit c || byte_in "a" "f" c || byte_in "A" "F" c.

Definition unhex (c : ascii) : nat :=
  if is_digit c then nat_of_ascii c - nat_of_ascii "0"
  else if byte_in "a" "f" c then nat_of_ascii c - nat_of_ascii "a" + 10
  else if byte_in "A" "F" c then nat_of_ascii c - nat_of_ascii "A" + 10
  else 0.

Definition is_ascii_byte (c : ascii) : bool := (nat_of_ascii c <? 128)%nat.

(** [unescape(s, mode)]: percent-decoding with the checks of the mode; an
    escape that is cut short or not hexadecimal is an error, and so is, in
    a host, an escape of an ASCII byte other than [%25] or a byte that must
    be escaped. A plus sign stays a plus sign outside query components. *)
Fixpoint unescape (s : string) (mode : encoding) : option string :=
  match s with
  | EmptyString => Some EmptyString
  | String c rest =>
      if Ascii.eqb c "%" then
        match rest with
        | String a (String b rest') =>
            let v := ascii_of_nat (unhex a * 16 + unhex b) in
            let is25 := Ascii.eqb a "2" && Ascii.eqb b "5" in
            if negb (ishex a && ishex b) then None
            else if match mode with
                    | encodeHost => (unhex a <? 8)%nat && negb is25
                    | encodeZone =>
                        negb is25 && negb (Ascii.eqb v " ") && shouldEscape_host v
                    | _ => false
                    end
            then None
            else option_map (String v) (unescape rest' mode)
        | _ => None
        end
      else if is_host_mode mode && is_ascii_byte c && shouldEscape_host c then None
      else option_map (String c) (unescape rest mode)
  end.

Definition validOptionalPort (port : string) : bool :=
  match port with
  | EmptyString => true
  | String c digits => Ascii.eqb c ":" && forallb is_digit digits
  end.

Definition validUserinfo (s : string) : bool :=
  forallb (fun c => is_alnum c || one_of "-._:~!$&'()*+,;=%@" c) s.

(** [parseHost]: a bracketed literal with an optional zone and port, or a
    name with an optional port; the port stays part of the host. *)
Definition parseHost (host : string) : option string :=
  if HasPrefix host "[" then
    match LastIndexByte host "]" with
    | None => None
    | Some i =>
        if negb (validOptionalPort (drop (S i) host)) then None
        else match String.index 0 "%25" (take i host) with
             | Some zone =>
                 match unescape (take zone host) encodeHost,
                       unescape (drop zone (take i host)) encodeZone,
                       unescape (drop i host) encodeHost with
                 | Some host1, Some host2, Some host3 => Some (host1 ++ host2 ++ host3)
                 | _, _, _ => None
                 end
             | None => unescape host encodeHost
             end
    end
  else
    match LastIndexByte host ":" with
    | Some i =>
        if negb (validOptionalPort (drop i host)) then None
        else unescape host encodeHost
    | None => unescape host encodeHost
    end.

(** [parseAuthority]: [[userinfo@]host]. *)
Definition parseAuthority (authority : string) : option (option Userinfo * string) :=
  match LastIndexByte authority "@" with
  | None =>
      match parseHost authority with
      | Some host => Some (None, host)
      | None => None
      end
  | Some i =>
      match parseHost (drop (S i) authority) with
      | None => None
      | Some host =>
          let userinfo := take i authority in
          if negb (validUserinfo userinfo) then None
          else if negb (ContainsByte userinfo ":") then
            match unescape userinfo encodeUserPassword with
            | Some u => Some (Some (mkUserinfo u None), host)
            | None => None
            end
          else
            let '(name, pass, _) := Cut userinfo ":" in
            match unescape name encodeUserPassword, unescape pass encodeUserPassword with
            | Some u, Some p => Some (Some (mkUserinfo u (Some p)), host)
            | _, _ => None
            end
      end
  end.

Definition scheme_letter (c : ascii) : bool := is_lower c || is_upper c.
Definition scheme_other (c : ascii) : bool := is_digit c || one_of "+-." c.

(** [getScheme]: the scheme before the first colon and the rest after it,
    when only scheme bytes come before that colon and the first is a
    letter; no scheme otherwise. A leading colon is an error. *)
Fixpoint getScheme_from (first : bool) (s : string) : option (option nat) :=
  match s with
  | EmptyString => Some None
  | String c s' =>
      if scheme_letter c then
        match getScheme_from false s' with
        | Some (Some i) => Some (Some (S i))
        | r => r
        end
      else if scheme_other c then
        if first then Some None
        else match getScheme_from false s' with
             | Some (Some i) => Some (Some (S i))
             | r => r
             end
      else if Ascii.eqb c ":" then
        if first then None else Some (Some 0)
      else Some None
  end.

Definition getScheme (rawURL : string) : option (string * string) :=
  match getScheme_from true rawURL with
  | None => None
  | Some None => Some (EmptyString, rawURL)
  | Some (Some i) => Some (take i rawURL, drop (S i) rawURL)
  end.

Definition is_ctl (c : ascii) : bool :=
  (nat_of_ascii c <? 32)%nat || (nat_of_ascii c =? 127)%nat.

Definition stringContainsCTLByte (s : string) : bool :=
  negb (forallb (fun c => negb (is_ctl c)) s).

(** [parse(rawURL, viaRequest = false)] *)
Definition parse (rawURL : string) : option URL :=
  if stringContainsCTLByte rawURL then None
  else if String.eqb rawURL "*" then Some (mkURL "" "" None "" "*" "" "")
  else
    match getScheme rawURL with
    | None => None
    | Some (scheme, rest) =>
        let scheme := ToLower scheme in
        let '(rest, query) :=
          if HasSuffix rest "?" && (CountByte rest "?" =? 1)%nat
          then (take (len rest - 1) rest, EmptyString)
          else let '(r, q, _) := Cut rest "?" in (r, q) in
        if negb (HasPrefix rest "/") && negb (String.eqb scheme "") then
          Some (mkURL scheme rest None "" "" query "")
        else if negb (HasPrefix rest "/")
                && ContainsByte (fst (fst (Cut rest "/"))) ":" then None
        else
          let with_path user host rest :=
            match unescape rest encodePath with
            | Some path => Some (mkURL scheme "" user host path query "")
            | None => None
            end in
          if (negb (String.eqb scheme "") || negb (HasPrefix rest "///"))
             && HasPrefix rest "//" then
            let authority := drop 2 rest in
            let '(authority, rest) :=
              match IndexByte authority "/" with
              | Some i => (take i authority, drop i authority)
              | None => (authority, EmptyString)
              end in
            match parseAuthority authority with
            | Some (user, host) => with_path user host rest
            | None => None
            end
          else with_path None EmptyString rest
    end.

(** [url.Parse]: the fragment is cut off first and decoded last. *)
Definition Parse (rawURL : string) : option URL :=
  let '(u, frag, _) := Cut rawURL "#" in
  match parse u with
  | None => None
  | Some url =>
      if String.eqb frag "" then Some url
      else match unescape frag encodeFragment with
           | Some f =>
               Some (mkURL (Scheme url) (Opaque url) (User url) (Host url)
                           (Path url) (RawQuery url) f)
           | None => None
           end
  end.

(** [splitHostPort] and the method [Hostname] of [URL]: the host without
    a valid port and without the brackets of a literal. *)
Definition Hostname (u : URL) : string :=
  let host := Host u in
  let host :=
    match LastIndexByte host ":" with
    | Some colon => if validOptionalPort (drop colon host) then take colon host else host
    | None => host
    end in
  if HasPrefix host "[" && HasSuffix host "]"
  then take (len host - 2) (drop 1 host)
  else host.

End NetURL.

(** ** Package [gitutil]: [internal/gitutil/url.go] *)

Module Gitutil.
Import GoStrings.

(** [ParsedGitURL] holds the components of a parsed Git URL. *)
Record ParsedGitURL := mkParsedGitURL {
  OriginalURL : string;
  Scheme : string;
  User : string;
  Host : string;
  Domain : string;
  Path : string;
  RepoName : string;
  IsSSH : bool
}.

(** The errors of the package, one constructor per [fmt.Errorf] site, with
    the values the message is formatted from. *)
Inductive error :=
| ErrCouldNotParse (repoURL : string)
| ErrAmbiguous (repoURL : string)
| ErrNoDomainOrRepo (repoURL domain repoName : string)
| ErrToSSHEmpty (original : string)
| ErrToSSHScheme (scheme original : string)
| ErrToHTTPSEmpty (original : string)
| ErrToHTTPSScheme (scheme original : string).

Definition eqs (a b : string) : bool := String.eqb a b.

(** The scheme-specific branch of [ParseGitURL], lines 71-100: it changes
    the descriptor only for a local path, and fails on an empty scheme
    with a colon in the input. *)
Definition scheme_case (repoURL : string) (parsed : ParsedGitURL)
  : result error ParsedGitURL :=
  if eqs (Scheme parsed) "ssh" then
    Ok (mkParsedGitURL (OriginalURL parsed) (Scheme parsed) (User parsed)
          (Host parsed) (Domain parsed) (Path parsed) (RepoName parsed) true)
  else if eqs (Scheme parsed) "http" || eqs (Scheme parsed) "https" then
    Ok (mkParsedGitURL (OriginalURL parsed) (Scheme parsed) (User parsed)
          (Host parsed) (Domain parsed) (Path parsed) (RepoName parsed) false)
  else if eqs (Scheme parsed) "git" then
    Ok (mkParsedGitURL (OriginalURL parsed) (Scheme parsed) (User parsed)
          (Host parsed) (Domain parsed) (Path parsed) (RepoName parsed) false)
  else if eqs (Scheme parsed) "" && Contains repoURL ":" then
    Err (ErrAmbiguous repoURL)
  else if eqs (Scheme parsed) "" && negb (Contains repoURL ":") then
    let path := TrimSuffix repoURL ".git" in
    Ok (mkParsedGitURL (OriginalURL parsed) "file" "" (Host parsed) "local"
          path (TrimSuffix (Filepath.Base path) ".git") false)
  else Ok parsed.

(** [ParseGitURL] parses a Git repository URL into its components: the
    SCP-like form first, then [url.Parse]. *)
Definition ParseGitURL (repoURL : string) : result error ParsedGitURL :=
  match Regexp.scpLikeURLRegex_FindStringSubmatch repoURL with
  | Some (user, host, rawPath) =>
      let path := TrimPrefix rawPath "/" in
      Ok (mkParsedGitURL repoURL "ssh" user host host
            path (TrimSuffix (Filepath.Base path) ".git") true)
  | None =>
      match NetURL.Parse repoURL with
      | None => Err (ErrCouldNotParse repoURL)
      | Some u =>
          let user :=
            match NetURL.User u with
            | Some info => NetURL.username info
            | None => ""
            end in
          let path := TrimPrefix (NetURL.Path u) "/" in
          let parsed :=
            mkParsedGitURL repoURL (NetURL.Scheme u) user (NetURL.Host u)
              (NetURL.Hostname u) path (TrimSuffix (Filepath.Base path) ".git") false in
          match scheme_case repoURL parsed with
          | Err e => Err e
          | Ok parsed =>
              if eqs (Domain parsed) "" || eqs (RepoName parsed) "" then
                Err (ErrNoDomainOrRepo repoURL (Domain parsed) (RepoName parsed))
              else Ok parsed
          end
      end
  end.

(** [GetLocalPath]: the home directory, the domain and the path, joined. *)
Definition GetLocalPath (pu : ParsedGitURL) (fussyGitHome : string) : string :=
  Filepath.Join [fussyGitHome; Domain pu; Path pu].

(** [GetNormalizedFSPath]: the domain and the path, joined. *)
Definition GetNormalizedFSPath (pu : ParsedGitURL) : string :=
  Filepath.Join [Domain pu; Path pu].

(** [ToSSH] converts a parsed URL to its SSH equivalent if possible. *)
Definition ToSSH (pu : ParsedGitURL) : result error string :=
  if IsSSH pu then Ok (OriginalURL pu)
  else if eqs (Scheme pu) "https" || eqs (Scheme pu) "http" then
    if eqs (Domain pu) "" || eqs (Path pu) "" then
      Err (ErrToSSHEmpty (OriginalURL pu))
    else
      let sshPath :=
        if negb (HasSuffix (Path pu) ".git") then Path pu ++ ".git" else Path pu in
      let sshUser :=
        if negb (eqs (User pu) "") && eqs (Scheme pu) "ssh" then User pu else "git" in
      Ok (sshUser ++ "@" ++ Domain pu ++ ":" ++ sshPath)
  else Err (ErrToSSHScheme (Scheme pu) (OriginalURL pu)).

(** [ToHTTPS] converts a parsed URL to its HTTPS equivalent if possible. *)
Definition ToHTTPS (pu : ParsedGitURL) : result error string :=
  if negb (IsSSH pu) && (eqs (Scheme pu) "https" || eqs (Scheme pu) "http") then
    Ok (OriginalURL pu)
  else if eqs (Scheme pu) "ssh" || eqs (Scheme pu) "git" then
    if eqs (Domain pu) "" || eqs (Path pu) "" then
      Err (ErrToHTTPSEmpty (OriginalURL pu))
    else
      let httpsPath := TrimSuffix (Path pu) ".git" in
      Ok ("https://" ++ Domain pu ++ "/" ++ httpsPath)
  else Err (ErrToHTTPSScheme (Scheme pu) (OriginalURL pu)).

(** The conversion to SSH as the design document words it: valid when the
    scheme is http or https, or already ssh (returned unchanged); the
    result is the user, or [git] when there is none, then the domain and
    the path, with the suffix appended if absent. *)
Definition ToSSH_spec (pu : ParsedGitURL) : result error string :=
  if eqs (Scheme pu) "ssh" then Ok (OriginalURL pu)
  else if eqs (Scheme pu) "https" || eqs (Scheme pu) "http" then
    let user := if eqs (User pu) "" then "git" else User pu in
    let path := if HasSuffix (Path pu) ".git" then Path pu else Path pu ++ ".git" in
    Ok (user ++ "@" ++ Domain pu ++ ":" ++ path)
  else Err (ErrToSSHScheme (Scheme pu) (OriginalURL pu)).

(** The bytes of the path of a plain repository URL: letters, digits,
    the unreserved marks and the slash. *)
Definition path_class (c : ascii) : bool := is_alnum c || one_of "-._~/" c.

(** A plain HTTPS repository URL: a host name of letters, digits, dots
    and hyphens, and a non-empty path of [path_class] bytes that has no
    leading slash, does not end in [.git] and names a repository. *)
Record plainHTTPS (host path : string) : Prop := mkPlainHTTPS {
  plain_host_nonempty : host <> "";
  plain_host : forallb Regexp.host_class host = true;
  plain_path_nonempty : path <> "";
  plain_path : forallb path_class path = true;
  plain_path_rootless : HasPrefix path "/" = false;
  plain_path_no_suffix : HasSuffix path ".git" = false;
  plain_repo_name : TrimSuffix (Filepath.Base path) ".git" <> ""
}.

Definition httpsURL (host path : string) : string :=
  "https://" ++ host ++ "/" ++ path.

(** The round trip of the design document: an HTTPS URL is parsed and
    converted to SSH, the SSH string is parsed and converted to HTTPS, and
    that string is parsed again. *)
Definition roundTrip (httpsURL : string) : result error ParsedGitURL :=
  p1 <- ParseGitURL httpsURL ;;
  ssh <- ToSSH p1 ;;
  p2 <- ParseGitURL ssh ;;
  https <- ToHTTPS p2 ;;
  ParseGitURL https.

End Gitutil.

(** ** Package [time]: instants, as nanoseconds since the zero instant *)

Module Time.

Definition Time := Z.

(** The zero value of [time.Time]. *)
Definition zero : Time := 0%Z.

(** [t.IsZero()] *)
Definition IsZero (t : Time) : bool := (t =? 0)%Z.

End Time.

(** ** Package [state]: the registry store *)

Module State.
Import GoStrings.

(** [RepositoryEntry] represents a single repository tracked by fussy-git. *)
Record RepositoryEntry := mkRepositoryEntry {
  Name : string;
  Path : string;
  OriginalURL : string;
  CurrentURL : string;
  Domain : string;
  NormalizedFS : string;
  LastChecked : Time.Time;
  LastModified : Time.Time;
  ClonedAt : Time.Time;
  ManuallyAdded : bool;
  Notes : string
}.

(** Field assignments [entry.F = v]. *)
Definition set_Name (v : string) (e : RepositoryEntry) : RepositoryEntry :=
  mkRepositoryEntry v (Path e) (OriginalURL e) (CurrentURL e) (Domain e)
    (NormalizedFS e) (LastChecked e) (LastModified e) (ClonedAt e)
    (ManuallyAdded e) (Notes e).

Definition set_Path (v : string) (e : RepositoryEntry) : RepositoryEntry :=
  mkRepositoryEntry (Name e) v (OriginalURL e) (CurrentURL e) (Domain e)
    (NormalizedFS e) (LastChecked e) (LastModified e) (ClonedAt e)
    (ManuallyAdded e) (Notes e).

Definition set_OriginalURL (v : string) (e : RepositoryEntry) : RepositoryEntry :=
  mkRepositoryEntry (Name e) (Path e) v (CurrentURL e) (Domain e)
    (NormalizedFS e) (LastChecked e) (LastModified e) (ClonedAt e)
    (ManuallyAdded e) (Notes e).

Definition set_CurrentURL (v : string) (e : RepositoryEntry) : RepositoryEntry :=
  mkRepositoryEntry (Name e) (Path e) (OriginalURL e) v (Domain e)
    (NormalizedFS e) (LastChecked e) (LastModified e) (ClonedAt e)
    (ManuallyAdded e) (Notes e).

Definition set_LastChecked (v : Time.Time) (e : RepositoryEntry) : RepositoryEntry :=
  mkRepositoryEntry (Name e) (Path e) (OriginalURL e) (CurrentURL e) (Domain e)
    (NormalizedFS e) v (LastModified e) (ClonedAt e)
    (ManuallyAdded e) (Notes e).

Definition set_LastModified (v : Time.Time) (e : RepositoryEntry) : RepositoryEntry :=
  mkRepositoryEntry (Name e) (Path e) (OriginalURL e) (CurrentURL e) (Domain e)
    (NormalizedFS e) (LastChecked e) v (ClonedAt e)
    (ManuallyAdded e) (Notes e).

Definition set_ClonedAt (v : Time.Time) (e : RepositoryEntry) : RepositoryEntry :=
  mkRepositoryEntry (Name e) (Path e) (OriginalURL e) (CurrentURL e) (Domain e)
    (NormalizedFS e) (LastChecked e) (LastModified e) v
    (ManuallyAdded e) (Notes e).

(** [RepoState] holds the collection of all tracked repositories. The mutex
    of the Go struct guards against other goroutines; this model is of one
    goroutine, every method running from its lock to its unlock. *)
Record RepoState := mkRepoState {
  Repositories : list RepositoryEntry;
  filePath : string
}.

Definition set_Repositories (v : list RepositoryEntry) (rs : RepoState) : RepoState :=
  mkRepoState v (filePath rs).

(** [NewRepoState] creates an empty [RepoState]. *)
Definition NewRepoState (filePath : string) : RepoState := mkRepoState [] filePath.

Inductive error :=
| ErrAddPathEmpty
| ErrAddOriginalURLEmpty (name : string)
| ErrUpdatePathEmpty
| ErrUpdateNotFound (path : string).

(** The [range] loops of the store look for the first element with a given
    path (or original URL) and stop there. *)
Definition find_by_Path (path : string) (repos : list RepositoryEntry)
  : option (nat * RepositoryEntry) :=
  list_find (fun r => Path r = path) repos.

Definition find_by_OriginalURL (url : string) (repos : list RepositoryEntry)
  : option (nat * RepositoryEntry) :=
  list_find (fun r => OriginalURL r = url) repos.

(** [AddRepository] adds a new repository to the state or updates an
    existing one; [now] is the reading of [time.Now()]. On an error the
    store is as it was. *)
Definition AddRepository (rs : RepoState) (entry : RepositoryEntry) (now : Time.Time)
  : result error RepoState :=
  if String.eqb (Path entry) "" then Err ErrAddPathEmpty
  else if String.eqb (OriginalURL entry) "" then Err (ErrAddOriginalURLEmpty (Name entry))
  else
    let entry := set_LastModified now entry in
    let entry := if Time.IsZero (ClonedAt entry) then set_ClonedAt now entry else entry in
    let entry := if Time.IsZero (LastChecked entry) then set_LastChecked now entry else entry in
    match find_by_Path (Path entry) (Repositories rs) with
    | Some (i, r) =>
        let entry :=
          if String.eqb (OriginalURL entry) ""
          then set_OriginalURL (OriginalURL r) entry else entry in
        let entry :=
          if Time.IsZero (ClonedAt entry)
          then set_ClonedAt (ClonedAt r) entry else entry in
        Ok (set_Repositories (<[i := entry]> (Repositories rs)) rs)
    | None =>
        Ok (set_Repositories (Repositories rs ++ [entry]) rs)
    end.

(** [UpdateRepository] updates an existing repository entry. *)
Definition UpdateRepository (rs : RepoState) (updatedEntry : RepositoryEntry)
    (now : Time.Time) : result error RepoState :=
  if String.eqb (Path updatedEntry) "" then Err ErrUpdatePathEmpty
  else
    match find_by_Path (Path updatedEntry) (Repositories rs) with
    | Some (i, r) =>
        let updatedEntry :=
          if Time.IsZero (ClonedAt updatedEntry)
          then set_ClonedAt (ClonedAt r) updatedEntry else updatedEntry in
        let updatedEntry :=
          if String.eqb (OriginalURL updatedEntry) ""
          then set_OriginalURL (OriginalURL r) updatedEntry else updatedEntry in
        let updatedEntry := set_LastModified now updatedEntry in
        Ok (set_Repositories (<[i := updatedEntry]> (Repositories rs)) rs)
    | None => Err (ErrUpdateNotFound (Path updatedEntry))
    end.

(** [RemoveRepositoryByPath] removes the first entry with the path. *)
Definition RemoveRepositoryByPath (rs : RepoState) (path : string) : RepoState * bool :=
  match find_by_Path path (Repositories rs) with
  | Some (i, _) => (set_Repositories (delete i (Repositories rs)) rs, true)
  | None => (rs, false)
  end.

(** *** Pointers to entries

    [FindRepositoryByPath] and [FindRepositoryByOriginalURL] return
    [&r], the address of the loop variable of their [range] loop. A
    pointer to an entry is either the address of an element of the slice
    [rs.Repositories] or the address of a variable that escaped to the
    heap; the memory holds the store and the escaped variables. *)

Inductive ptr :=
| ElemPtr (i : nat)
| VarPtr (l : nat).

Record Mem := mkMem {
  store : RepoState;
  vars : gmap nat RepositoryEntry
}.

(** A read through a pointer. *)
Definition deref (m : Mem) (p : ptr) : option RepositoryEntry :=
  match p with
  | ElemPtr i => Repositories (store m) !! i
  | VarPtr l => vars m !! l
  end.

(** An assignment through a pointer. *)
Definition assign (m : Mem) (p : ptr) (e : RepositoryEntry) : Mem :=
  match p with
  | ElemPtr i => mkMem (set_Repositories (<[i := e]> (Repositories (store m))) (store m)) (vars m)
  | VarPtr l => mkMem (store m) (<[l := e]> (vars m))
  end.

(** The loop variable [r] that holds a copy of the element and escapes. *)
Definition escape (m : Mem) (r : RepositoryEntry) : Mem * ptr :=
  let l := fresh (dom (vars m)) in
  (mkMem (store m) (<[l := r]> (vars m)), VarPtr l).

(** [FindRepositoryByPath] searches for a repository by its full local path. *)
Definition FindRepositoryByPath (m : Mem) (path : string) : Mem * option ptr :=
  match find_by_Path path (Repositories (store m)) with
  | Some (_, r) => let '(m', p) := escape m r in (m', Some p)
  | None => (m, None)
  end.

(** [FindRepositoryByOriginalURL] searches for a repository by its
    original clone URL. *)
Definition FindRepositoryByOriginalURL (m : Mem) (originalURL : string)
  : Mem * option ptr :=
  match find_by_OriginalURL originalURL (Repositories (store m)) with
  | Some (_, r) => let '(m', p) := escape m r in (m', Some p)
  | None => (m, None)
  end.

(** The entry [AddRepository] writes: the incoming one with
    [LastModified] stamped, and [ClonedAt] and [LastChecked] stamped when
    they were zero. *)
Definition stamped (now : Time.Time) (entry : RepositoryEntry) : RepositoryEntry :=
  mkRepositoryEntry (Name entry) (Path entry) (OriginalURL entry) (CurrentURL entry)
    (Domain entry) (NormalizedFS entry)
    (if Time.IsZero (LastChecked entry) then now else LastChecked entry)
    now
    (if Time.IsZero (ClonedAt entry) then now else ClonedAt entry)
    (ManuallyAdded entry) (Notes entry).

(** Entries and stores to run the operations on: an entry whose three
    instants are one instant, and a store made by three calls of
    [AddRepository], the third on the path of the first. *)
Definition sample (path url : string) (t : Time.Time) : RepositoryEntry :=
  mkRepositoryEntry "cobra" path url url "github.com" "github.com/spf13/cobra"
    t t t false "".

Definition store3 : RepoState :=
  mkRepoState
    [ sample "/git/a" "https://github.com/x/a2" 30%Z;
      sample "/git/b" "https://github.com/x/b" 20%Z ]
    "repos.json".

(** The stores a program can hold: a new one, and what a successful
    [AddRepository] makes of one. *)
Inductive reachable : RepoState -> Prop :=
| reach_new (filePath : string) : reachable (NewRepoState filePath)
| reach_add (rs rs' : RepoState) (entry : RepositoryEntry) (now : Time.Time) :
    reachable rs -> AddRepository rs entry now = Ok rs' -> reachable rs'.

End State.

(** ** Package [cmd]: the [reorganize] command, the reconciler *)

Module Cmd.
Import GoStrings.
Import State.
Local Open Scope list_scope.

(** *** The world outside the process

    The file system and the [git] binary, as the command meets them. Reads
    are functions of the world; writes return the new world and whether
    they succeeded. Nothing is assumed of an operation: a theorem about
    the command holds whatever the file system and the remote inspector
    answer. *)

Inductive StatResult :=
| StatOk          (* err == nil *)
| StatNotExist    (* os.IsNotExist(err) *)
| StatError.      (* any other error *)

Class World (W : Type) := {
  os_Stat : W -> string -> StatResult;
  IsGitRepository : W -> string -> bool;
  GetRemoteOriginURL : W -> string -> option string;
  os_MkdirAll : W -> string -> W * bool;
  os_Rename : W -> string -> string -> W * bool;
  os_WriteFile : W -> string -> string -> W * bool;
  os_Remove : W -> string -> W;
  json_MarshalIndent : RepoState -> option string
}.

(** The writes the process attempted, in order. *)
Inductive Effect :=
| EMkdirAll (dir : string)
| ERename (oldpath newpath : string)
| EWriteFile (name data : string)
| ERemove (name : string).

(** What the command prints for an entry: one constructor per message. *)
Inductive LogMsg :=
| SkipPathMissing (path : string)
| SkipAccessError (path : string)
| SkipNotGit (path : string)
| WarnNoLiveOrigin
| WarnLiveUnparsable (liveOriginURL : string)
| RemoteURLChanged (oldURL liveOriginURL : string)
| AlsoUpdatedOriginalURL (liveOriginURL : string)
| WarnUnparsableCurrentURL (currentURL : string)
| PathMismatch (actual conventional : string)
| FailTargetExists (conventional : string)
| FailMkdirParent (parent : string)
| Moving (oldpath newpath : string)
| FailMove
| MoveSuccessful
| NameUpdated (oldName newName : string).

Section Reconciler.
Context {W : Type} `{World W}.

Record Sys := mkSys { world : W; trace : list Effect }.

Definition do_MkdirAll (s : Sys) (dir : string) : Sys * bool :=
  let '(w, ok) := os_MkdirAll (world s) dir in
  (mkSys w (trace s ++ [EMkdirAll dir]), ok).

Definition do_Rename (s : Sys) (oldpath newpath : string) : Sys * bool :=
  let '(w, ok) := os_Rename (world s) oldpath newpath in
  (mkSys w (trace s ++ [ERename oldpath newpath]), ok).

Definition do_WriteFile (s : Sys) (name data : string) : Sys * bool :=
  let '(w, ok) := os_WriteFile (world s) name data in
  (mkSys w (trace s ++ [EWriteFile name data]), ok).

Definition do_Remove (s : Sys) (name : string) : Sys :=
  mkSys (os_Remove (world s) name) (trace s ++ [ERemove name]).

Inductive SaveError :=
| ErrNoFilePath
| ErrMkdir (dir : string)
| ErrMarshal
| ErrWriteTemp (tempFilePath : string)
| ErrRenameTemp (tempFilePath filePathToUse : string).

(** [Save] (through [saveLocked]) writes the state to its JSON file: to a
    temporary file first, which is then renamed. *)
Definition Save (s : Sys) (rs : RepoState) (customFilePath : list string)
  : Sys * option SaveError :=
  let filePathToUse :=
    match customFilePath with
    | p :: _ => if negb (String.eqb p "") then p else filePath rs
    | [] => filePath rs
    end in
  if String.eqb filePathToUse "" then (s, Some ErrNoFilePath)
  else
    let dir := Filepath.Dir filePathToUse in
    let '(s, ok) := do_MkdirAll s dir in
    if negb ok then (s, Some (ErrMkdir dir))
    else
      match json_MarshalIndent rs with
      | None => (s, Some ErrMarshal)
      | Some data =>
          let tempFilePath := (filePathToUse ++ ".tmp")%string in
          let '(s, ok) := do_WriteFile s tempFilePath data in
          if negb ok then (s, Some (ErrWriteTemp tempFilePath))
          else
            let '(s, ok) := do_Rename s tempFilePath filePathToUse in
            if negb ok then
              (do_Remove s tempFilePath, Some (ErrRenameTemp tempFilePath filePathToUse))
            else (s, None)
      end.

(** The variables of [RunE] that live across the iterations of its loop,
    with the world and what was printed. The counters are Go [int]s that
    grow by at most two per entry of a slice held in memory: they do not
    wrap, and are natural numbers here. *)
Record LoopState := mkLoopState {
  sys : Sys;
  modifiedEntries : list RepositoryEntry;
  stateModified : bool;
  actionsTaken : nat;
  actionsProposed : nat;
  updatedRepositories : list RepositoryEntry;
  printed : list (list LogMsg)
}.

(** The [continue] of the health checks and of the unparsable final URL:
    the log is printed and the entry is kept as it is at that point. *)
Definition skip (st : LoopState) (currentRepo : RepositoryEntry) (actionLog : list LogMsg)
  : LoopState :=
  mkLoopState (sys st) (modifiedEntries st) (stateModified st) (actionsTaken st)
    (actionsProposed st) (updatedRepositories st ++ [currentRepo])
    (printed st ++ [actionLog]).

(** The variables an iteration works on between its checks. *)
Record Iter := mkIter {
  loop : LoopState;
  currentRepo : RepositoryEntry;
  actionLog : list LogMsg
}.

Definition bump_proposed (st : LoopState) : LoopState :=
  mkLoopState (sys st) (modifiedEntries st) (stateModified st) (actionsTaken st)
    (S (actionsProposed st)) (updatedRepositories st) (printed st).

(** [stateModified = true; actionsTaken++] *)
Definition mark_taken (st : LoopState) : LoopState :=
  mkLoopState (sys st) (modifiedEntries st) true (S (actionsTaken st))
    (actionsProposed st) (updatedRepositories st) (printed st).

Definition mark_modified (st : LoopState) : LoopState :=
  mkLoopState (sys st) (modifiedEntries st) true (actionsTaken st)
    (actionsProposed st) (updatedRepositories st) (printed st).

Definition with_sys (s : Sys) (st : LoopState) : LoopState :=
  mkLoopState s (modifiedEntries st) (stateModified st) (actionsTaken st)
    (actionsProposed st) (updatedRepositories st) (printed st).

(** URL check and update, lines 102-126. *)
Definition urlCheck (dryRunReorg : bool) (it : Iter) (liveOriginURL : string)
    (parsedLiveURL : Gitutil.ParsedGitURL) : Iter :=
  let parsedStoredURL := Gitutil.ParseGitURL (CurrentURL (currentRepo it)) in
  let liveHTTPS := discard_err "" (Gitutil.ToHTTPS parsedLiveURL) in
  let storedHTTPS :=
    match parsedStoredURL with
    | Ok p => discard_err "" (Gitutil.ToHTTPS p)
    | Err _ => ""
    end in
  if negb (is_ok parsedStoredURL) || negb (String.eqb liveHTTPS storedHTTPS) then
    let oldURL := CurrentURL (currentRepo it) in
    let log := actionLog it ++ [RemoteURLChanged oldURL liveOriginURL] in
    let st := bump_proposed (loop it) in
    if negb dryRunReorg then
      let repo := set_CurrentURL liveOriginURL (currentRepo it) in
      if String.eqb (OriginalURL repo) oldURL then
        mkIter (mark_taken st) (set_OriginalURL liveOriginURL repo)
          (log ++ [AlsoUpdatedOriginalURL liveOriginURL])
      else mkIter (mark_taken st) repo log
    else mkIter st (currentRepo it) log
  else it.

(** Path reorganization check, lines 138-170. *)
Definition pathCheck (dryRunReorg : bool) (it : Iter) (conventionalPath : string) : Iter :=
  let normalizedActualPath :=
    TrimRightByte (Filepath.Clean (Path (currentRepo it))) Filepath.Separator in
  let normalizedConventionalPath :=
    TrimRightByte (Filepath.Clean conventionalPath) Filepath.Separator in
  if negb (String.eqb normalizedActualPath normalizedConventionalPath) then
    let log := actionLog it ++ [PathMismatch (Path (currentRepo it)) conventionalPath] in
    let st := bump_proposed (loop it) in
    if negb dryRunReorg then
      match os_Stat (world (sys st)) conventionalPath with
      | StatOk | StatError =>
          mkIter st (currentRepo it) (log ++ [FailTargetExists conventionalPath])
      | StatNotExist =>
          let parentConventionalDir := Filepath.Dir conventionalPath in
          let '(s, ok) := do_MkdirAll (sys st) parentConventionalDir in
          if negb ok then
            mkIter (with_sys s st) (currentRepo it)
              (log ++ [FailMkdirParent parentConventionalDir])
          else
            let log := log ++ [Moving (Path (currentRepo it)) conventionalPath] in
            let '(s, ok) := do_Rename s (Path (currentRepo it)) conventionalPath in
            if negb ok then
              mkIter (with_sys s st) (currentRepo it) (log ++ [FailMove])
            else
              mkIter (mark_taken (with_sys s st))
                (set_Path conventionalPath (currentRepo it))
                (log ++ [MoveSuccessful])
      end
    else mkIter st (currentRepo it) log
  else it.

(** Name update, lines 173-181. *)
Definition nameCheck (dryRunReorg : bool) (it : Iter)
    (finalParsedURLForPath : Gitutil.ParsedGitURL) : Iter :=
  if negb (String.eqb (Name (currentRepo it)) (Gitutil.RepoName finalParsedURLForPath)) then
    let oldName := Name (currentRepo it) in
    let repo := set_Name (Gitutil.RepoName finalParsedURLForPath) (currentRepo it) in
    let log := actionLog it ++ [NameUpdated oldName (Name repo)] in
    if negb dryRunReorg then mkIter (mark_modified (loop it)) repo log
    else mkIter (loop it) repo log
  else it.

(** The end of an iteration, lines 183-192. *)
Definition finish (dryRunReorg : bool) (it : Iter) : LoopState :=
  let st := loop it in
  mkLoopState (sys st)
    (if stateModified st && negb dryRunReorg
     then modifiedEntries st ++ [currentRepo it] else modifiedEntries st)
    (stateModified st) (actionsTaken st) (actionsProposed st)
    (updatedRepositories st ++ [currentRepo it])
    (printed st ++ [actionLog it]).

(** One iteration of the loop over [originalRepositories], lines 60-193. *)
Definition processEntry (dryRunReorg : bool) (FussyGitHome : string)
    (st : LoopState) (repoEntry : RepositoryEntry) : LoopState :=
  let w := world (sys st) in
  match os_Stat w (Path repoEntry) with
  | StatNotExist => skip st repoEntry [SkipPathMissing (Path repoEntry)]
  | StatError => skip st repoEntry [SkipAccessError (Path repoEntry)]
  | StatOk =>
      if negb (IsGitRepository w (Path repoEntry)) then
        skip st repoEntry [SkipNotGit (Path repoEntry)]
      else
        match GetRemoteOriginURL w (Path repoEntry) with
        | None => skip st repoEntry [WarnNoLiveOrigin]
        | Some liveOriginURL =>
            match Gitutil.ParseGitURL liveOriginURL with
            | Err _ => skip st repoEntry [WarnLiveUnparsable liveOriginURL]
            | Ok parsedLiveURL =>
                let it := urlCheck dryRunReorg (mkIter st repoEntry [])
                            liveOriginURL parsedLiveURL in
                match Gitutil.ParseGitURL (CurrentURL (currentRepo it)) with
                | Err _ =>
                    skip (loop it) (currentRepo it)
                      (actionLog it ++ [WarnUnparsableCurrentURL (CurrentURL (currentRepo it))])
                | Ok finalParsedURLForPath =>
                    let conventionalPath :=
                      Gitutil.GetLocalPath finalParsedURLForPath FussyGitHome in
                    let it := pathCheck dryRunReorg it conventionalPath in
                    let it := nameCheck dryRunReorg it finalParsedURLForPath in
                    finish dryRunReorg it
                end
            end
        end
  end.

(** What a run of the command leaves behind. *)
Record Outcome := mkOutcome {
  out_sys : Sys;
  out_state : RepoState;
  out_printed : list (list LogMsg);
  out_proposed : nat;
  out_taken : nat;
  out_saves : nat;
  out_err : option SaveError
}.

Definition initLoop (s : Sys) : LoopState := mkLoopState s [] false 0 0 [] [].

Definition runLoop (dryRunReorg : bool) (FussyGitHome : string)
    (st : LoopState) (originalRepositories : list RepositoryEntry) : LoopState :=
  fold_left (processEntry dryRunReorg FussyGitHome) originalRepositories st.

(** [RunE] of [reorganizeCmd]: nothing to do on an empty registry;
    otherwise every entry is processed, the registry is replaced by the
    processed entries, and the state is saved once when an applying run
    modified it. *)
Definition reorganize (dryRunReorg : bool) (FussyGitHome StateFilePath : string)
    (s : Sys) (repoState : RepoState) : Outcome :=
  match Repositories repoState with
  | [] => mkOutcome s repoState [] 0 0 0 None
  | originalRepositories =>
      let st := runLoop dryRunReorg FussyGitHome (initLoop s) originalRepositories in
      let repoState := set_Repositories (updatedRepositories st) repoState in
      if stateModified st && negb dryRunReorg then
        let '(s', err) := Save (sys st) repoState [StateFilePath] in
        mkOutcome s' repoState (printed st) (actionsProposed st) (actionsTaken st) 1 err
      else
        mkOutcome (sys st) repoState (printed st) (actionsProposed st) (actionsTaken st) 0 None
  end.

(** The conventional path the path check of an entry compares with, when
    the iteration gets that far. *)
Definition canonicalTarget (dryRunReorg : bool) (FussyGitHome : string)
    (st : LoopState) (repoEntry : RepositoryEntry) : option string :=
  let w := world (sys st) in
  match os_Stat w (Path repoEntry) with
  | StatOk =>
      if negb (IsGitRepository w (Path repoEntry)) then None
      else
        match GetRemoteOriginURL w (Path repoEntry) with
        | None => None
        | Some liveOriginURL =>
            match Gitutil.ParseGitURL liveOriginURL with
            | Err _ => None
            | Ok parsedLiveURL =>
                let it := urlCheck dryRunReorg (mkIter st repoEntry [])
                            liveOriginURL parsedLiveURL in
                match Gitutil.ParseGitURL (CurrentURL (currentRepo it)) with
                | Err _ => None
                | Ok finalParsedURLForPath =>
                    Some (Gitutil.GetLocalPath finalParsedURLForPath FussyGitHome)
                end
            end
        end
  | _ => None
  end.

(** What a check of an iteration may leave alone: the entries processed
    and the lines printed so far ([frame]); the world with its trace, and
    the path of the entry at hand ([quiet]). *)
Record frame (it it' : Iter) : Prop := mkFrame {
  frame_updated : updatedRepositories (loop it') = updatedRepositories (loop it);
  frame_printed : printed (loop it') = printed (loop it)
}.

Record quiet (it it' : Iter) : Prop := mkQuiet {
  quiet_sys : sys (loop it') = sys (loop it);
  quiet_Path : Path (currentRepo it') = Path (currentRepo it)
}.

End Reconciler.

(** The proposals among the printed messages. *)
Definition is_url_update (m : LogMsg) : bool :=
  match m with RemoteURLChanged _ _ => true | _ => false end.

Definition is_move_proposal (m : LogMsg) : bool :=
  match m with PathMismatch _ _ => true | _ => false end.

Definition is_rename (e : Effect) : bool :=
  match e with ERename _ _ => true | _ => false end.

Definition is_write (e : Effect) : bool :=
  match e with EWriteFile _ _ => true | _ => false end.

Definition count_msgs (p : LogMsg -> bool) (printed : list (list LogMsg)) : nat :=
  length (filter (fun m => p m = true) (concat printed)).

Arguments Sys W : clear implicits.
Arguments LoopState W : clear implicits.
Arguments Iter W : clear implicits.
Arguments Outcome W : clear implicits.

End Cmd.

(** ** A small world to run the command in

    Directories by exact path, each possibly a repository with an origin
    URL, and files with their contents. *)

Module Sim.
Import State Cmd.

Record FS := mkFS {
  dirs : gmap string (option string);
  files : gmap string string
}.

Definition stat (w : FS) (p : string) : StatResult :=
  match dirs w !! p, files w !! p with
  | None, None => StatNotExist
  | _, _ => StatOk
  end.

Definition origin (w : FS) (p : string) : option string :=
  match dirs w !! p with
  | Some o => o
  | None => None
  end.

Definition mkdirAll (w : FS) (d : string) : FS * bool :=
  match dirs w !! d with
  | Some _ => (w, true)
  | None => (mkFS (<[d := None]> (dirs w)) (files w), true)
  end.

Definition rename (w : FS) (oldpath newpath : string) : FS * bool :=
  match dirs w !! oldpath, files w !! oldpath with
  | Some o, _ => (mkFS (<[newpath := o]> (delete oldpath (dirs w))) (files w), true)
  | None, Some data => (mkFS (dirs w) (<[newpath := data]> (delete oldpath (files w))), true)
  | None, None => (w, false)
  end.

Definition writeFile (w : FS) (name data : string) : FS * bool :=
  (mkFS (dirs w) (<[name := data]> (files w)), true).

Definition remove (w : FS) (name : string) : FS :=
  mkFS (delete name (dirs w)) (delete name (files w)).

(** A stand-in for the JSON encoder: the paths, one per line. *)
Definition marshal (rs : RepoState) : option string :=
  Some (GoStrings.Join (map Path (Repositories rs)) (String (ascii_of_nat 10) "")).

#[export] Instance simWorld : World FS := {|
  os_Stat := stat;
  IsGitRepository w p := bool_decide (is_Some (origin w p));
  GetRemoteOriginURL := origin;
  os_MkdirAll := mkdirAll;
  os_Rename := rename;
  os_WriteFile := writeFile;
  os_Remove := remove;
  json_MarshalIndent := marshal
|}.

Definition entry (name path url : string) : RepositoryEntry :=
  mkRepositoryEntry name path url url "github.com" "" 1%Z 1%Z 1%Z false "".

Definition home : string := "/home/u/git".
Definition stateFile : string := "/home/u/.fussy-git/repos.json".

(** A registry of three entries: a healthy one, one whose live remote
    moved, and one that sits outside its conventional path while that
    path is taken. *)
Definition healthy : RepositoryEntry :=
  entry "cobra" "/home/u/git/github.com/spf13/cobra" "https://github.com/spf13/cobra".
Definition drifted : RepositoryEntry :=
  entry "viper" "/home/u/git/github.com/spf13/viper" "https://github.com/spf13/viper".
Definition misplaced : RepositoryEntry :=
  entry "pflag" "/tmp/pflag" "https://github.com/spf13/pflag".

Definition registry3 : RepoState := mkRepoState [healthy; drifted; misplaced] stateFile.

Definition disk3 : FS :=
  mkFS (list_to_map
          [ ("/home/u/git/github.com/spf13/cobra", Some "https://github.com/spf13/cobra");
            ("/home/u/git/github.com/spf13/viper", Some "https://github.com/spf13/viper2");
            ("/tmp/pflag", Some "https://github.com/spf13/pflag");
            ("/home/u/git/github.com/spf13/pflag", None) ])
       ∅.

(** An entry that tracks a local directory as its remote, and a disk
    where that remote has moved to another local directory. *)
Definition localEntry : RepositoryEntry :=
  mkRepositoryEntry "a" "/work/a" "/srv/git/a" "/srv/git/a" "local" "" 1%Z 1%Z 1%Z true "".

Definition diskLocal : FS :=
  mkFS (list_to_map [ ("/work/a", Some "/srv/git/b") ]) ∅.

End Sim.


(** ** Package [state], continued: the entry [UpdateRepository] writes and
    the stores the three mutators make *)

Module StateMore.
Import State.

(** The entry [UpdateRepository] writes over [r]: the updated one, with
    [ClonedAt] and [OriginalURL] taken from [r] where the updated entry
    leaves them unset, and [LastModified] stamped. *)
Definition merged (now : Time.Time) (r updatedEntry : RepositoryEntry) : RepositoryEntry :=
  mkRepositoryEntry (Name updatedEntry) (Path updatedEntry)
    (if String.eqb (OriginalURL updatedEntry) "" then OriginalURL r
     else OriginalURL updatedEntry)
    (CurrentURL updatedEntry) (Domain updatedEntry) (NormalizedFS updatedEntry)
    (LastChecked updatedEntry)
    now
    (if Time.IsZero (ClonedAt updatedEntry) then ClonedAt r else ClonedAt updatedEntry)
    (ManuallyAdded updatedEntry) (Notes updatedEntry).

(** The stores a program can make with the mutators of the package: a
    new one, and what a successful [AddRepository], a successful
    [UpdateRepository] or a [RemoveRepositoryByPath] makes of one. *)
Inductive evolved : RepoState -> Prop :=
| ev_new (filePath : string) : evolved (NewRepoState filePath)
| ev_add (rs rs' : RepoState) (entry : RepositoryEntry) (now : Time.Time) :
    evolved rs -> AddRepository rs entry now = Ok rs' -> evolved rs'
| ev_update (rs rs' : RepoState) (entry : RepositoryEntry) (now : Time.Time) :
    evolved rs -> UpdateRepository rs entry now = Ok rs' -> evolved rs'
| ev_remove (rs : RepoState) (path : string) :
    evolved rs -> evolved (fst (RemoveRepositoryByPath rs path)).

End StateMore.

(** ** Package [cmd], continued: the [doctor], [clone] and [add] commands *)

Module Commands.
Import GoStrings State Cmd.
Local Open Scope list_scope.

(** What [json.Unmarshal(data, &rs)] does to [rs], a pointer to a store:
    it fails, with a syntax error or another one; on the JSON literal
    [null] it sets the pointer to [nil]; otherwise it decodes into the
    store that is there, whose unexported file path it cannot touch,
    and leaves the repositories it decoded. *)
Inductive Unmarshaled :=
| SyntaxError
| UnmarshalError
| DecodedNull
| Decoded (repositories : list RepositoryEntry).

(** More of the world: the clone of the [git] binary, the recursive
    removal, the working directory, and the reading of files. *)
Class WorldExt (W : Type) `{World W} := {
  CloneRepository : W -> string -> string -> W * bool;
  os_RemoveAll : W -> string -> W * bool;
  os_Getwd : W -> option string;
  stat_IsDir : W -> string -> bool;   (* [IsDir()] of what [os.Stat] returned *)
  os_Open : W -> string -> bool;      (* whether [os.Open] succeeds *)
  io_ReadAll : W -> string -> option string;
  json_Unmarshal : string -> Unmarshaled
}.

(** What [doctor] reports for a repository: one constructor per message. *)
Inductive Issue :=
| IssuePathMissing (path : string)
| IssueAccessError (path : string)
| IssueNotGit (path : string)
| IssueNoLiveOrigin
| IssueStoredUnparsable (currentURL : string)
| IssueLiveUnparsable (liveURL : string)
| IssueURLMismatch (currentURL liveURL : string)
| IssueURLMismatchDirect (currentURL liveURL : string)
| IssueNotConventional (actual expected : string) (manuallyAddedNote : bool).

(** What the process did to the world, in order: the writes of [Effect],
    the clones and the recursive removals. *)
Inductive Event :=
| Wrote (e : Effect)
| Cloned (repoURL targetPath : string)
| RemovedAll (path : string).

(** How a run of [clone] ends: the two ways to return [nil], and one
    constructor per error. *)
Inductive CloneEnd :=
| CloneDone
| CloneAlreadyTracked
| CloneInvalidURL (e : Gitutil.error)
| CloneTrackedOtherURL (targetPath currentURL : string)
| CloneExistsUntracked (targetPath : string)
| CloneMkdirFailed (parentDir : string)
| CloneFailed
| CloneAddFailed (e : State.error)
| CloneSaveFailed (e : SaveError).

(** How [findGitRepoRoot] ends: with the root it found, or with one of
    its three errors. *)
Inductive RootEnd :=
| RootFound (currentPath : string)
| RootStatError (gitDir : string)
| RootNotFound
| RootAbsFailed.

(** The errors of [LoadState]. *)
Inductive LoadError :=
| ErrLoadMkdir (dir : string)
| ErrLoadInitialSave (e : SaveError)
| ErrLoadStat
| ErrLoadOpen
| ErrLoadRead
| ErrLoadInvalidJSON
| ErrLoadUnmarshal.

(** How a run of [add] ends. *)
Inductive AddEnd :=
| AddDone
| AddAlreadyTracked
| AddAbsFailed
| AddNotGit (absRepoPath : string)
| AddNoOrigin (absRepoPath : string)
| AddOriginEmpty (absRepoPath : string)
| AddUnparsable (originURL : string) (e : Gitutil.error)
| AddFailed (e : State.error)
| AddSaveFailed (e : SaveError).

Section Commands.
Context {W : Type} `{WorldExt W}.

(** *** [doctor] *)

(** The checks of one repository, lines 46-111 of [doctor.go]. *)
Definition checkRepo (verbose : bool) (FussyGitHome : string) (w : W)
    (repo : RepositoryEntry) : list Issue :=
  match os_Stat w (Path repo) with
  | StatNotExist => [IssuePathMissing (Path repo)]
  | StatError => [IssueAccessError (Path repo)]
  | StatOk =>
      if negb (IsGitRepository w (Path repo)) then [IssueNotGit (Path repo)]
      else
        match GetRemoteOriginURL w (Path repo) with
        | None => [IssueNoLiveOrigin]
        | Some currentLiveOriginURL =>
            let parsedStoredURL := Gitutil.ParseGitURL (CurrentURL repo) in
            let parsedLiveURL := Gitutil.ParseGitURL currentLiveOriginURL in
            let repoIssues :=
              if is_ok parsedStoredURL then []
              else [IssueStoredUnparsable (CurrentURL repo)] in
            let repoIssues :=
              if is_ok parsedLiveURL then repoIssues
              else repoIssues ++ [IssueLiveUnparsable currentLiveOriginURL] in
            let repoIssues :=
              match parsedStoredURL, parsedLiveURL with
              | Ok ps, Ok pl =>
                  let storedHTTPS := discard_err "" (Gitutil.ToHTTPS ps) in
                  let liveHTTPS := discard_err "" (Gitutil.ToHTTPS pl) in
                  if negb (String.eqb storedHTTPS liveHTTPS)
                  then repoIssues ++ [IssueURLMismatch (CurrentURL repo) currentLiveOriginURL]
                  else repoIssues
              | _, _ =>
                  if negb (String.eqb (CurrentURL repo) currentLiveOriginURL)
                  then repoIssues
                         ++ [IssueURLMismatchDirect (CurrentURL repo) currentLiveOriginURL]
                  else repoIssues
              end in
            match parsedLiveURL with
            | Ok pl =>
                let conventionalPath := Gitutil.GetLocalPath pl FussyGitHome in
                let normalizedActualPath :=
                  TrimRightByte (Filepath.Clean (Path repo)) Filepath.Separator in
                let normalizedConventionalPath :=
                  TrimRightByte (Filepath.Clean conventionalPath) Filepath.Separator in
                if negb (String.eqb normalizedActualPath normalizedConventionalPath)
                then repoIssues
                       ++ [IssueNotConventional (Path repo) conventionalPath
                             (ManuallyAdded repo && verbose)]
                else repoIssues
            | Err _ => repoIssues
            end
        end
  end.

(** The counters and the output of the loop of [doctor]. *)
Record DoctorState := mkDoctorState {
  issuesFound : nat;
  reposOk : nat;
  reported : list (list Issue)
}.

Definition doctorStep (verbose : bool) (FussyGitHome : string) (w : W)
    (st : DoctorState) (repo : RepositoryEntry) : DoctorState :=
  let repoIssues := checkRepo verbose FussyGitHome w repo in
  match repoIssues with
  | _ :: _ => mkDoctorState (S (issuesFound st)) (reposOk st) (reported st ++ [repoIssues])
  | [] => mkDoctorState (issuesFound st) (S (reposOk st)) (reported st ++ [repoIssues])
  end.

(** [RunE] of [doctorCmd]: the final state of the loop, and the number of
    the error it returns when a repository reported issues. *)
Definition doctor (verbose : bool) (FussyGitHome : string) (w : W) (repoState : RepoState)
  : DoctorState * option nat :=
  match Repositories repoState with
  | [] => (mkDoctorState 0 0 [], None)
  | repos =>
      let st := fold_left (doctorStep verbose FussyGitHome w) repos (mkDoctorState 0 0 []) in
      (st, if (0 <? issuesFound st)%nat then Some (issuesFound st) else None)
  end.

(** *** The world with its events *)

Record SysE := mkSysE { worldE : W; events : list Event }.

(** A step written for [Sys], run from the world of a [SysE]: its writes
    are appended to the events. *)
Definition lift {A : Type} (f : Sys W -> Sys W * A) (s : SysE) : SysE * A :=
  let '(s', a) := f (mkSys (worldE s) []) in
  (mkSysE (world s') (events s ++ (Wrote <$> trace s')), a).

Definition do_Clone (s : SysE) (repoURL targetPath : string) : SysE * bool :=
  let '(w, ok) := CloneRepository (worldE s) repoURL targetPath in
  (mkSysE w (events s ++ [Cloned repoURL targetPath]), ok).

Definition do_RemoveAll (s : SysE) (path : string) : SysE * bool :=
  let '(w, ok) := os_RemoveAll (worldE s) path in
  (mkSysE w (events s ++ [RemovedAll path]), ok).

(** *** [clone] *)

(** The entry [clone] adds, lines 101-109 of [clone.go]: the instants are
    left zero for [AddRepository] to set. *)
Definition cloneEntry (repoURL targetPath : string) (parsedURL : Gitutil.ParsedGitURL)
  : RepositoryEntry :=
  mkRepositoryEntry (Gitutil.RepoName parsedURL) targetPath repoURL repoURL
    (Gitutil.Domain parsedURL) (Gitutil.GetNormalizedFSPath parsedURL)
    Time.zero Time.zero Time.zero false "".

(** [RunE] of [cloneCmd]; [now] is the reading of the clock in
    [AddRepository]. *)
Definition clone (FussyGitHome StateFilePath : string) (now : Time.Time)
    (s : SysE) (repoState : RepoState) (repoURL : string)
  : SysE * RepoState * CloneEnd :=
  match Gitutil.ParseGitURL repoURL with
  | Err e => (s, repoState, CloneInvalidURL e)
  | Ok parsedURL =>
      let targetPath := Gitutil.GetLocalPath parsedURL FussyGitHome in
      match find_by_Path targetPath (Repositories repoState) with
      | Some (_, existingEntry) =>
          if String.eqb (OriginalURL existingEntry) repoURL
             || String.eqb (CurrentURL existingEntry) repoURL
          then (s, repoState, CloneAlreadyTracked)
          else (s, repoState, CloneTrackedOtherURL targetPath (CurrentURL existingEntry))
      | None =>
          match os_Stat (worldE s) targetPath with
          | StatOk | StatError => (s, repoState, CloneExistsUntracked targetPath)
          | StatNotExist =>
              let parentDir := Filepath.Dir targetPath in
              let '(s, ok) := lift (fun s0 => do_MkdirAll s0 parentDir) s in
              if negb ok then (s, repoState, CloneMkdirFailed parentDir)
              else
                let '(s, ok) := do_Clone s repoURL targetPath in
                if negb ok then (s, repoState, CloneFailed)
                else
                  match AddRepository repoState (cloneEntry repoURL targetPath parsedURL) now with
                  | Err e =>
                      let '(s, _) := do_RemoveAll s targetPath in
                      (s, repoState, CloneAddFailed e)
                  | Ok repoState =>
                      let '(s, err) :=
                        lift (fun s0 => Save s0 repoState [StateFilePath]) s in
                      match err with
                      | Some e => (s, repoState, CloneSaveFailed e)
                      | None => (s, repoState, CloneDone)
                      end
                  end
          end
      end
  end.

(** *** [add] *)

(** [filepath.Abs] on Unix: an absolute path is cleaned, another one is
    joined to the working directory. *)
Definition Abs (w : W) (path : string) : option string :=
  if HasPrefix path "/" then Some (Filepath.Clean path)
  else match os_Getwd w with
       | Some wd => Some (Filepath.Join [wd; path])
       | None => None
       end.

(** The entry [add] adds: marked as manually added. *)
Definition addEntry (originURL absRepoPath : string) (parsedURL : Gitutil.ParsedGitURL)
  : RepositoryEntry :=
  mkRepositoryEntry (Gitutil.RepoName parsedURL) absRepoPath originURL originURL
    (Gitutil.Domain parsedURL) (Gitutil.GetNormalizedFSPath parsedURL)
    Time.zero Time.zero Time.zero true "".

(** [RunE] of [addCmd]: the world, the store, how the run ends, and
    whether the warning about the conventional location was printed. *)
Definition add (FussyGitHome StateFilePath : string) (now : Time.Time)
    (s : Sys W) (repoState : RepoState) (repoPathArg : string)
  : Sys W * RepoState * AddEnd * bool :=
  match Abs (world s) repoPathArg with
  | None => (s, repoState, AddAbsFailed, false)
  | Some absRepoPath =>
      if negb (IsGitRepository (world s) absRepoPath)
      then (s, repoState, AddNotGit absRepoPath, false)
      else
        match find_by_Path absRepoPath (Repositories repoState) with
        | Some _ => (s, repoState, AddAlreadyTracked, false)
        | None =>
            match GetRemoteOriginURL (world s) absRepoPath with
            | None => (s, repoState, AddNoOrigin absRepoPath, false)
            | Some originURL =>
                if String.eqb originURL "" then (s, repoState, AddOriginEmpty absRepoPath, false)
                else
                  match Gitutil.ParseGitURL originURL with
                  | Err e => (s, repoState, AddUnparsable originURL e, false)
                  | Ok parsedURL =>
                      let conventionalPath := Gitutil.GetLocalPath parsedURL FussyGitHome in
                      let normalizedAbsRepoPath :=
                        TrimRightByte (Filepath.Clean absRepoPath) Filepath.Separator in
                      let normalizedConventionalPath :=
                        TrimRightByte (Filepath.Clean conventionalPath) Filepath.Separator in
                      let warned :=
                        negb (String.eqb normalizedAbsRepoPath normalizedConventionalPath) in
                      match AddRepository repoState
                              (addEntry originURL absRepoPath parsedURL) now with
                      | Err e => (s, repoState, AddFailed e, warned)
                      | Ok repoState =>
                          let '(s, err) := Save s repoState [StateFilePath] in
                          match err with
                          | Some e => (s, repoState, AddSaveFailed e, warned)
                          | None => (s, repoState, AddDone, warned)
                          end
                      end
                  end
            end
        end
  end.

(** *** [LoadState] *)

(** [LoadState] loads the repository state from the given JSON file;
    the store it returns is a pointer, [None] when it is [nil]. *)
Definition LoadState (s : Sys W) (filePath : string)
  : Sys W * result LoadError (option RepoState) :=
  let rs := NewRepoState filePath in
  match os_Stat (world s) filePath with
  | StatNotExist =>
      let dir := Filepath.Dir filePath in
      let '(s, ok) := do_MkdirAll s dir in
      if negb ok then (s, Err (ErrLoadMkdir dir))
      else
        let '(s, err) := Save s rs [] in
        match err with
        | Some e => (s, Err (ErrLoadInitialSave e))
        | None => (s, Ok (Some rs))
        end
  | StatError => (s, Err ErrLoadStat)
  | StatOk =>
      if negb (os_Open (world s) filePath) then (s, Err ErrLoadOpen)
      else
        match io_ReadAll (world s) filePath with
        | None => (s, Err ErrLoadRead)
        | Some data =>
            if (len data =? 0)%nat then (s, Ok (Some rs))
            else
              match json_Unmarshal data with
              | SyntaxError => (s, Err ErrLoadInvalidJSON)
              | UnmarshalError => (s, Err ErrLoadUnmarshal)
              | DecodedNull => (s, Ok None)
              | Decoded repositories => (s, Ok (Some (set_Repositories repositories rs)))
              end
        end
  end.

(** *** [findGitRepoRoot] *)

(** The loop of [findGitRepoRoot], lines 239-255 of [root.go], run for at
    most [fuel] iterations: [None] when they do not suffice. *)
Fixpoint climb (fuel : nat) (w : W) (currentPath : string) : option RootEnd :=
  match fuel with
  | 0 => None
  | S fuel =>
      let gitDir := Filepath.Join [currentPath; ".git"] in
      let up :=
        let parentPath := Filepath.Dir currentPath in
        if String.eqb parentPath currentPath then Some RootNotFound
        else climb fuel w parentPath in
      match os_Stat w gitDir with
      | StatOk => if stat_IsDir w gitDir then Some (RootFound currentPath) else up
      | StatError => Some (RootStatError gitDir)
      | StatNotExist => up
      end
  end.

(** [findGitRepoRoot] looks for a [.git] directory from [startPath]
    upwards; the loop is given one iteration per byte of the absolute
    path, and one more. *)
Definition findGitRepoRoot (w : W) (startPath : string) : option RootEnd :=
  match Abs w startPath with
  | None => Some RootAbsFailed
  | Some currentPath => climb (S (len currentPath)) w currentPath
  end.

(** A directory with a [.git] directory in it. *)
Definition has_git_dir (w : W) (dir : string) : bool :=
  match os_Stat w (Filepath.Join [dir; ".git"]) with
  | StatOk => stat_IsDir w (Filepath.Join [dir; ".git"])
  | _ => false
  end.

End Commands.

Arguments SysE W : clear implicits.

End Commands.

(** ** The small world, continued *)

Module SimMore.
Import State Cmd Commands Sim.

Definition cloneInto (w : FS) (repoURL targetPath : string) : FS * bool :=
  match stat w targetPath with
  | StatNotExist => (mkFS (<[targetPath := Some repoURL]> (dirs w)) (files w), true)
  | _ => (w, false)
  end.

Definition removeAll (w : FS) (path : string) : FS * bool :=
  (remove w path, true).

(** A stand-in for the JSON decoder, the other way round from [marshal]:
    the literal [null], or one entry per line, of that path. *)
Definition unmarshal (data : string) : Unmarshaled :=
  if String.eqb data "null" then DecodedNull
  else Decoded (map (fun p => mkRepositoryEntry "" p "" "" "" "" 0%Z 0%Z 0%Z false "")
                  (GoStrings.SplitByte data (ascii_of_nat 10))).

#[export] Instance simWorldExt : WorldExt FS := {|
  CloneRepository := cloneInto;
  os_RemoveAll := removeAll;
  os_Getwd w := Some "/home/u";
  stat_IsDir w p := bool_decide (is_Some (dirs w !! p));
  os_Open w p := bool_decide (is_Some (files w !! p));
  io_ReadAll w p := files w !! p;
  json_Unmarshal := unmarshal
|}.

(** A disk with a checkout in [/home/u/proj], seen from below it. *)
Definition diskProj : FS :=
  mkFS (list_to_map
          [ ("/home/u/proj", None);
            ("/home/u/proj/.git", None);
            ("/home/u/proj/src", None);
            ("/home/u/proj/src/.git", None) ])
       (list_to_map [ ("/home/u/proj/src/cmd/.git", "gitdir: elsewhere") ]).

End SimMore.

(** ** What the properties of the commands are stated with *)

Module Observed.
Import GoStrings State Cmd Commands.

(** The SCP-like form of a plain repository URL. *)
Definition scpURL (host path : string) : string :=
  "git@" ++ host ++ ":" ++ path ++ ".git".

(** The file [saveLocked] writes the state to, lines 218-221. *)
Definition filePathToUse (rs : RepoState) (customFilePath : list string) : string :=
  match customFilePath with
  | p :: _ => if negb (String.eqb p "") then p else filePath rs
  | [] => filePath rs
  end.

(** The fields of an entry that [reorganize] has no assignment to. *)
Record bookkeeping (e e' : RepositoryEntry) : Prop := mkBookkeeping {
  bk_Domain : Domain e' = Domain e;
  bk_NormalizedFS : NormalizedFS e' = NormalizedFS e;
  bk_LastChecked : LastChecked e' = LastChecked e;
  bk_LastModified : LastModified e' = LastModified e;
  bk_ClonedAt : ClonedAt e' = ClonedAt e;
  bk_ManuallyAdded : ManuallyAdded e' = ManuallyAdded e;
  bk_Notes : Notes e' = Notes e
}.

(** The proposals among the messages of one entry: the URL updates and
    the moves. *)
Definition proposals (log : list LogMsg) : nat :=
  count_msgs is_url_update [log] + count_msgs is_move_proposal [log].

(** The effects of a command that are those of saving the state to
    [file]: the directory made, the temporary file written, renamed and,
    when the renaming failed, removed. *)
Definition is_save_effect (file : string) (e : Effect) : Prop :=
  match e with
  | EMkdirAll dir => dir = Filepath.Dir file
  | EWriteFile name _ => name = file ++ ".tmp"
  | ERename oldpath newpath => oldpath = file ++ ".tmp" /\ newpath = file
  | ERemove name => name = file ++ ".tmp"
  end.

(** The effects of moving repositories of the given paths: a parent
    directory made, one of the paths renamed. *)
Definition is_move_effect (paths : list string) (e : Effect) : Prop :=
  match e with
  | EMkdirAll _ => True
  | ERename oldpath _ => oldpath ∈ paths
  | EWriteFile _ _ | ERemove _ => False
  end.

Section Observed.
Context {W : Type} `{WorldExt W}.

(** An entry that [doctor] finds in order and whose current URL is the
    live one of its directory. *)
Definition in_order (verbose : bool) (FussyGitHome : string) (w : W)
    (e : RepositoryEntry) : Prop :=
  checkRepo verbose FussyGitHome w e = []
  /\ GetRemoteOriginURL w (Path e) = Some (CurrentURL e).

End Observed.

End Observed.

(** * Properties of the URL normalizer *)

Module URLProps.
Import GoStrings Gitutil.

Lemma eqs_true (a b : string) : eqs a b = true <-> a = b.
Proof. unfold eqs. apply String.eqb_eq. Qed.

Lemma eqs_false (a b : string) : eqs a b = false <-> a <> b.
Proof. unfold eqs. apply String.eqb_neq. Qed.

(** C1. Parsing the SCP-like URL of cobra succeeds with the domain, the
    repository name and the SSH flag of the scenario, but the path of the
    descriptor keeps its [.git] suffix: it is [spf13/cobra.git], not
    [spf13/cobra]. *)
Theorem ParseGitURL_scp_cobra :
  ParseGitURL "git@github.com:spf13/cobra.git"
  = Ok (mkParsedGitURL "git@github.com:spf13/cobra.git" "ssh" "git"
          "github.com" "github.com" "spf13/cobra.git" "cobra" true).
Proof. reflexivity. Qed.

(** The example in the comment of [GetLocalPath] does not come out as
    written there: the directory keeps the suffix. *)
Example GetLocalPath_doc_example :
  (p <- ParseGitURL "git@gitlab.com:group/subgroup/project.git" ;;
   Ok (GetLocalPath p "/home/user/git"))
  = Ok "/home/user/git/gitlab.com/group/subgroup/project.git".
Proof. reflexivity. Qed.

(** C2. The round trip from an HTTPS URL that ends in [.git] does not come
    back to the normalized identity it started from: the identity of the
    parsed input keeps the suffix, the identity after the round trip has
    lost it. *)
Theorem roundTrip_loses_git_suffix :
  (p1 <- ParseGitURL "https://github.com/spf13/cobra.git" ;; Ok (GetNormalizedFSPath p1))
  = Ok "github.com/spf13/cobra.git"
  /\ (p3 <- roundTrip "https://github.com/spf13/cobra.git" ;; Ok (GetNormalizedFSPath p3))
     = Ok "github.com/spf13/cobra".
Proof. split; reflexivity. Qed.

(** Without the suffix the round trip does come back. *)
Example roundTrip_plain :
  (p1 <- ParseGitURL "https://github.com/spf13/cobra" ;; Ok (GetNormalizedFSPath p1))
  = Ok "github.com/spf13/cobra"
  /\ (p3 <- roundTrip "https://github.com/spf13/cobra" ;; Ok (GetNormalizedFSPath p3))
     = Ok "github.com/spf13/cobra".
Proof. split; reflexivity. Qed.

(** C3. An SCP-like URL whose last path element is [.git] parses with
    success and an empty repository name: the SCP branch returns before
    the check of the domain and the name. *)
Theorem ParseGitURL_scp_empty_RepoName :
  ParseGitURL "git@github.com:.git"
  = Ok (mkParsedGitURL "git@github.com:.git" "ssh" "git"
          "github.com" "github.com" ".git" "" true).
Proof. reflexivity. Qed.

(** The check is made on the other branch: a success that went through
    [url.Parse] has a domain and a repository name. *)
Lemma ParseGitURL_checked (repoURL : string) (pu : ParsedGitURL) :
  Regexp.scpLikeURLRegex_FindStringSubmatch repoURL = None ->
  ParseGitURL repoURL = Ok pu ->
  Domain pu <> "" /\ RepoName pu <> "".
Proof.
  intros Hscp. unfold ParseGitURL. rewrite Hscp.
  destruct (NetURL.Parse repoURL) as [u|]; [|discriminate].
  destruct (scheme_case _ _) as [parsed|e]; [|discriminate].
  destruct (eqs (Domain parsed) "") eqn:Hd; [discriminate|].
  destruct (eqs (RepoName parsed) "") eqn:Hr; [discriminate|].
  simpl. intros [= <-]. split; now apply eqs_false.
Qed.

Lemma nonempty_neq (s : string) : Regexp.nonempty s = true -> s <> "".
Proof. destruct s; [discriminate | intros _; discriminate]. Qed.

(** The domain of an SCP-like success is never empty: the host group of
    the pattern has at least one byte. *)
Lemma ParseGitURL_scp_Domain (repoURL user host rawPath : string) (pu : ParsedGitURL) :
  Regexp.scpLikeURLRegex_FindStringSubmatch repoURL = Some (user, host, rawPath) ->
  ParseGitURL repoURL = Ok pu ->
  Domain pu = host /\ host <> "" /\ IsSSH pu = true.
Proof.
  intros Hscp. unfold ParseGitURL. rewrite Hscp. intros [= <-]. simpl.
  split; [reflexivity|]. split; [|reflexivity].
  unfold Regexp.scpLikeURLRegex_FindStringSubmatch in Hscp.
  destruct (IndexByte repoURL "@") as [i|]; [|discriminate].
  destruct (IndexByte _ ":") as [j|]; [|discriminate].
  destruct (Regexp.nonempty (take j _)) eqn:Hne.
  - destruct (_ && _) in Hscp; [|discriminate].
    injection Hscp as _ <- _. now apply nonempty_neq.
  - rewrite !andb_false_r in Hscp. simpl in Hscp. discriminate.
Qed.

(** *** Local paths: inputs without a colon *)

Lemma Contains_colon (s : string) :
  Contains s ":" = false -> IndexByte s ":" = None.
Proof.
  unfold Contains. induction s as [|c s IH]; [reflexivity|].
  cbn [String.index String.prefix IndexByte].
  destruct (ascii_dec ":" c) as [<- | Hne].
  - destruct s; discriminate.
  - destruct (Ascii.eqb c ":") eqn:Hc.
    + apply Ascii.eqb_eq in Hc. congruence.
    + destruct (String.index 0 ":" s); [discriminate|].
      intros _. now rewrite IH.
Qed.

Lemma IndexByte_None_cons (c d : ascii) (s : string) :
  IndexByte (String d s) c = None -> Ascii.eqb d c = false /\ IndexByte s c = None.
Proof.
  simpl. destruct (Ascii.eqb d c); [discriminate|].
  destruct (IndexByte s c); [discriminate | auto].
Qed.

Lemma IndexByte_drop (c : ascii) (n : nat) (s : string) :
  IndexByte s c = None -> IndexByte (drop n s) c = None.
Proof.
  revert s. induction n as [|n IH]; intros s Hs; [destruct s; exact Hs|].
  destruct s as [|d s]; [reflexivity|].
  apply IndexByte_None_cons in Hs as [_ Hs]. simpl. now apply IH.
Qed.

Lemma IndexByte_take (c : ascii) (n : nat) (s : string) :
  IndexByte s c = None -> IndexByte (take n s) c = None.
Proof.
  revert s. induction n as [|n IH]; intros s Hs; [destruct s; reflexivity|].
  destruct s as [|d s]; [reflexivity|].
  apply IndexByte_None_cons in Hs as [Hd Hs]. simpl.
  rewrite Hd, (IH s Hs). reflexivity.
Qed.

(** The SCP pattern needs a colon. *)
Lemma scp_needs_colon (s : string) :
  IndexByte s ":" = None -> Regexp.scpLikeURLRegex_FindStringSubmatch s = None.
Proof.
  intros Hs. unfold Regexp.scpLikeURLRegex_FindStringSubmatch.
  destruct (IndexByte s "@") as [i|]; [|reflexivity].
  now rewrite (IndexByte_drop ":" (S i) s Hs).
Qed.

(** So does a scheme. *)
Lemma getScheme_from_no_colon (s : string) (first : bool) :
  IndexByte s ":" = None -> NetURL.getScheme_from first s = Some None.
Proof.
  revert first. induction s as [|c s IH]; intros first Hs; [reflexivity|].
  apply IndexByte_None_cons in Hs as [Hc Hs]. simpl.
  rewrite (IH false Hs), Hc.
  destruct (NetURL.scheme_letter c); [reflexivity|].
  destruct (NetURL.scheme_other c); [|reflexivity].
  destruct first; reflexivity.
Qed.

Lemma parse_no_colon (raw : string) (u : NetURL.URL) :
  IndexByte raw ":" = None -> NetURL.parse raw = Some u -> NetURL.Scheme u = "".
Proof.
  intros Hs. unfold NetURL.parse, NetURL.getScheme.
  rewrite (getScheme_from_no_colon raw true Hs). simpl.
  repeat case_match; intros; simplify_eq; reflexivity.
Qed.

Lemma Parse_no_colon (raw : string) (u : NetURL.URL) :
  IndexByte raw ":" = None -> NetURL.Parse raw = Some u -> NetURL.Scheme u = "".
Proof.
  intros Hs. unfold NetURL.Parse, Cut.
  destruct (IndexByte raw "#") as [i|].
  - destruct (NetURL.parse (take i raw)) as [url|] eqn:Hp; [|discriminate].
    apply parse_no_colon in Hp; [|now apply IndexByte_take].
    repeat case_match; intros; simplify_eq; assumption.
  - destruct (NetURL.parse raw) as [url|] eqn:Hp; [|discriminate].
    apply parse_no_colon in Hp; [|assumption].
    simpl. intros; simplify_eq; assumption.
Qed.

(** An input without a colon that parses is a local path: its scheme is
    [file], and it does not convert to HTTPS. *)
Lemma local_path_unconvertible (repoURL : string) (pu : ParsedGitURL) :
  Contains repoURL ":" = false ->
  ParseGitURL repoURL = Ok pu ->
  Scheme pu = "file" /\ is_ok (ToHTTPS pu) = false.
Proof.
  intros Hc Hp.
  assert (Hs := Contains_colon _ Hc).
  unfold ParseGitURL in Hp. rewrite (scp_needs_colon _ Hs) in Hp.
  destruct (NetURL.Parse repoURL) as [u|] eqn:Hu; [|discriminate].
  apply Parse_no_colon in Hu; [|assumption].
  unfold scheme_case in Hp. simpl in Hp. rewrite Hu, Hc in Hp. simpl in Hp.
  destruct (eqs _ ""); [discriminate|]. injection Hp as <-.
  split; reflexivity.
Qed.

(** *** The round trip on plain HTTPS URLs *)

Lemma host_class_plain (c : ascii) :
  Regexp.host_class c = true ->
  NetURL.is_ctl c = false /\ NetURL.shouldEscape_host c = false.
Proof.
  destruct c as [[] [] [] [] [] [] [] []]; vm_compute; intros Hc;
    try discriminate Hc; split; reflexivity.
Qed.

Lemma path_class_plain (c : ascii) :
  path_class c = true ->
  NetURL.is_ctl c = false /\ Regexp.dot_class c = true.
Proof.
  destruct c as [[] [] [] [] [] [] [] []]; vm_compute; intros Hc;
    try discriminate Hc; split; reflexivity.
Qed.

(** A string of bytes of a class has no byte from outside the class. *)
Section Bytes.
Variables (P : ascii -> bool) (x : ascii).
Hypothesis P_x : P x = false.

Lemma class_excludes (c : ascii) : P c = true -> Ascii.eqb c x = false.
Proof.
  intros Hc. destruct (Ascii.eqb c x) eqn:Hcx; [|reflexivity].
  apply Ascii.eqb_eq in Hcx. congruence.
Qed.

Lemma forallb_IndexByte (s : string) :
  forallb P s = true -> IndexByte s x = None.
Proof.
  induction s as [|c s IH]; [reflexivity|]. simpl.
  intros [Hc Hs]%andb_true_iff. now rewrite (class_excludes c Hc), (IH Hs).
Qed.

Lemma forallb_LastIndexByte (s : string) :
  forallb P s = true -> LastIndexByte s x = None.
Proof.
  induction s as [|c s IH]; [reflexivity|]. simpl.
  intros [Hc Hs]%andb_true_iff. now rewrite (class_excludes c Hc), (IH Hs).
Qed.

Lemma forallb_CountByte (s : string) :
  forallb P s = true -> CountByte s x = 0.
Proof.
  induction s as [|c s IH]; [reflexivity|]. simpl.
  intros [Hc Hs]%andb_true_iff. now rewrite (class_excludes c Hc), (IH Hs).
Qed.

End Bytes.

Lemma forallb_app (P : ascii -> bool) (a b : string) :
  forallb P (a ++ b) = forallb P a && forallb P b.
Proof.
  induction a as [|c a IH]; [reflexivity|]. simpl. now rewrite IH, andb_assoc.
Qed.

Lemma forallb_impl (P Q : ascii -> bool) (s : string) :
  (forall c, P c = true -> Q c = true) -> forallb P s = true -> forallb Q s = true.
Proof.
  intros HPQ. induction s as [|c s IH]; [reflexivity|]. simpl.
  intros [Hc Hs]%andb_true_iff. now rewrite (HPQ c Hc), (IH Hs).
Qed.

Lemma IndexByte_app_hit (a b : string) (x : ascii) :
  IndexByte a x = None -> IndexByte (a ++ String x b) x = Some (len a).
Proof.
  induction a as [|c a IH]; simpl.
  - now rewrite Ascii.eqb_refl.
  - destruct (Ascii.eqb c x); [discriminate|].
    destruct (IndexByte a x); [discriminate|]. intros _. now rewrite IH.
Qed.

Lemma IndexByte_app_miss (a b : string) (x : ascii) :
  IndexByte a x = None -> IndexByte b x = None -> IndexByte (a ++ b) x = None.
Proof.
  induction a as [|c a IH]; simpl; [auto|].
  destruct (Ascii.eqb c x); [discriminate|].
  destruct (IndexByte a x); [discriminate|]. intros _ Hb. now rewrite IH.
Qed.

Lemma IndexByte_cons_miss (c x : ascii) (s : string) :
  Ascii.eqb c x = false -> IndexByte s x = None -> IndexByte (String c s) x = None.
Proof. intros Hc Hs. cbn [IndexByte]. now rewrite Hc, Hs. Qed.

Lemma CountByte_cons_miss (c x : ascii) (s : string) :
  Ascii.eqb c x = false -> CountByte s x = 0 -> CountByte (String c s) x = 0.
Proof. intros Hc Hs. cbn [CountByte]. now rewrite Hc, Hs. Qed.

Lemma CountByte_app (a b : string) (x : ascii) :
  CountByte (a ++ b) x = CountByte a x + CountByte b x.
Proof.
  induction a as [|c a IH]; [reflexivity|].
  simpl. rewrite IH. lia.
Qed.

Lemma prefix_empty (s : string) : String.prefix "" s = true.
Proof. destruct s; reflexivity. Qed.

Lemma HasPrefix_slashes (s : string) : HasPrefix ("//" ++ s) "//" = true.
Proof. destruct s; reflexivity. Qed.

Lemma TrimPrefix_slash (s : string) : TrimPrefix ("/" ++ s) "/" = s.
Proof. destruct s; reflexivity. Qed.

Lemma HasPrefix_app_false (a b : string) (x : ascii) :
  a <> "" -> HasPrefix a (String x "") = false -> HasPrefix (a ++ b) (String x "") = false.
Proof.
  unfold HasPrefix. destruct a as [|c a]; [congruence|]. intros _ Ha.
  change (String c a ++ b) with (String c (a ++ b)).
  cbn [String.prefix] in *. destruct (ascii_dec x c); [|reflexivity].
  rewrite prefix_empty in Ha. discriminate Ha.
Qed.

Lemma nonempty_true (s : string) : s <> "" -> Regexp.nonempty s = true.
Proof. destruct s; [congruence | reflexivity]. Qed.

Lemma take_app (a b : string) : take (len a) (a ++ b) = a.
Proof. induction a as [|c a IH]; simpl; [destruct b; reflexivity | now rewrite IH]. Qed.

Lemma drop_app (a b : string) : drop (len a) (a ++ b) = b.
Proof. induction a as [|c a IH]; simpl; [destruct b; reflexivity | exact IH]. Qed.

Lemma drop_app_cons (a b : string) (x : ascii) :
  drop (S (len a)) (a ++ String x b) = b.
Proof. induction a as [|c a IH]; simpl; [destruct b; reflexivity | exact IH]. Qed.

Lemma len_app (a b : string) : len (a ++ b) = len a + len b.
Proof. induction a as [|c a IH]; simpl; [reflexivity | now rewrite IH]. Qed.

Lemma app_nonempty (a b : string) : b <> "" -> a ++ b <> "".
Proof. destruct a; simpl; [auto | discriminate]. Qed.

Lemma HasSuffix_app (a b : string) : HasSuffix (a ++ b) b = true.
Proof.
  unfold HasSuffix. rewrite len_app.
  replace (len a + len b - len b) with (len a) by lia.
  rewrite drop_app, String.eqb_refl.
  apply andb_true_iff. split; [apply Nat.leb_le; lia | reflexivity].
Qed.

Lemma TrimSuffix_app (a b : string) : TrimSuffix (a ++ b) b = a.
Proof.
  unfold TrimSuffix. rewrite HasSuffix_app, len_app.
  replace (len a + len b - len b) with (len a) by lia. apply take_app.
Qed.

(** Decoding changes nothing where there is nothing to decode. *)
Lemma unescape_path_plain (s : string) :
  forallb path_class s = true -> NetURL.unescape s NetURL.encodePath = Some s.
Proof.
  induction s as [|c s IH]; [reflexivity|]. simpl.
  intros [Hc Hs]%andb_true_iff.
  rewrite (class_excludes path_class "%" eq_refl c Hc).
  now rewrite (IH Hs).
Qed.

Lemma unescape_host_plain (s : string) :
  forallb Regexp.host_class s = true -> NetURL.unescape s NetURL.encodeHost = Some s.
Proof.
  induction s as [|c s IH]; [reflexivity|]. simpl.
  intros [Hc Hs]%andb_true_iff.
  rewrite (class_excludes Regexp.host_class "%" eq_refl c Hc).
  rewrite (proj2 (host_class_plain c Hc)), andb_false_r.
  now rewrite (IH Hs).
Qed.

Section Plain.
Variables host path : string.
Hypothesis Hplain : plainHTTPS host path.

Let Hh := plain_host host path Hplain.
Let Hp := plain_path host path Hplain.
Let Hhost := plain_host_nonempty host path Hplain.
Let Hpath := plain_path_nonempty host path Hplain.

Lemma host_without (x : ascii) :
  Regexp.host_class x = false ->
  IndexByte host x = None /\ LastIndexByte host x = None.
Proof.
  intros Hx. split.
  - now apply (forallb_IndexByte Regexp.host_class x Hx).
  - now apply (forallb_LastIndexByte Regexp.host_class x Hx).
Qed.

Lemma path_without (x : ascii) :
  path_class x = false -> IndexByte path x = None /\ CountByte path x = 0.
Proof.
  intros Hx. split.
  - now apply (forallb_IndexByte path_class x Hx).
  - now apply (forallb_CountByte path_class x Hx).
Qed.

(** A byte that is in neither class and not in [https://] is not in the
    URL, nor in what follows the scheme. *)
Lemma plain_url_without (x : ascii) :
  Regexp.host_class x = false -> path_class x = false ->
  IndexByte "https://" x = None ->
  IndexByte (httpsURL host path) x = None
  /\ IndexByte ("//" ++ host ++ "/" ++ path) x = None
  /\ CountByte ("//" ++ host ++ "/" ++ path) x = 0.
Proof.
  intros Hxh Hxp Hpre.
  assert (Hslash : Ascii.eqb "/" x = false).
  { destruct (Ascii.eqb "/" x) eqn:Hs; [|reflexivity].
    apply Ascii.eqb_eq in Hs. subst x. discriminate Hpre. }
  destruct (host_without x Hxh) as [Hih _].
  destruct (path_without x Hxp) as [Hip Hcp].
  assert (Htail : IndexByte (host ++ String "/" path) x = None).
  { apply IndexByte_app_miss; [exact Hih|]. now apply IndexByte_cons_miss. }
  split; [|split].
  - unfold httpsURL. now apply IndexByte_app_miss.
  - change ("//" ++ host ++ "/" ++ path)
      with (String "/" (String "/" (host ++ String "/" path))).
    now do 2 (apply IndexByte_cons_miss; [exact Hslash|]).
  - change ("//" ++ host ++ "/" ++ path)
      with (String "/" (String "/" (host ++ String "/" path))).
    do 2 (apply CountByte_cons_miss; [exact Hslash|]).
    rewrite CountByte_app.
    rewrite (forallb_CountByte Regexp.host_class x Hxh host Hh).
    now apply CountByte_cons_miss.
Qed.

(** The URL has no at sign, so it is not SCP-like. *)
Lemma plain_not_scp :
  Regexp.scpLikeURLRegex_FindStringSubmatch (httpsURL host path) = None.
Proof.
  unfold Regexp.scpLikeURLRegex_FindStringSubmatch.
  now rewrite (proj1 (plain_url_without "@" eq_refl eq_refl eq_refl)).
Qed.

Lemma plain_no_ctl : NetURL.stringContainsCTLByte (httpsURL host path) = false.
Proof.
  unfold NetURL.stringContainsCTLByte, httpsURL.
  rewrite !forallb_app. apply negb_false_iff.
  repeat (apply andb_true_iff; split); try reflexivity.
  - apply (forallb_impl Regexp.host_class); [|exact Hh].
    intros c Hc. apply negb_true_iff. apply (host_class_plain c Hc).
  - apply (forallb_impl path_class); [|exact Hp].
    intros c Hc. apply negb_true_iff. apply (path_class_plain c Hc).
Qed.

Lemma host_no_bracket : HasPrefix host "[" = false.
Proof.
  unfold HasPrefix. destruct host as [|c h]; [reflexivity|].
  simpl in Hh. apply andb_true_iff in Hh as [Hc _].
  cbn [String.prefix]. destruct (ascii_dec "[" c) as [<- | _]; [|reflexivity].
  discriminate Hc.
Qed.

Lemma parseAuthority_plain : NetURL.parseAuthority host = Some (None, host).
Proof.
  unfold NetURL.parseAuthority, NetURL.parseHost.
  rewrite (proj2 (host_without "@" eq_refl)), host_no_bracket.
  rewrite (proj2 (host_without ":" eq_refl)).
  now rewrite (unescape_host_plain host Hh).
Qed.

Lemma parse_plain :
  NetURL.parse (httpsURL host path)
  = Some (NetURL.mkURL "https" "" None host ("/" ++ path) "" "").
Proof.
  unfold NetURL.parse. rewrite plain_no_ctl.
  change (String.eqb (httpsURL host path) "*") with false.
  change (NetURL.getScheme (httpsURL host path))
    with (Some ("https", "//" ++ host ++ "/" ++ path)).
  destruct (plain_url_without "?" eq_refl eq_refl eq_refl) as (_ & Hiq & Hcq).
  rewrite Hcq, andb_false_r. unfold Cut at 1. rewrite Hiq.
  cbv beta iota.
  change (HasPrefix ("//" ++ host ++ "/" ++ path) "/") with true.
  rewrite (HasPrefix_slashes (host ++ "/" ++ path)).
  change (ToLower "https") with "https".
  change (drop 2 ("//" ++ host ++ "/" ++ path)) with (host ++ String "/" path).
  cbn [negb andb orb String.eqb Ascii.eqb Bool.eqb].
  rewrite (IndexByte_app_hit host path "/" (proj1 (host_without "/" eq_refl))).
  rewrite take_app, drop_app, parseAuthority_plain.
  rewrite (unescape_path_plain (String "/" path)); [reflexivity|].
  cbn [forallb]. now rewrite Hp.
Qed.

Lemma Parse_plain :
  NetURL.Parse (httpsURL host path)
  = Some (NetURL.mkURL "https" "" None host ("/" ++ path) "" "").
Proof.
  unfold NetURL.Parse, Cut.
  rewrite (proj1 (plain_url_without "#" eq_refl eq_refl eq_refl)).
  now rewrite parse_plain.
Qed.

(** A plain HTTPS URL parses to its host and its path. *)
Lemma ParseGitURL_plain :
  ParseGitURL (httpsURL host path)
  = Ok (mkParsedGitURL (httpsURL host path) "https" "" host host path
          (TrimSuffix (Filepath.Base path) ".git") false).
Proof.
  unfold ParseGitURL. rewrite plain_not_scp, Parse_plain.
  cbn [NetURL.User NetURL.Path NetURL.Scheme NetURL.Host].
  assert (Hname : NetURL.Hostname
                    (NetURL.mkURL "https" "" None host ("/" ++ path) "" "") = host).
  { unfold NetURL.Hostname. cbn [NetURL.Host].
    now rewrite (proj2 (host_without ":" eq_refl)), host_no_bracket. }
  rewrite Hname, TrimPrefix_slash.
  unfold scheme_case. cbn [Scheme].
  change (eqs "https" "ssh") with false. change (eqs "https" "http") with false.
  change (eqs "https" "https") with true.
  cbn [orb Domain RepoName].
  rewrite (proj2 (eqs_false host "") Hhost).
  rewrite (proj2 (eqs_false _ "") (plain_repo_name host path Hplain)).
  reflexivity.
Qed.

(** Its SSH form is SCP-like, with the user [git] and the suffix. *)
Lemma ToSSH_plain :
  ToSSH (mkParsedGitURL (httpsURL host path) "https" "" host host path
           (TrimSuffix (Filepath.Base path) ".git") false)
  = Ok ("git@" ++ host ++ ":" ++ path ++ ".git").
Proof.
  unfold ToSSH. cbn [IsSSH Scheme Domain Path User OriginalURL].
  change (eqs "https" "https") with true. cbn [orb].
  rewrite (proj2 (eqs_false host "") Hhost), (proj2 (eqs_false path "") Hpath).
  now rewrite (plain_path_no_suffix host path Hplain).
Qed.

(** The SSH form parses to the same host and to the path with the suffix. *)
Lemma ParseGitURL_plain_ssh :
  ParseGitURL ("git@" ++ host ++ ":" ++ path ++ ".git")
  = Ok (mkParsedGitURL ("git@" ++ host ++ ":" ++ path ++ ".git") "ssh" "git" host host
          (path ++ ".git") (TrimSuffix (Filepath.Base (path ++ ".git")) ".git") true).
Proof.
  unfold ParseGitURL, Regexp.scpLikeURLRegex_FindStringSubmatch.
  change (IndexByte ("git@" ++ host ++ ":" ++ path ++ ".git") "@") with (Some 3).
  cbv beta iota.
  change (take 3 ("git@" ++ host ++ ":" ++ path ++ ".git")) with "git".
  change (drop 4 ("git@" ++ host ++ ":" ++ path ++ ".git"))
    with (host ++ String ":" (path ++ ".git")).
  rewrite (IndexByte_app_hit host (path ++ ".git") ":" (proj1 (host_without ":" eq_refl))).
  rewrite take_app, drop_app_cons.
  change (Regexp.nonempty "git" && forallb Regexp.user_class "git") with true.
  rewrite (nonempty_true host Hhost), Hh.
  assert (Hdot : forallb Regexp.dot_class (path ++ ".git") = true).
  { rewrite forallb_app. apply andb_true_iff. split; [|reflexivity].
    apply (forallb_impl path_class); [|exact Hp].
    intros c Hc. apply (path_class_plain c Hc). }
  rewrite Hdot. cbn [andb].
  assert (Htrim : TrimPrefix (path ++ ".git") "/" = path ++ ".git").
  { unfold TrimPrefix.
    now rewrite (HasPrefix_app_false path ".git" "/" Hpath
                   (plain_path_rootless host path Hplain)). }
  rewrite Htrim. reflexivity.
Qed.

(** The HTTPS form of that is the URL the round trip started from. *)
Lemma ToHTTPS_plain_ssh :
  ToHTTPS (mkParsedGitURL ("git@" ++ host ++ ":" ++ path ++ ".git") "ssh" "git" host host
             (path ++ ".git") (TrimSuffix (Filepath.Base (path ++ ".git")) ".git") true)
  = Ok (httpsURL host path).
Proof.
  unfold ToHTTPS. cbn [IsSSH Scheme Domain Path OriginalURL negb andb].
  change (eqs "ssh" "ssh") with true. cbn [orb].
  rewrite (proj2 (eqs_false host "") Hhost).
  rewrite (proj2 (eqs_false (path ++ ".git") "")
             (app_nonempty path ".git" ltac:(discriminate))).
  cbn [orb]. now rewrite TrimSuffix_app.
Qed.

(** On a plain HTTPS URL the round trip comes back to the URL itself, so
    to the descriptor, and the normalized identity, it started from. *)
Lemma roundTrip_plainHTTPS :
  roundTrip (httpsURL host path) = ParseGitURL (httpsURL host path)
  /\ is_ok (ParseGitURL (httpsURL host path)) = true.
Proof.
  unfold roundTrip.
  rewrite ParseGitURL_plain. cbn [bind].
  rewrite ToSSH_plain. cbn [bind].
  rewrite ParseGitURL_plain_ssh. cbn [bind].
  rewrite ToHTTPS_plain_ssh. cbn [bind].
  rewrite ParseGitURL_plain. split; reflexivity.
Qed.

End Plain.

(** So the round trip of a plain HTTPS URL preserves the normalized
    identity: the suffix is the only way to lose it. *)
Corollary roundTrip_plain_identity (host path : string) :
  plainHTTPS host path ->
  exists p1 p3 : ParsedGitURL,
    ParseGitURL (httpsURL host path) = Ok p1
    /\ roundTrip (httpsURL host path) = Ok p3
    /\ GetNormalizedFSPath p3 = GetNormalizedFSPath p1.
Proof.
  intros Hplain.
  destruct (roundTrip_plainHTTPS host path Hplain) as [Hrt Hok].
  destruct (ParseGitURL (httpsURL host path)) as [p1|] eqn:Hp; [|discriminate].
  exists p1, p1. auto.
Qed.

Example plainHTTPS_cobra : plainHTTPS "github.com" "spf13/cobra".
Proof. split; try reflexivity; discriminate. Qed.

(** C8, as worded, fails on the code. A descriptor parsed from an HTTPS
    URL with a user converts with the user [git], not with its own; and a
    descriptor of scheme https with an empty path does not convert. *)
Lemma ToSSH_spec_counterexample :
  let alice := mkParsedGitURL "https://alice@github.com/spf13/cobra" "https"
                 "alice" "github.com" "github.com" "spf13/cobra" "cobra" false in
  let bare := mkParsedGitURL "https://github.com" "https"
                 "" "github.com" "github.com" "" "." false in
  ParseGitURL "https://alice@github.com/spf13/cobra" = Ok alice
  /\ ToSSH alice = Ok "git@github.com:spf13/cobra.git"
  /\ ToSSH_spec alice = Ok "alice@github.com:spf13/cobra.git"
  /\ ToSSH alice <> ToSSH_spec alice
  /\ ParseGitURL "https://github.com" = Ok bare
  /\ ToSSH bare = Err (ErrToSSHEmpty "https://github.com")
  /\ is_ok (ToSSH bare) <> is_ok (ToSSH_spec bare).
Proof. repeat split; try reflexivity; discriminate. Qed.

(** C8, amended. [ToSSH] returns the original URL of a descriptor whose
    SSH flag is set. Otherwise, for the scheme https or http with a domain
    and a path, it returns [git@domain:path], the path with [.git]
    appended when it does not end in it; the user is [git] whatever the
    user of the descriptor. It succeeds in these cases and in no other. *)
Theorem ToSSH_characterised (pu : ParsedGitURL) :
  (IsSSH pu = true -> ToSSH pu = Ok (OriginalURL pu))
  /\ (IsSSH pu = false ->
      Scheme pu = "https" \/ Scheme pu = "http" ->
      Domain pu <> "" -> Path pu <> "" ->
      ToSSH pu = Ok ("git@" ++ Domain pu ++ ":" ++
                     (if HasSuffix (Path pu) ".git" then Path pu else Path pu ++ ".git")))
  /\ (is_ok (ToSSH pu) = true <->
      IsSSH pu = true
      \/ ((Scheme pu = "https" \/ Scheme pu = "http") /\ Domain pu <> "" /\ Path pu <> "")).
Proof.
  unfold ToSSH.
  destruct (IsSSH pu) eqn:Hssh.
  { split; [reflexivity|]. split; [discriminate|]. simpl. tauto. }
  assert (Hsch : eqs (Scheme pu) "https" || eqs (Scheme pu) "http" = true
                 <-> Scheme pu = "https" \/ Scheme pu = "http").
  { rewrite orb_true_iff, !eqs_true. reflexivity. }
  assert (Hemp : eqs (Domain pu) "" || eqs (Path pu) "" = false
                 <-> Domain pu <> "" /\ Path pu <> "").
  { rewrite orb_false_iff, !eqs_false. reflexivity. }
  split; [discriminate|]. split.
  - intros _ Hs Hd Hp.
    apply Hsch in Hs. rewrite Hs.
    assert (He : eqs (Domain pu) "" || eqs (Path pu) "" = false) by now apply Hemp.
    rewrite He.
    assert (Hn : eqs (Scheme pu) "ssh" = false).
    { apply eqs_false. apply Hsch in Hs. destruct Hs as [-> | ->]; discriminate. }
    rewrite Hn, andb_false_r.
    destruct (HasSuffix (Path pu) ".git"); reflexivity.
  - destruct (eqs (Scheme pu) "https" || eqs (Scheme pu) "http") eqn:Hs.
    + destruct (eqs (Domain pu) "" || eqs (Path pu) "") eqn:He; simpl.
      * split; [discriminate|]. intros [? | (_ & Hd & Hp)]; [discriminate|].
        assert (true = false) by (apply Hemp; auto). discriminate.
      * split; [|reflexivity]. intros _. right.
        split; [now apply Hsch | now apply Hemp].
    + simpl. split; [discriminate|].
      intros [? | (Hs' & _)]; [discriminate|].
      apply Hsch in Hs'. discriminate.
Qed.

(** [ToSSH_characterised] at the descriptor of an HTTPS URL with a user. *)
Lemma ToSSH_characterised_witness :
  ToSSH (mkParsedGitURL "https://alice@github.com/spf13/cobra" "https"
           "alice" "github.com" "github.com" "spf13/cobra" "cobra" false)
  = Ok "git@github.com:spf13/cobra.git"
  /\ ToSSH (mkParsedGitURL "git@github.com:spf13/cobra.git" "ssh" "git"
              "github.com" "github.com" "spf13/cobra.git" "cobra" true)
     = Ok "git@github.com:spf13/cobra.git".
Proof.
  split.
  - apply (proj1 (proj2 (ToSSH_characterised
             (mkParsedGitURL "https://alice@github.com/spf13/cobra" "https"
                "alice" "github.com" "github.com" "spf13/cobra" "cobra" false)))).
    + reflexivity.
    + left. reflexivity.
    + simpl. discriminate.
    + simpl. discriminate.
  - apply (proj1 (ToSSH_characterised
             (mkParsedGitURL "git@github.com:spf13/cobra.git" "ssh" "git"
                "github.com" "github.com" "spf13/cobra.git" "cobra" true))).
    reflexivity.
Defined.

End URLProps.

(** * Properties of the registry store *)

Module StoreProps.
Import State.
Local Open Scope list_scope.

Lemma find_by_Path_Some (path : string) (repos : list RepositoryEntry)
    (i : nat) (r : RepositoryEntry) :
  find_by_Path path repos = Some (i, r) ->
  repos !! i = Some r /\ Path r = path.
Proof.
  unfold find_by_Path. intros Hf.
  apply list_find_Some in Hf as (Hi & Hp & _). auto.
Qed.

Lemma find_by_Path_None (path : string) (repos : list RepositoryEntry) :
  find_by_Path path repos = None -> path ∉ Path <$> repos.
Proof.
  unfold find_by_Path. intros Hf Hin.
  apply list_find_None in Hf.
  apply list_elem_of_fmap in Hin as (r & -> & Hr).
  rewrite Forall_forall in Hf. now apply (Hf r).
Qed.

(** What [AddRepository] does, case by case. The carry-forward of the
    loop never fires when the clock is not at the zero instant: the
    original URL is not empty past the guard, and [ClonedAt] was stamped
    before the loop. *)
Lemma AddRepository_cases (rs : RepoState) (entry : RepositoryEntry) (now : Time.Time) :
  now <> Time.zero ->
  AddRepository rs entry now =
    if String.eqb (Path entry) "" then Err ErrAddPathEmpty
    else if String.eqb (OriginalURL entry) "" then Err (ErrAddOriginalURLEmpty (Name entry))
    else match find_by_Path (Path entry) (Repositories rs) with
         | Some (i, _) =>
             Ok (set_Repositories (<[i := stamped now entry]> (Repositories rs)) rs)
         | None => Ok (set_Repositories (Repositories rs ++ [stamped now entry]) rs)
         end.
Proof.
  intros Hnow. unfold AddRepository.
  destruct (String.eqb (Path entry) "") eqn:Hp; [reflexivity|].
  destruct (String.eqb (OriginalURL entry) "") eqn:Hu; [reflexivity|].
  assert (Hz : Time.IsZero now = false).
  { unfold Time.IsZero. apply Z.eqb_neq. exact Hnow. }
  destruct entry as [n p u c d f lc lm ca ma no]; simpl in *.
  unfold stamped, set_LastModified; cbn.
  destruct (Time.IsZero ca) eqn:Hca; unfold set_ClonedAt; cbn;
    destruct (Time.IsZero lc) eqn:Hlc; unfold set_LastChecked; cbn;
    destruct (find_by_Path p (Repositories rs)) as [[i r]|]; try reflexivity;
    rewrite Hu; cbn; rewrite ?Hz, ?Hca; reflexivity.
Qed.

Ltac case_ifs :=
  repeat match goal with
         | |- context [if ?b then _ else _] => destruct b
         end.

(** A successful [AddRepository] writes an entry with the path of the
    incoming one: over the first entry of that path when there is one, at
    the end of the collection otherwise. *)
Lemma AddRepository_shape (rs rs' : RepoState) (entry : RepositoryEntry) (now : Time.Time) :
  AddRepository rs entry now = Ok rs' ->
  exists e' : RepositoryEntry,
    Path e' = Path entry
    /\ match find_by_Path (Path entry) (Repositories rs) with
       | Some (i, _) => rs' = set_Repositories (<[i := e']> (Repositories rs)) rs
       | None => rs' = set_Repositories (Repositories rs ++ [e']) rs
       end.
Proof.
  unfold AddRepository.
  destruct (String.eqb (Path entry) ""); [discriminate|].
  destruct (String.eqb (OriginalURL entry) ""); [discriminate|].
  match goal with
  | |- context [find_by_Path (Path ?e) _] =>
      assert (Hp3 : Path e = Path entry) by (case_ifs; reflexivity);
      rewrite Hp3
  end.
  destruct (find_by_Path (Path entry) (Repositories rs)) as [[i r]|].
  - intros [= <-]. eexists. split; [|reflexivity].
    case_ifs; reflexivity.
  - intros [= <-]. eexists. split; [|reflexivity]. exact Hp3.
Qed.

(** A successful [AddRepository] leaves the paths of the store as they
    were when the path was there, and appends a new path otherwise. *)
Lemma AddRepository_paths (rs rs' : RepoState) (entry : RepositoryEntry) (now : Time.Time) :
  AddRepository rs entry now = Ok rs' ->
  (Path <$> Repositories rs' = Path <$> Repositories rs)
  \/ (Path <$> Repositories rs' = (Path <$> Repositories rs) ++ [Path entry]
      /\ Path entry ∉ Path <$> Repositories rs).
Proof.
  intros Hadd. apply AddRepository_shape in Hadd as (e' & Hp & Hrs').
  destruct (find_by_Path (Path entry) (Repositories rs)) as [[i r]|] eqn:Hf; subst rs'.
  - apply find_by_Path_Some in Hf as [Hi Hr].
    left. simpl. rewrite list_fmap_insert, Hp, <- Hr.
    apply list_insert_id. rewrite list_lookup_fmap, Hi. reflexivity.
  - right. simpl. rewrite fmap_app. simpl. rewrite Hp. split; [reflexivity|].
    now apply find_by_Path_None.
Qed.

Lemma AddRepository_NoDup (rs rs' : RepoState) (entry : RepositoryEntry) (now : Time.Time) :
  NoDup (Path <$> Repositories rs) ->
  AddRepository rs entry now = Ok rs' ->
  NoDup (Path <$> Repositories rs').
Proof.
  intros Hnd Hadd. apply AddRepository_paths in Hadd as [-> | [-> Hnew]]; [exact Hnd|].
  apply NoDup_app. split; [exact Hnd|]. split.
  - intros x Hx Hin. apply list_elem_of_singleton in Hin. subst x. contradiction.
  - apply NoDup_singleton.
Qed.

(** C7. From a new store, after any sequence of successful
    [AddRepository] calls, the paths of the entries are pairwise distinct:
    two positions that hold entries of the same path are one position. *)
Theorem reachable_paths_unique (rs : RepoState) :
  reachable rs ->
  NoDup (Path <$> Repositories rs)
  /\ forall (i j : nat) (ei ej : RepositoryEntry),
       Repositories rs !! i = Some ei ->
       Repositories rs !! j = Some ej ->
       Path ei = Path ej -> i = j.
Proof.
  intros Hr.
  assert (Hnd : NoDup (Path <$> Repositories rs)).
  { induction Hr as [fp | rs rs' entry now _ IH Hadd].
    - simpl. apply NoDup_nil_2.
    - eapply AddRepository_NoDup; eassumption. }
  split; [exact Hnd|].
  intros i j ei ej Hi Hj Heq.
  eapply NoDup_lookup; [exact Hnd | |].
  - rewrite list_lookup_fmap, Hi. reflexivity.
  - rewrite list_lookup_fmap, Hj. simpl. now rewrite Heq.
Qed.

Lemma store3_reachable : reachable store3.
Proof.
  eapply (reach_add _ _ (sample "/git/a" "https://github.com/x/a2" 0%Z) 30%Z).
  - eapply (reach_add _ _ (sample "/git/b" "https://github.com/x/b" 0%Z) 20%Z).
    + eapply (reach_add _ _ (sample "/git/a" "https://github.com/x/a" 0%Z) 10%Z).
      * apply (reach_new "repos.json").
      * reflexivity.
    + reflexivity.
  - reflexivity.
Qed.

(** [reachable_paths_unique] at [store3]. *)
Lemma reachable_paths_unique_witness : NoDup (Path <$> Repositories store3).
Proof. exact (proj1 (reachable_paths_unique store3 store3_reachable)). Defined.

(** C4. An entry of the store was cloned at instant 100; the same path is
    added again at instant 200 with [ClonedAt] left zero. The entry is
    replaced and [LastModified] and [LastChecked] are stamped, but
    [ClonedAt] is stamped too: it is 200, not the 100 of the entry that
    was there. *)
Theorem AddRepository_restamps_ClonedAt :
  let existing := sample "/git/cobra" "https://github.com/spf13/cobra" 100%Z in
  let incoming := sample "/git/cobra" "https://github.com/spf13/cobra" Time.zero in
  ClonedAt existing = 100%Z
  /\ ClonedAt incoming = Time.zero
  /\ AddRepository (mkRepoState [existing] "repos.json") incoming 200%Z
     = Ok (mkRepoState [sample "/git/cobra" "https://github.com/spf13/cobra" 200%Z]
             "repos.json")
  /\ (rs' <- AddRepository (mkRepoState [existing] "repos.json") incoming 200%Z ;;
      Ok (ClonedAt <$> Repositories rs'))
     = Ok [200%Z].
Proof. repeat split. Qed.

(** It is so for every store, every entry added over its own path with a
    zero [ClonedAt], and every instant but the zero instant. *)
Lemma AddRepository_zero_ClonedAt (rs rs' : RepoState) (entry r : RepositoryEntry)
    (i : nat) (now : Time.Time) :
  now <> Time.zero ->
  ClonedAt entry = Time.zero ->
  find_by_Path (Path entry) (Repositories rs) = Some (i, r) ->
  AddRepository rs entry now = Ok rs' ->
  ClonedAt <$> (Repositories rs' !! i) = Some now.
Proof.
  intros Hnow Hzero Hfind. rewrite (AddRepository_cases rs entry now Hnow), Hfind.
  destruct (String.eqb (Path entry) ""); [discriminate|].
  destruct (String.eqb (OriginalURL entry) ""); [discriminate|].
  intros [= <-]. simpl.
  apply find_by_Path_Some in Hfind as [Hi _].
  rewrite list_lookup_insert_eq by (eapply lookup_lt_Some; exact Hi).
  simpl. now rewrite Hzero.
Qed.

(** [UpdateRepository] on the same input keeps the instant of the clone. *)
Example UpdateRepository_keeps_ClonedAt :
  UpdateRepository
    (mkRepoState [sample "/git/cobra" "https://github.com/spf13/cobra" 100%Z] "repos.json")
    (sample "/git/cobra" "https://github.com/spf13/cobra" Time.zero)
    200%Z
  = Ok (mkRepoState
          [ mkRepositoryEntry "cobra" "/git/cobra" "https://github.com/spf13/cobra"
              "https://github.com/spf13/cobra" "github.com" "github.com/spf13/cobra"
              Time.zero 200%Z 100%Z false "" ]
          "repos.json").
Proof. reflexivity. Qed.

(** An incoming entry without an original URL is refused, so there is
    nothing to carry forward for it. *)
Lemma AddRepository_needs_OriginalURL (rs : RepoState) (entry : RepositoryEntry)
    (now : Time.Time) :
  OriginalURL entry = "" -> is_ok (AddRepository rs entry now) = false.
Proof.
  intros Hu. unfold AddRepository. rewrite Hu.
  destruct (String.eqb (Path entry) ""); reflexivity.
Qed.

(** C10. [FindRepositoryByPath] and [FindRepositoryByOriginalURL] leave
    the store as it is. When they find an entry, the pointer they return
    is to a variable of its own that holds a copy of the first match: it
    is no address of an element of the store, an assignment through it
    leaves the store as it is, and the variables that escaped before keep
    their values. *)
Theorem Find_returns_copy (m : Mem) (path originalURL : string) :
  let copy_of (found : option (nat * RepositoryEntry)) (res : Mem * option ptr) :=
    store (fst res) = store m
    /\ (forall l e, vars m !! l = Some e -> vars (fst res) !! l = Some e)
    /\ match found, snd res with
       | Some (_, r), Some p =>
           deref (fst res) p = Some r
           /\ (forall i, p <> ElemPtr i)
           /\ (forall e, store (assign (fst res) p e) = store m)
       | None, None => fst res = m
       | _, _ => False
       end in
  copy_of (find_by_Path path (Repositories (store m))) (FindRepositoryByPath m path)
  /\ copy_of (find_by_OriginalURL originalURL (Repositories (store m)))
       (FindRepositoryByOriginalURL m originalURL).
Proof.
  assert (Hfresh : forall l e, vars m !! l = Some e ->
                     <[fresh (dom (vars m)) := e]> (vars m) !! l = vars m !! l
                     /\ l <> fresh (dom (vars m))).
  { intros l e Hl.
    assert (Hne : l <> fresh (dom (vars m))).
    { intros ->. apply (is_fresh (dom (vars m))).
      apply elem_of_dom. eauto. }
    split; [|exact Hne]. apply lookup_insert_ne. congruence. }
  simpl. unfold FindRepositoryByPath, FindRepositoryByOriginalURL.
  split.
  - destruct (find_by_Path _ _) as [[i r]|]; simpl.
    + split; [reflexivity|]. split.
      * intros l e Hl. rewrite lookup_insert_ne; [exact Hl|].
        intros Heq. symmetry in Heq. now apply (Hfresh l e Hl).
      * split; [apply lookup_insert_eq|]. split; [discriminate|reflexivity].
    + auto.
  - destruct (find_by_OriginalURL _ _) as [[i r]|]; simpl.
    + split; [reflexivity|]. split.
      * intros l e Hl. rewrite lookup_insert_ne; [exact Hl|].
        intros Heq. symmetry in Heq. now apply (Hfresh l e Hl).
      * split; [apply lookup_insert_eq|]. split; [discriminate|reflexivity].
    + auto.
Qed.

(** A lookup in [store3], and an assignment through the pointer it
    returns: the entry of the store is as it was. *)
Example Find_then_assign :
  let m := mkMem store3 ∅ in
  let res := FindRepositoryByPath m "/git/b" in
  match snd res with
  | Some p =>
      deref (fst res) p = Some (sample "/git/b" "https://github.com/x/b" 20%Z)
      /\ deref (assign (fst res) p (sample "/elsewhere" "" 0%Z)) p
         = Some (sample "/elsewhere" "" 0%Z)
      /\ Repositories (store (assign (fst res) p (sample "/elsewhere" "" 0%Z)))
         = Repositories store3
  | None => False
  end.
Proof. vm_compute. repeat split. Qed.

(** Had the lookup returned the address of the element, an assignment
    through it would have changed the store. *)
Example assign_through_element :
  Repositories (store (assign (mkMem store3 ∅) (ElemPtr 0)
                         (sample "/elsewhere" "https://github.com/x/a2" 30%Z)))
  <> Repositories store3.
Proof. simpl. intros [=]. Qed.

End StoreProps.

(** * Properties of the reconciler *)

Module ReconcilerProps.
Import GoStrings State Cmd Sim.
Local Open Scope list_scope.

Section Reconciler.
Context {W : Type} `{World W}.

Implicit Types (st : LoopState W) (it : Iter W) (e repoEntry : RepositoryEntry).

Lemma urlCheck_frame (d : bool) it (live : string) (pl : Gitutil.ParsedGitURL) :
  frame it (urlCheck d it live pl) /\ quiet it (urlCheck d it live pl).
Proof.
  unfold urlCheck.
  destruct (negb (is_ok _) || negb (String.eqb _ _)); [|repeat split].
  destruct d; simpl; [repeat split|].
  destruct (String.eqb _ _); repeat split.
Qed.

Lemma nameCheck_frame (d : bool) it (p : Gitutil.ParsedGitURL) :
  frame it (nameCheck d it p) /\ quiet it (nameCheck d it p).
Proof.
  unfold nameCheck.
  destruct (negb (String.eqb _ _)); [|repeat split].
  destruct d; repeat split.
Qed.

Lemma pathCheck_frame (d : bool) it (c : string) : frame it (pathCheck d it c).
Proof.
  unfold pathCheck.
  destruct (negb (String.eqb _ _)); [|split; reflexivity].
  destruct d; simpl; [split; reflexivity|].
  destruct (os_Stat _ _); try (split; reflexivity).
  unfold do_MkdirAll. simpl. destruct (os_MkdirAll _ _) as [w ok].
  destruct ok; simpl; [|split; reflexivity].
  unfold do_Rename. simpl. destruct (os_Rename _ _ _) as [w' ok'].
  destruct ok'; split; reflexivity.
Qed.

(** A dry run writes nothing in the path check. *)
Lemma pathCheck_dry it (c : string) : quiet it (pathCheck true it c).
Proof.
  unfold pathCheck. destruct (negb (String.eqb _ _)); split; reflexivity.
Qed.

(** An applying run writes nothing in the path check when the
    conventional path is there (or cannot be looked at). *)
Lemma pathCheck_conflict it (c : string) :
  os_Stat (world (sys (loop it))) c <> StatNotExist ->
  quiet it (pathCheck false it c).
Proof.
  intros Hc. unfold pathCheck.
  destruct (negb (String.eqb _ _)); [|split; reflexivity].
  simpl. destruct (os_Stat _ _); try (split; reflexivity). contradiction.
Qed.

(** An iteration appends one entry to the processed ones. *)
Lemma processEntry_appends (d : bool) (home : string) st repoEntry :
  exists e', updatedRepositories (processEntry d home st repoEntry)
             = updatedRepositories st ++ [e'].
Proof.
  unfold processEntry.
  destruct (os_Stat _ _); try (eexists; reflexivity).
  destruct (negb (IsGitRepository _ _)); [eexists; reflexivity|].
  destruct (GetRemoteOriginURL _ _) as [live|]; [|eexists; reflexivity].
  destruct (Gitutil.ParseGitURL live) as [pl|]; [|eexists; reflexivity].
  destruct (urlCheck_frame d (mkIter st repoEntry []) live pl) as [[Hu _] _].
  destruct (Gitutil.ParseGitURL (CurrentURL _)) as [pf|].
  - eexists. unfold finish. simpl.
    rewrite (frame_updated _ _ (proj1 (nameCheck_frame d _ pf))).
    rewrite (frame_updated _ _ (pathCheck_frame d _ _)).
    rewrite Hu. reflexivity.
  - eexists. unfold skip. simpl. rewrite Hu. reflexivity.
Qed.

Lemma runLoop_app (d : bool) (home : string) st (l1 l2 : list RepositoryEntry) :
  runLoop d home st (l1 ++ l2) = runLoop d home (runLoop d home st l1) l2.
Proof. unfold runLoop. apply fold_left_app. Qed.

(** The loop appends one processed entry per entry, in order. *)
Lemma runLoop_appends (d : bool) (home : string) (l : list RepositoryEntry) st :
  exists l', updatedRepositories (runLoop d home st l) = updatedRepositories st ++ l'
             /\ length l' = length l.
Proof.
  revert st. induction l as [|e l IH]; intros st.
  - exists []. simpl. rewrite app_nil_r. auto.
  - simpl. destruct (IH (processEntry d home st e)) as (l' & Hl' & Hlen).
    destruct (processEntry_appends d home st e) as (e' & He').
    exists (e' :: l'). fold (runLoop d home (processEntry d home st e) l).
    rewrite Hl', He', <- app_assoc. simpl. auto.
Qed.

(** What a dry iteration leaves as it found it. *)
Lemma processEntry_dry (home : string) st repoEntry :
  sys (processEntry true home st repoEntry) = sys st
  /\ stateModified (processEntry true home st repoEntry) = stateModified st
  /\ actionsTaken (processEntry true home st repoEntry) = actionsTaken st.
Proof.
  unfold processEntry.
  destruct (os_Stat _ _); try (repeat split; reflexivity).
  destruct (negb (IsGitRepository _ _)); [repeat split; reflexivity|].
  destruct (GetRemoteOriginURL _ _) as [live|]; [|repeat split; reflexivity].
  destruct (Gitutil.ParseGitURL live) as [pl|]; [|repeat split; reflexivity].
  assert (Hu : let it := urlCheck true (mkIter st repoEntry []) live pl in
               sys (loop it) = sys st
               /\ stateModified (loop it) = stateModified st
               /\ actionsTaken (loop it) = actionsTaken st).
  { unfold urlCheck. destruct (negb (is_ok _) || negb (String.eqb _ _)); repeat split. }
  simpl in Hu. destruct Hu as (Hs & Hm & Ht).
  destruct (Gitutil.ParseGitURL (CurrentURL _)) as [pf|]; [|simpl; auto].
  set (it1 := urlCheck true _ _ _) in *.
  unfold finish, nameCheck, pathCheck.
  destruct (negb (String.eqb (TrimRightByte _ _) _));
    destruct (negb (String.eqb (Name _) _)); simpl; auto.
Qed.

Lemma runLoop_dry (home : string) (l : list RepositoryEntry) st :
  sys (runLoop true home st l) = sys st
  /\ stateModified (runLoop true home st l) = stateModified st
  /\ actionsTaken (runLoop true home st l) = actionsTaken st.
Proof.
  revert st. induction l as [|e l IH]; intros st; [auto|].
  simpl. fold (runLoop true home (processEntry true home st e) l).
  destruct (IH (processEntry true home st e)) as (-> & -> & ->).
  apply processEntry_dry.
Qed.

(** A dry run of the command leaves the world as it found it, attempts
    no write, takes no action and does not save. *)
Lemma reorganize_dry (home stateFile : string) (s : Sys W) (rs : RepoState) :
  let o := reorganize true home stateFile s rs in
  out_sys o = s /\ out_saves o = 0 /\ out_taken o = 0 /\ out_err o = None.
Proof.
  unfold reorganize. destruct (Repositories rs) as [|e l] eqn:Hl; [simpl; auto|].
  destruct (runLoop_dry home (e :: l) (initLoop s)) as (Hs & Hm & Ht).
  rewrite andb_false_r. simpl in *. auto.
Qed.

(** The URL check changes nothing when neither URL converts to HTTPS. *)
Lemma urlCheck_noop (d : bool) it (live : string) (pl ps : Gitutil.ParsedGitURL) :
  Gitutil.ParseGitURL (CurrentURL (currentRepo it)) = Ok ps ->
  is_ok (Gitutil.ToHTTPS pl) = false ->
  is_ok (Gitutil.ToHTTPS ps) = false ->
  urlCheck d it live pl = it.
Proof.
  intros Hps Hl Hs. unfold urlCheck. rewrite Hps. simpl.
  destruct (Gitutil.ToHTTPS pl); [discriminate|].
  destruct (Gitutil.ToHTTPS ps); [discriminate|].
  reflexivity.
Qed.

(** C9. The URL check drops the errors of the conversion to HTTPS. When
    the stored and the live URL both parse and neither converts, both
    normalize to the empty string and the check leaves the iteration as
    it found it: nothing is logged or counted as proposed and the entry
    keeps its current URL, whether or not the two URLs are the same
    string. This is the case of any two inputs without
    a colon that parse: they are local paths, of scheme [file]. *)
Theorem urlCheck_ignores_unconvertible (d : bool) it (live : string)
    (pl : Gitutil.ParsedGitURL) :
  (forall ps : Gitutil.ParsedGitURL,
      Gitutil.ParseGitURL live = Ok pl ->
      Gitutil.ParseGitURL (CurrentURL (currentRepo it)) = Ok ps ->
      is_ok (Gitutil.ToHTTPS pl) = false ->
      is_ok (Gitutil.ToHTTPS ps) = false ->
      discard_err "" (Gitutil.ToHTTPS pl) = ""
      /\ discard_err "" (Gitutil.ToHTTPS ps) = ""
      /\ urlCheck d it live pl = it)
  /\ (Contains live ":" = false ->
      Contains (CurrentURL (currentRepo it)) ":" = false ->
      Gitutil.ParseGitURL live = Ok pl ->
      is_ok (Gitutil.ParseGitURL (CurrentURL (currentRepo it))) = true ->
      urlCheck d it live pl = it).
Proof.
  split.
  - intros ps _ Hps Hl Hs. split; [|split].
    + destruct (Gitutil.ToHTTPS pl); [discriminate | reflexivity].
    + destruct (Gitutil.ToHTTPS ps); [discriminate | reflexivity].
    + now apply (urlCheck_noop d it live pl ps).
  - intros Hcl Hcs Hpl Hok.
    destruct (Gitutil.ParseGitURL (CurrentURL (currentRepo it))) as [ps|] eqn:Hps;
      [|discriminate].
    apply (urlCheck_noop d it live pl ps Hps).
    + now apply (URLProps.local_path_unconvertible live pl).
    + now apply (URLProps.local_path_unconvertible _ ps Hcs).
Qed.

(** An iteration that does not get to the path check writes nothing and
    keeps the path of the entry. *)
Lemma processEntry_unreached (d : bool) (home : string) st e :
  canonicalTarget d home st e = None ->
  sys (processEntry d home st e) = sys st
  /\ exists e', updatedRepositories (processEntry d home st e)
                = updatedRepositories st ++ [e']
                /\ Path e' = Path e.
Proof.
  unfold canonicalTarget, processEntry.
  destruct (os_Stat _ _); try (intros _; split; [|eexists; split]; reflexivity).
  destruct (negb (IsGitRepository _ _)); [intros _; split; [|eexists; split]; reflexivity|].
  destruct (GetRemoteOriginURL _ _) as [live|];
    [|intros _; split; [|eexists; split]; reflexivity].
  destruct (Gitutil.ParseGitURL live) as [pl|];
    [|intros _; split; [|eexists; split]; reflexivity].
  destruct (urlCheck_frame d (mkIter st e []) live pl) as [[Hu _] [Hs Hp]].
  destruct (Gitutil.ParseGitURL (CurrentURL _)) as [pf|]; [discriminate|].
  intros _. unfold skip. simpl. split; [exact Hs|].
  eexists. split; [rewrite Hu; reflexivity | exact Hp].
Qed.

(** C5. In an applying pass, take an entry, the pass up to it, and the
    conventional path its path check compares with. When that path is
    there, the iteration on the entry attempts no write, so no rename,
    and leaves the world as it is; and the entry has the path it had, in
    the registry the pass leaves. *)
Theorem reorganize_conflict_safe (home stateFile : string) (s : Sys W)
    (rs : RepoState) (pre post : list RepositoryEntry) (e : RepositoryEntry)
    (c : string) :
  Repositories rs = pre ++ e :: post ->
  canonicalTarget false home (runLoop false home (initLoop s) pre) e = Some c ->
  os_Stat (world (sys (runLoop false home (initLoop s) pre))) c <> StatNotExist ->
  trace (sys (processEntry false home (runLoop false home (initLoop s) pre) e))
  = trace (sys (runLoop false home (initLoop s) pre))
  /\ world (sys (processEntry false home (runLoop false home (initLoop s) pre) e))
     = world (sys (runLoop false home (initLoop s) pre))
  /\ exists e' : RepositoryEntry,
       Repositories (out_state (reorganize false home stateFile s rs)) !! length pre
       = Some e'
       /\ Path e' = Path e.
Proof.
  intros Hrs Hc Hstat.
  cut (sys (processEntry false home (runLoop false home (initLoop s) pre) e)
       = sys (runLoop false home (initLoop s) pre)
       /\ exists e' : RepositoryEntry,
            Repositories (out_state (reorganize false home stateFile s rs)) !! length pre
            = Some e'
            /\ Path e' = Path e).
  { intros [-> Hex]. auto. }
  set (st := runLoop false home (initLoop s) pre) in *.
  (* the iteration on [e] *)
  assert (Hit : sys (processEntry false home st e) = sys st
                /\ exists e', updatedRepositories (processEntry false home st e)
                              = updatedRepositories st ++ [e']
                              /\ Path e' = Path e).
  { unfold canonicalTarget in Hc. unfold processEntry.
    destruct (os_Stat (world (sys st)) (Path e)); try discriminate.
    destruct (negb (IsGitRepository _ _)); [discriminate|].
    destruct (GetRemoteOriginURL _ _) as [live|]; [|discriminate].
    destruct (Gitutil.ParseGitURL live) as [pl|]; [|discriminate].
    destruct (urlCheck_frame false (mkIter st e []) live pl) as [[Hu _] [Hs Hp]].
    set (it1 := urlCheck false _ live pl) in *.
    destruct (Gitutil.ParseGitURL (CurrentURL (currentRepo it1))) as [pf|];
      [|discriminate].
    injection Hc as Hc. rewrite Hc.
    assert (Hq : quiet it1 (pathCheck false it1 c)).
    { apply pathCheck_conflict. rewrite Hs. exact Hstat. }
    destruct Hq as [Hs2 Hp2].
    destruct (pathCheck_frame false it1 c) as [Hu2 _].
    set (it2 := pathCheck false it1 c) in *.
    destruct (nameCheck_frame false it2 pf) as [[Hu3 _] [Hs3 Hp3]].
    unfold finish. simpl. split.
    - rewrite Hs3, Hs2, Hs. reflexivity.
    - eexists. split.
      + rewrite Hu3, Hu2, Hu. reflexivity.
      + rewrite Hp3, Hp2, Hp. reflexivity. }
  destruct Hit as (Hsys & e' & He' & Hpath).
  split; [exact Hsys|]. exists e'. split; [|exact Hpath].
  (* the registry at the end of the pass *)
  assert (Hout : Repositories (out_state (reorganize false home stateFile s rs))
                 = updatedRepositories (runLoop false home (initLoop s) (pre ++ e :: post))).
  { unfold reorganize. rewrite Hrs.
    destruct (pre ++ e :: post) as [|x l] eqn:Hl.
    - destruct pre; discriminate.
    - destruct (stateModified _ && negb false); [destruct (Save _ _ _)|]; reflexivity. }
  rewrite Hout, runLoop_app. simpl.
  fold (runLoop false home (processEntry false home st e) post). fold st.
  destruct (runLoop_appends false home post (processEntry false home st e))
    as (lpost & -> & _).
  destruct (runLoop_appends false home pre (initLoop s)) as (lpre & Hpre & Hlen).
  fold st in Hpre. simpl in Hpre.
  rewrite He', Hpre, <- Hlen, <- app_assoc. simpl.
  rewrite lookup_app_r by lia. now rewrite Nat.sub_diag.
Qed.

End Reconciler.

(** [reorganize_conflict_safe] at the registry of three entries: the
    third sits in [/tmp/pflag] and its conventional path is taken. *)
Lemma reorganize_conflict_safe_witness :
  trace (sys (processEntry false home
                (runLoop false home (initLoop (mkSys disk3 [])) [healthy; drifted])
                misplaced))
  = trace (sys (runLoop false home (initLoop (mkSys disk3 [])) [healthy; drifted]))
  /\ world (sys (processEntry false home
                   (runLoop false home (initLoop (mkSys disk3 [])) [healthy; drifted])
                   misplaced))
     = world (sys (runLoop false home (initLoop (mkSys disk3 [])) [healthy; drifted]))
  /\ exists e' : RepositoryEntry,
       Repositories (out_state (reorganize false home stateFile (mkSys disk3 []) registry3))
         !! length [healthy; drifted] = Some e'
       /\ Path e' = Path misplaced.
Proof.
  apply (reorganize_conflict_safe home stateFile (mkSys disk3 []) registry3
           [healthy; drifted] [] misplaced "/home/u/git/github.com/spf13/pflag").
  - reflexivity.
  - vm_compute. reflexivity.
  - vm_compute. discriminate.
Defined.

(** [urlCheck_ignores_unconvertible] at an entry whose remote is the local
    directory [/srv/git/a] while the live remote is [/srv/git/b]: by the
    failure of both conversions, and by the absence of a colon. *)
Lemma urlCheck_ignores_unconvertible_witness :
  let it := mkIter (initLoop (mkSys diskLocal [])) localEntry [] in
  let pl := Gitutil.mkParsedGitURL "/srv/git/b" "file" "" "" "local" "/srv/git/b" "b" false in
  let ps := Gitutil.mkParsedGitURL "/srv/git/a" "file" "" "" "local" "/srv/git/a" "a" false in
  (discard_err "" (Gitutil.ToHTTPS pl) = ""
   /\ discard_err "" (Gitutil.ToHTTPS ps) = ""
   /\ urlCheck false it "/srv/git/b" pl = it)
  /\ urlCheck true it "/srv/git/b" pl = it.
Proof.
  split.
  - apply (proj1 (urlCheck_ignores_unconvertible false
                    (mkIter (initLoop (mkSys diskLocal [])) localEntry []) "/srv/git/b"
                    (Gitutil.mkParsedGitURL "/srv/git/b" "file" "" "" "local"
                       "/srv/git/b" "b" false))
             (Gitutil.mkParsedGitURL "/srv/git/a" "file" "" "" "local"
                "/srv/git/a" "a" false));
      reflexivity.
  - apply (proj2 (urlCheck_ignores_unconvertible true
                    (mkIter (initLoop (mkSys diskLocal [])) localEntry []) "/srv/git/b"
                    (Gitutil.mkParsedGitURL "/srv/git/b" "file" "" "" "local"
                       "/srv/git/b" "b" false)));
      reflexivity.
Defined.

(** The whole command on that entry: the remote moved from one local
    directory to another, and no URL update is printed or applied. *)
Example reorganize_local_remote :
  let o := reorganize false home stateFile (mkSys diskLocal [])
             (mkRepoState [localEntry] stateFile) in
  GetRemoteOriginURL diskLocal (Path localEntry) = Some "/srv/git/b"
  /\ CurrentURL localEntry = "/srv/git/a"
  /\ count_msgs is_url_update (out_printed o) = 0
  /\ CurrentURL <$> Repositories (out_state o) = ["/srv/git/a"].
Proof. vm_compute. repeat split. Qed.

(** C6. In dry-run mode the command leaves the world as it found it, so
    it moves nothing and writes no state, and it never saves. On the
    registry of three entries (one healthy, one whose live remote differs
    from its current URL, one outside its conventional path while that
    path is taken) it prints one URL update and one move, counts two
    proposed actions, and attempts no rename and no write. *)
Theorem reorganize_dry_run :
  (forall (W : Type) (HW : World W) (home stateFile : string) (s : Sys W) (rs : RepoState),
      out_sys (reorganize true home stateFile s rs) = s
      /\ out_saves (reorganize true home stateFile s rs) = 0
      /\ out_taken (reorganize true home stateFile s rs) = 0
      /\ out_err (reorganize true home stateFile s rs) = None)
  /\ (let o := reorganize true Sim.home Sim.stateFile (mkSys Sim.disk3 []) Sim.registry3 in
      out_printed o
      = [ [];
          [RemoteURLChanged "https://github.com/spf13/viper" "https://github.com/spf13/viper2"];
          [PathMismatch "/tmp/pflag" "/home/u/git/github.com/spf13/pflag"] ]
      /\ count_msgs is_url_update (out_printed o) = 1
      /\ count_msgs is_move_proposal (out_printed o) = 1
      /\ out_proposed o = 2
      /\ out_taken o = 0
      /\ filter (fun e => is_rename e = true) (trace (out_sys o)) = []
      /\ filter (fun e => is_write e = true) (trace (out_sys o)) = []
      /\ out_saves o = 0
      /\ out_sys o = mkSys Sim.disk3 []
      /\ out_state o = Sim.registry3).
Proof.
  split.
  - intros W HW home stateFile s rs. apply reorganize_dry.
  - vm_compute. repeat split.
Qed.

End ReconcilerProps.

(** * More properties of the URL normalizer *)

Module URLMore.
Import GoStrings Gitutil URLProps Observed.

(** What [scheme_case] keeps and sets. *)
Lemma scheme_case_post (repoURL : string) (parsed pu : ParsedGitURL) :
  IsSSH parsed = false ->
  scheme_case repoURL parsed = Ok pu ->
  OriginalURL pu = OriginalURL parsed
  /\ (IsSSH pu = true <-> Scheme pu = "ssh")
  /\ (Scheme pu = "https" \/ Scheme pu = "http" -> IsSSH pu = false).
Proof.
  intros Hssh. unfold scheme_case.
  destruct (eqs (Scheme parsed) "ssh") eqn:E1.
  { apply eqs_true in E1. intros [= <-]. simpl. rewrite E1.
    split; [reflexivity|]. split; [tauto|]. intros [?|?]; discriminate. }
  apply eqs_false in E1.
  destruct (eqs (Scheme parsed) "http" || eqs (Scheme parsed) "https") eqn:E2.
  { intros [= <-]. simpl. split; [reflexivity|]. split; [|reflexivity].
    split; [discriminate | intros; contradiction]. }
  destruct (eqs (Scheme parsed) "git") eqn:E3.
  { intros [= <-]. simpl. split; [reflexivity|]. split; [|reflexivity].
    split; [discriminate | intros; contradiction]. }
  destruct (eqs (Scheme parsed) "" && Contains repoURL ":"); [discriminate|].
  destruct (eqs (Scheme parsed) "" && negb (Contains repoURL ":")).
  { intros [= <-]. simpl. split; [reflexivity|]. split; [|reflexivity].
    split; discriminate. }
  intros [= <-]. rewrite Hssh. split; [reflexivity|]. split; [|reflexivity].
  split; [discriminate | intros; contradiction].
Qed.

(** What every successful parse has. *)
Lemma ParseGitURL_post (repoURL : string) (pu : ParsedGitURL) :
  ParseGitURL repoURL = Ok pu ->
  OriginalURL pu = repoURL
  /\ Domain pu <> ""
  /\ (IsSSH pu = true <-> Scheme pu = "ssh")
  /\ (Scheme pu = "https" \/ Scheme pu = "http" -> IsSSH pu = false).
Proof.
  intros Hp.
  destruct (Regexp.scpLikeURLRegex_FindStringSubmatch repoURL)
    as [[[user host] rawPath]|] eqn:Hscp.
  - destruct (ParseGitURL_scp_Domain repoURL user host rawPath pu Hscp Hp)
      as (Hd & Hne & Hssh).
    unfold ParseGitURL in Hp. rewrite Hscp in Hp. injection Hp as <-. simpl.
    split; [reflexivity|]. split; [exact Hne|]. split; [tauto|].
    intros [?|?]; discriminate.
  - destruct (ParseGitURL_checked repoURL pu Hscp Hp) as [Hd _].
    unfold ParseGitURL in Hp. rewrite Hscp in Hp.
    destruct (NetURL.Parse repoURL) as [u|]; [|discriminate].
    destruct (scheme_case _ _) as [parsed|] eqn:Hcase; [|discriminate].
    apply scheme_case_post in Hcase as (Ho & Hiff & Hweb); [|reflexivity].
    destruct (eqs (Domain parsed) "" || eqs (RepoName parsed) ""); [discriminate|].
    injection Hp as <-. simpl in Ho. auto.
Qed.

(** X1. Every successful [ParseGitURL] keeps the input as the original
    URL, has a domain, and has its SSH flag set exactly when its scheme
    is [ssh]; when the input is not SCP-like it has a repository name. *)
Theorem ParseGitURL_postconditions (repoURL : string) (pu : ParsedGitURL) :
  ParseGitURL repoURL = Ok pu ->
  OriginalURL pu = repoURL
  /\ Domain pu <> ""
  /\ (IsSSH pu = true <-> Scheme pu = "ssh")
  /\ (Regexp.scpLikeURLRegex_FindStringSubmatch repoURL = None -> RepoName pu <> "").
Proof.
  intros Hp. destruct (ParseGitURL_post repoURL pu Hp) as (Ho & Hd & Hiff & _).
  repeat split; try tauto.
  intros Hscp. now apply (ParseGitURL_checked repoURL pu Hscp Hp).
Qed.

Lemma ParseGitURL_postconditions_witness :
  let pu := mkParsedGitURL "ssh://git@example.org:2222/team/tool.git" "ssh" "git"
              "example.org:2222" "example.org" "team/tool.git" "tool" true in
  OriginalURL pu = "ssh://git@example.org:2222/team/tool.git"
  /\ Domain pu <> ""
  /\ (IsSSH pu = true <-> Scheme pu = "ssh")
  /\ (Regexp.scpLikeURLRegex_FindStringSubmatch "ssh://git@example.org:2222/team/tool.git"
      = None -> RepoName pu <> "").
Proof.
  apply (ParseGitURL_postconditions "ssh://git@example.org:2222/team/tool.git").
  reflexivity.
Defined.

(** X2. Converting a parsed URL to the transport it already has gives the
    input back: [ToSSH] on an SSH URL, SCP-like or not, and [ToHTTPS] on
    an http or https URL return the string that was parsed. *)
Theorem same_transport_is_identity (repoURL : string) (pu : ParsedGitURL) :
  ParseGitURL repoURL = Ok pu ->
  (Scheme pu = "ssh" -> ToSSH pu = Ok repoURL)
  /\ (Scheme pu = "https" \/ Scheme pu = "http" -> ToHTTPS pu = Ok repoURL).
Proof.
  intros Hp. destruct (ParseGitURL_post repoURL pu Hp) as (Ho & _ & Hiff & Hweb).
  split.
  - intros Hs. apply Hiff in Hs. unfold ToSSH. now rewrite Hs, Ho.
  - intros Hs. unfold ToHTTPS. rewrite (Hweb Hs). simpl.
    assert (Hb : eqs (Scheme pu) "https" || eqs (Scheme pu) "http" = true).
    { apply orb_true_iff. destruct Hs as [Hs|Hs]; [left|right]; now apply eqs_true. }
    now rewrite Hb, Ho.
Qed.

Lemma same_transport_is_identity_witness :
  ToSSH (mkParsedGitURL "ssh://git@example.org:2222/team/tool.git" "ssh" "git"
           "example.org:2222" "example.org" "team/tool.git" "tool" true)
  = Ok "ssh://git@example.org:2222/team/tool.git"
  /\ ToHTTPS (mkParsedGitURL "http://example.org/team/tool.git" "http" ""
                "example.org" "example.org" "team/tool.git" "tool" false)
     = Ok "http://example.org/team/tool.git".
Proof.
  split.
  - apply (proj1 (same_transport_is_identity
                    "ssh://git@example.org:2222/team/tool.git" _ eq_refl)).
    reflexivity.
  - apply (proj2 (same_transport_is_identity "http://example.org/team/tool.git" _ eq_refl)).
    right. reflexivity.
Defined.

(** X3. An input without a colon that parses is taken for a local path:
    the scheme is [file], the domain is the placeholder [local], there is
    no user, the path is the input without one [.git] suffix, and neither
    conversion applies to it. *)
Theorem ParseGitURL_local_path (repoURL : string) (pu : ParsedGitURL) :
  Contains repoURL ":" = false ->
  ParseGitURL repoURL = Ok pu ->
  pu = mkParsedGitURL repoURL "file" "" (Host pu) "local" (TrimSuffix repoURL ".git")
         (TrimSuffix (Filepath.Base (TrimSuffix repoURL ".git")) ".git") false
  /\ RepoName pu <> ""
  /\ is_ok (ToSSH pu) = false
  /\ is_ok (ToHTTPS pu) = false.
Proof.
  intros Hc Hp.
  assert (Hs := Contains_colon _ Hc).
  unfold ParseGitURL in Hp. rewrite (scp_needs_colon _ Hs) in Hp.
  destruct (NetURL.Parse repoURL) as [u|] eqn:Hu; [|discriminate].
  apply Parse_no_colon in Hu; [|assumption].
  unfold scheme_case in Hp. simpl in Hp. rewrite Hu, Hc in Hp. simpl in Hp.
  destruct (eqs _ "") eqn:Hr; [discriminate|]. injection Hp as <-.
  simpl. repeat split. now apply eqs_false.
Qed.

Lemma ParseGitURL_local_path_witness :
  let pu := mkParsedGitURL "/srv/git/tool.git" "file" "" "" "local" "/srv/git/tool"
              "tool" false in
  pu = mkParsedGitURL "/srv/git/tool.git" "file" "" (Host pu) "local"
         (TrimSuffix "/srv/git/tool.git" ".git")
         (TrimSuffix (Filepath.Base (TrimSuffix "/srv/git/tool.git" ".git")) ".git") false
  /\ RepoName pu <> ""
  /\ is_ok (ToSSH pu) = false
  /\ is_ok (ToHTTPS pu) = false.
Proof.
  apply (ParseGitURL_local_path "/srv/git/tool.git"); reflexivity.
Defined.

(** X4. On a plain repository the two conversions are inverse to each
    other: from the HTTPS URL through its SSH form, and from the SCP-like
    URL through its HTTPS form, the strings come back as they were; so
    the round trip of the design document keeps the normalized identity
    of such a URL. *)
Theorem conversions_inverse_on_plain (host path : string) :
  plainHTTPS host path ->
  (p <- ParseGitURL (httpsURL host path) ;; ToSSH p) = Ok (scpURL host path)
  /\ (p <- ParseGitURL (scpURL host path) ;; ToHTTPS p) = Ok (httpsURL host path)
  /\ (p1 <- ParseGitURL (httpsURL host path) ;;
      p3 <- roundTrip (httpsURL host path) ;;
      Ok (String.eqb (GetNormalizedFSPath p3) (GetNormalizedFSPath p1)))
     = Ok true.
Proof.
  intros Hplain. unfold scpURL.
  destruct (roundTrip_plainHTTPS host path Hplain) as [Hrt _].
  rewrite Hrt.
  rewrite (ParseGitURL_plain host path Hplain),
          (ParseGitURL_plain_ssh host path Hplain).
  cbn [bind].
  rewrite (ToSSH_plain host path Hplain), (ToHTTPS_plain_ssh host path Hplain).
  repeat split. now rewrite String.eqb_refl.
Qed.

Lemma conversions_inverse_on_plain_witness :
  (p <- ParseGitURL (httpsURL "github.com" "spf13/cobra") ;; ToSSH p)
  = Ok (scpURL "github.com" "spf13/cobra")
  /\ (p <- ParseGitURL (scpURL "github.com" "spf13/cobra") ;; ToHTTPS p)
     = Ok (httpsURL "github.com" "spf13/cobra")
  /\ (p1 <- ParseGitURL (httpsURL "github.com" "spf13/cobra") ;;
      p3 <- roundTrip (httpsURL "github.com" "spf13/cobra") ;;
      Ok (String.eqb (GetNormalizedFSPath p3) (GetNormalizedFSPath p1)))
     = Ok true.
Proof.
  apply (conversions_inverse_on_plain "github.com" "spf13/cobra").
  split; try reflexivity; discriminate.
Defined.

(** *** The conventional path *)

Lemma Clean_nonempty (path : string) : Filepath.Clean path <> "".
Proof.
  unfold Filepath.Clean. destruct path as [|c s]; [discriminate|].
  cbv zeta. destruct (Ascii.eqb c Filepath.Separator); [discriminate|].
  destruct (GoStrings.Join _ _); discriminate.
Qed.

Lemma Clean_rooted (s : string) :
  HasPrefix (Filepath.Clean (String "/" s)) "/" = true.
Proof.
  unfold Filepath.Clean. cbv zeta.
  change (Ascii.eqb "/" Filepath.Separator) with true. cbv iota.
  unfold HasPrefix. cbn [String.prefix].
  destruct (ascii_dec "/" Filepath.Separator) as [_|Hne]; [apply prefix_empty|].
  now destruct Hne.
Qed.

Lemma HasPrefix_slash_inv (s : string) :
  HasPrefix s "/" = true -> exists s', s = String "/" s'.
Proof.
  unfold HasPrefix. destruct s as [|c s']; [discriminate|].
  cbn [String.prefix]. destruct (ascii_dec "/" c) as [<-|]; [|discriminate].
  intros _. now exists s'.
Qed.

(** A join with a non-empty element is a cleaned path, so not empty; a
    join that starts with a rooted element is rooted. *)
Lemma Join3_nonempty (a b c : string) : b <> "" -> Filepath.Join [a; b; c] <> "".
Proof.
  intros Hb. cbn [Filepath.Join].
  destruct (String.eqb a ""); [|apply Clean_nonempty].
  destruct (String.eqb b "") eqn:Eb; [|apply Clean_nonempty].
  apply String.eqb_eq in Eb. contradiction.
Qed.

Lemma Join2_nonempty (a b : string) : a <> "" -> Filepath.Join [a; b] <> "".
Proof.
  intros Ha. cbn [Filepath.Join].
  destruct (String.eqb a "") eqn:Ea; [|apply Clean_nonempty].
  apply String.eqb_eq in Ea. contradiction.
Qed.

Lemma Join3_rooted (a b c : string) :
  HasPrefix a "/" = true -> HasPrefix (Filepath.Join [a; b; c]) "/" = true.
Proof.
  intros [a' ->]%HasPrefix_slash_inv. cbn [Filepath.Join].
  change (String.eqb (String "/" a') "") with false. cbv iota.
  change (GoStrings.Join [String "/" a'; b; c] "/")
    with (String "/" (a' ++ "/" ++ GoStrings.Join [b; c] "/")).
  apply Clean_rooted.
Qed.

(** X5. The conventional path and the normalized identity of a parsed
    URL are never empty, and under an absolute home directory the
    conventional path is absolute. *)
Theorem GetLocalPath_wellformed (repoURL home : string) (pu : ParsedGitURL) :
  ParseGitURL repoURL = Ok pu ->
  GetLocalPath pu home <> ""
  /\ GetNormalizedFSPath pu <> ""
  /\ (HasPrefix home "/" = true -> HasPrefix (GetLocalPath pu home) "/" = true).
Proof.
  intros Hp. destruct (ParseGitURL_post repoURL pu Hp) as (_ & Hd & _).
  unfold GetLocalPath, GetNormalizedFSPath. split; [|split].
  - now apply Join3_nonempty.
  - now apply Join2_nonempty.
  - apply Join3_rooted.
Qed.

Lemma GetLocalPath_wellformed_witness :
  let pu := mkParsedGitURL "git@github.com:spf13/cobra.git" "ssh" "git"
              "github.com" "github.com" "spf13/cobra.git" "cobra" true in
  GetLocalPath pu "/home/u/git" <> ""
  /\ GetNormalizedFSPath pu <> ""
  /\ (HasPrefix "/home/u/git" "/" = true ->
      HasPrefix (GetLocalPath pu "/home/u/git") "/" = true).
Proof.
  apply (GetLocalPath_wellformed "git@github.com:spf13/cobra.git"). reflexivity.
Defined.

End URLMore.

(** * More properties of the registry store *)

Module StoreMore.
Import State StateMore StoreProps.
Local Open Scope list_scope.

Lemma find_by_Path_intro (path : string) (repos : list RepositoryEntry)
    (i : nat) (r : RepositoryEntry) :
  repos !! i = Some r -> Path r = path ->
  (forall j y, repos !! j = Some y -> j < i -> Path y <> path) ->
  find_by_Path path repos = Some (i, r).
Proof.
  intros Hi Hp Hmin. unfold find_by_Path. apply list_find_Some. auto.
Qed.

Lemma find_by_Path_first (path : string) (repos : list RepositoryEntry)
    (i : nat) (r : RepositoryEntry) :
  find_by_Path path repos = Some (i, r) ->
  forall j y, repos !! j = Some y -> j < i -> Path y <> path.
Proof.
  unfold find_by_Path. intros Hf. apply list_find_Some in Hf as (_ & _ & Hmin).
  exact Hmin.
Qed.

Lemma find_by_Path_is_None (path : string) (repos : list RepositoryEntry) :
  find_by_Path path repos = None <-> path ∉ Path <$> repos.
Proof.
  split; [apply find_by_Path_None|].
  intros Hnot. unfold find_by_Path. apply list_find_None, Forall_forall.
  intros r Hr Hp. apply Hnot. rewrite <- Hp. now apply list_elem_of_fmap_2.
Qed.

(** Writing at the first entry of a path an entry of that path keeps it
    the first entry of the path, and keeps the entries of other paths. *)
Lemma overwrite_first (repos : list RepositoryEntry) (i : nat)
    (r e : RepositoryEntry) :
  find_by_Path (Path e) repos = Some (i, r) ->
  find_by_Path (Path e) (<[i := e]> repos) = Some (i, e)
  /\ (Path <$> <[i := e]> repos) = (Path <$> repos)
  /\ forall j y, repos !! j = Some y -> Path y <> Path e ->
                 <[i := e]> repos !! j = Some y.
Proof.
  intros Hf. assert (Hmin := find_by_Path_first _ _ _ _ Hf).
  apply find_by_Path_Some in Hf as [Hi Hr].
  assert (Hlt : i < length repos) by (eapply lookup_lt_Some; exact Hi).
  split; [|split].
  - apply find_by_Path_intro; [now apply list_lookup_insert_eq | reflexivity |].
    intros j y Hj Hji. rewrite list_lookup_insert_ne in Hj by lia. eauto.
  - rewrite list_fmap_insert, <- Hr.
    apply list_insert_id. now rewrite list_lookup_fmap, Hi.
  - intros j y Hj Hne. rewrite list_lookup_insert_ne; [exact Hj|].
    intros <-. rewrite Hi in Hj. injection Hj as <-. contradiction.
Qed.

(** X6. Adding and looking up: [AddRepository] succeeds when the path
    and the original URL of the entry are not empty, whatever the store;
    the entry found by the path afterwards is the incoming one with its
    instants stamped; the entries of other paths stay where they are; and
    the collection grows by one entry exactly when the path was not
    tracked. *)
Theorem AddRepository_then_find (rs : RepoState) (entry : RepositoryEntry)
    (now : Time.Time) :
  now <> Time.zero -> Path entry <> "" -> OriginalURL entry <> "" ->
  exists rs' : RepoState,
    AddRepository rs entry now = Ok rs'
    /\ (exists i, find_by_Path (Path entry) (Repositories rs') = Some (i, stamped now entry))
    /\ (forall j r, Repositories rs !! j = Some r -> Path r <> Path entry ->
                    Repositories rs' !! j = Some r)
    /\ length (Repositories rs')
       = match find_by_Path (Path entry) (Repositories rs) with
         | Some _ => length (Repositories rs)
         | None => S (length (Repositories rs))
         end
    /\ filePath rs' = filePath rs.
Proof.
  intros Hnow Hp Hu. rewrite (AddRepository_cases rs entry now Hnow).
  rewrite (proj2 (String.eqb_neq _ _) Hp), (proj2 (String.eqb_neq _ _) Hu).
  destruct (find_by_Path _ (Repositories rs)) as [[i r]|] eqn:Hf.
  - eexists. split; [reflexivity|]. simpl.
    destruct (overwrite_first (Repositories rs) i r (stamped now entry) Hf)
      as (Hfind & _ & Hother).
    split; [exists i; exact Hfind|]. split; [exact Hother|].
    split; [apply length_insert | reflexivity].
  - eexists. split; [reflexivity|]. simpl. split; [|split; [|split]].
    + exists (length (Repositories rs)).
      apply find_by_Path_intro.
      * rewrite lookup_app_r by lia. now rewrite Nat.sub_diag.
      * reflexivity.
      * intros j y Hj Hlt. rewrite lookup_app_l in Hj by lia.
        apply find_by_Path_None in Hf. intros Hy. apply Hf.
        rewrite <- Hy. apply list_elem_of_fmap_2.
        apply list_elem_of_lookup. eauto.
    + intros j r Hj _. apply lookup_app_l_Some. exact Hj.
    + rewrite length_app. simpl. lia.
    + reflexivity.
Qed.

Lemma AddRepository_then_find_witness :
  exists rs' : RepoState,
    AddRepository store3 (sample "/git/b" "https://github.com/x/b2" Time.zero) 40%Z = Ok rs'
    /\ (exists i, find_by_Path "/git/b" (Repositories rs')
                  = Some (i, stamped 40%Z (sample "/git/b" "https://github.com/x/b2" Time.zero)))
    /\ (forall j r, Repositories store3 !! j = Some r -> Path r <> "/git/b" ->
                    Repositories rs' !! j = Some r)
    /\ length (Repositories rs') = 2
    /\ filePath rs' = "repos.json".
Proof.
  apply (AddRepository_then_find store3
           (sample "/git/b" "https://github.com/x/b2" Time.zero) 40%Z);
    discriminate.
Defined.

(** [AddRepository] refuses an entry exactly when its path or its
    original URL is empty. *)
Lemma AddRepository_refuses (rs : RepoState) (entry : RepositoryEntry) (now : Time.Time) :
  is_ok (AddRepository rs entry now) = false
  <-> Path entry = "" \/ OriginalURL entry = "".
Proof.
  unfold AddRepository.
  destruct (String.eqb (Path entry) "") eqn:Hp.
  { apply String.eqb_eq in Hp. simpl. tauto. }
  destruct (String.eqb (OriginalURL entry) "") eqn:Hu.
  { apply String.eqb_eq in Hu. simpl. tauto. }
  apply String.eqb_neq in Hp, Hu.
  destruct (find_by_Path _ _) as [[i r]|]; simpl;
    (split; [discriminate | intros [?|?]; contradiction]).
Qed.

(** What a successful [UpdateRepository] did. *)
Lemma UpdateRepository_shape (rs rs' : RepoState) (e : RepositoryEntry) (now : Time.Time) :
  UpdateRepository rs e now = Ok rs' ->
  Path e <> ""
  /\ exists i r, find_by_Path (Path e) (Repositories rs) = Some (i, r)
                 /\ rs' = set_Repositories (<[i := merged now r e]> (Repositories rs)) rs.
Proof.
  unfold UpdateRepository.
  destruct (String.eqb (Path e) "") eqn:Hp; [discriminate|].
  apply String.eqb_neq in Hp.
  destruct (find_by_Path (Path e) (Repositories rs)) as [[i r]|]; [|discriminate].
  intros [= <-]. split; [exact Hp|].
  exists i, r. split; [reflexivity|]. f_equal. f_equal.
  destruct e as [n p u c d f lc lm ca ma no]. unfold merged. cbn.
  destruct (Time.IsZero ca); cbn; destruct (String.eqb u ""); reflexivity.
Qed.

(** X7. [UpdateRepository] succeeds exactly on a tracked, non-empty
    path. It then writes over the first entry of that path the updated
    entry, with [ClonedAt] and [OriginalURL] carried forward from the old
    entry where the updated one leaves them unset and [LastModified]
    stamped; it changes no path and no entry of another path. *)
Theorem UpdateRepository_behaviour (rs : RepoState) (e : RepositoryEntry) (now : Time.Time) :
  (is_ok (UpdateRepository rs e now) = true
   <-> Path e <> "" /\ Path e ∈ Path <$> Repositories rs)
  /\ forall rs' : RepoState,
       UpdateRepository rs e now = Ok rs' ->
       (exists i r, find_by_Path (Path e) (Repositories rs) = Some (i, r)
                    /\ find_by_Path (Path e) (Repositories rs') = Some (i, merged now r e))
       /\ Path <$> Repositories rs' = Path <$> Repositories rs
       /\ (forall j y, Repositories rs !! j = Some y -> Path y <> Path e ->
                       Repositories rs' !! j = Some y).
Proof.
  split.
  - unfold UpdateRepository.
    destruct (String.eqb (Path e) "") eqn:Hp.
    { apply String.eqb_eq in Hp. simpl. split; [discriminate | tauto]. }
    apply String.eqb_neq in Hp.
    destruct (find_by_Path (Path e) (Repositories rs)) as [[i r]|] eqn:Hf; simpl.
    + split; [|reflexivity]. intros _. split; [exact Hp|].
      apply find_by_Path_Some in Hf as [Hi Hr]. rewrite <- Hr.
      apply list_elem_of_fmap_2, list_elem_of_lookup. eauto.
    + split; [discriminate|]. intros [_ Hin].
      now apply find_by_Path_None in Hf.
  - intros rs' Hup. apply UpdateRepository_shape in Hup as (_ & i & r & Hf & ->).
    simpl.
    destruct (overwrite_first (Repositories rs) i r (merged now r e) Hf)
      as (Hfind & Hpaths & Hother).
    split; [exists i, r; split; [exact Hf | exact Hfind]|].
    split; [exact Hpaths | exact Hother].
Qed.

Lemma UpdateRepository_behaviour_witness :
  let e := mkRepositoryEntry "b" "/git/b" "" "git@github.com:x/b.git" "github.com"
             "github.com/x/b" Time.zero Time.zero Time.zero false "moved to ssh" in
  exists i r, find_by_Path "/git/b" (Repositories store3) = Some (i, r)
    /\ find_by_Path "/git/b"
         (Repositories (set_Repositories (<[1 := merged 50%Z r e]> (Repositories store3)) store3))
       = Some (i, merged 50%Z r e)
    /\ ClonedAt (merged 50%Z r e) = 20%Z
    /\ OriginalURL (merged 50%Z r e) = "https://github.com/x/b".
Proof.
  destruct (proj2 (UpdateRepository_behaviour store3
                     (mkRepositoryEntry "b" "/git/b" "" "git@github.com:x/b.git" "github.com"
                        "github.com/x/b" Time.zero Time.zero Time.zero false "moved to ssh")
                     50%Z) _ eq_refl) as ((i & r & Hf & Hf') & _).
  exists i, r. split; [exact Hf|].
  assert (Hr : r = sample "/git/b" "https://github.com/x/b" 20%Z).
  { vm_compute in Hf. now injection Hf as _ <-. }
  subst r. split; [exact Hf'|]. split; reflexivity.
Defined.

(** X8. [RemoveRepositoryByPath] reports [false] exactly when the path
    is not tracked, and then leaves the store as it is. Otherwise it
    deletes the first entry of that path and nothing else; when the paths
    of the store are pairwise distinct the path is tracked no more. *)
Theorem RemoveRepositoryByPath_behaviour (rs : RepoState) (path : string) :
  (snd (RemoveRepositoryByPath rs path) = false <-> path ∉ Path <$> Repositories rs)
  /\ (snd (RemoveRepositoryByPath rs path) = false ->
      fst (RemoveRepositoryByPath rs path) = rs)
  /\ (snd (RemoveRepositoryByPath rs path) = true ->
      exists i r,
        find_by_Path path (Repositories rs) = Some (i, r)
        /\ fst (RemoveRepositoryByPath rs path)
           = set_Repositories (delete i (Repositories rs)) rs
        /\ length (Repositories (fst (RemoveRepositoryByPath rs path)))
           = pred (length (Repositories rs))
        /\ (NoDup (Path <$> Repositories rs) ->
            find_by_Path path (Repositories (fst (RemoveRepositoryByPath rs path))) = None)).
Proof.
  unfold RemoveRepositoryByPath.
  destruct (find_by_Path path (Repositories rs)) as [[i r]|] eqn:Hf; simpl.
  - split; [|split; [discriminate|]].
    + split; [discriminate|]. intros Hnot.
      apply find_by_Path_is_None in Hnot. congruence.
    + intros _. exists i, r. split; [reflexivity|]. split; [reflexivity|].
      apply find_by_Path_Some in Hf as [Hi Hr].
      assert (Hlt : i < length (Repositories rs)) by (eapply lookup_lt_Some; exact Hi).
      split; [rewrite length_delete by (rewrite Hi; eauto); lia|].
      intros Hnd. apply find_by_Path_is_None. rewrite list_fmap_delete.
      intros Hin. apply list_elem_of_lookup in Hin as [j Hj].
      assert (Hpi : (Path <$> Repositories rs) !! i = Some path)
        by now rewrite list_lookup_fmap, Hi, <- Hr.
      destruct (decide (j < i)) as [Hji|Hji].
      * rewrite list_lookup_delete_lt in Hj by exact Hji.
        pose proof (NoDup_lookup _ _ _ _ Hnd Hj Hpi). lia.
      * rewrite list_lookup_delete_ge in Hj by lia.
        pose proof (NoDup_lookup _ _ _ _ Hnd Hj Hpi). lia.
  - split; [|split; [reflexivity | discriminate]].
    split; [|reflexivity]. intros _. now apply find_by_Path_None.
Qed.

Lemma RemoveRepositoryByPath_behaviour_witness :
  exists i r,
    find_by_Path "/git/a" (Repositories store3) = Some (i, r)
    /\ fst (RemoveRepositoryByPath store3 "/git/a")
       = set_Repositories (delete i (Repositories store3)) store3
    /\ length (Repositories (fst (RemoveRepositoryByPath store3 "/git/a")))
       = pred (length (Repositories store3))
    /\ (NoDup (Path <$> Repositories store3) ->
        find_by_Path "/git/a" (Repositories (fst (RemoveRepositoryByPath store3 "/git/a")))
        = None).
Proof.
  apply (proj2 (proj2 (RemoveRepositoryByPath_behaviour store3 "/git/a"))).
  reflexivity.
Defined.

(** X9. Whatever sequence of successful [AddRepository] and
    [UpdateRepository] calls and of [RemoveRepositoryByPath] calls is
    made from a new store, no two entries share a path, and no entry has
    an empty path. *)
Theorem evolved_paths_unique (rs : RepoState) :
  evolved rs ->
  NoDup (Path <$> Repositories rs) /\ "" ∉ Path <$> Repositories rs.
Proof.
  induction 1 as [fp | rs rs' entry now _ [IHn IHe] Hadd
                     | rs rs' entry now _ [IHn IHe] Hup
                     | rs path _ [IHn IHe]].
  - simpl. split; [apply NoDup_nil_2 | apply not_elem_of_nil].
  - split; [eapply AddRepository_NoDup; eassumption|].
    assert (Hp : Path entry <> "").
    { intros Hp. pose proof (proj2 (AddRepository_refuses rs entry now) (or_introl Hp)) as Hr.
      rewrite Hadd in Hr. discriminate. }
    apply AddRepository_paths in Hadd as [-> | [-> _]]; [exact IHe|].
    rewrite elem_of_app, list_elem_of_singleton. intros [?|?]; [contradiction | congruence].
  - apply UpdateRepository_shape in Hup as (_ & i & r & Hf & ->). simpl.
    destruct (overwrite_first (Repositories rs) i r (merged now r entry) Hf)
      as (_ & -> & _).
    auto.
  - unfold RemoveRepositoryByPath.
    destruct (find_by_Path path (Repositories rs)) as [[i r]|]; simpl; [|auto].
    rewrite list_fmap_delete. split.
    + eapply sublist_NoDup; [exact IHn | apply sublist_delete].
    + intros Hin. apply IHe. eapply elem_of_sublist; [exact Hin | apply sublist_delete].
Qed.

Lemma store3_evolved :
  evolved (fst (RemoveRepositoryByPath store3 "/git/a")).
Proof.
  apply ev_remove.
  eapply (ev_add _ _ (sample "/git/a" "https://github.com/x/a2" 0%Z) 30%Z).
  - eapply (ev_add _ _ (sample "/git/b" "https://github.com/x/b" 0%Z) 20%Z).
    + eapply (ev_add _ _ (sample "/git/a" "https://github.com/x/a" 0%Z) 10%Z).
      * apply (ev_new "repos.json").
      * reflexivity.
    + reflexivity.
  - reflexivity.
Qed.

Lemma evolved_paths_unique_witness :
  NoDup (Path <$> Repositories (fst (RemoveRepositoryByPath store3 "/git/a")))
  /\ "" ∉ Path <$> Repositories (fst (RemoveRepositoryByPath store3 "/git/a")).
Proof. exact (evolved_paths_unique _ store3_evolved). Defined.

End StoreMore.
(** * The protocol of [Save] *)

Module SaveProps.
Import GoStrings State Cmd Observed.
Local Open Scope list_scope.

Section Save.
Context {W : Type} `{World W}.

(** The five ways through [saveLocked] after the file path is known,
    with the effects attempted on each. *)
Lemma Save_cases (s : Sys W) (rs : RepoState) (customFilePath : list string) :
  let file := filePathToUse rs customFilePath in
  let tmp := (file ++ ".tmp")%string in
  let dir := Filepath.Dir file in
  file = "" /\ Save s rs customFilePath = (s, Some ErrNoFilePath)
  \/ file <> ""
     /\ exists added : list Effect,
          trace (fst (Save s rs customFilePath)) = trace s ++ added
          /\ (added = [EMkdirAll dir]
              /\ snd (Save s rs customFilePath) = Some (ErrMkdir dir)
              \/ added = [EMkdirAll dir]
                 /\ json_MarshalIndent rs = None
                 /\ snd (Save s rs customFilePath) = Some ErrMarshal
              \/ exists data : string,
                   json_MarshalIndent rs = Some data
                   /\ (added = [EMkdirAll dir; EWriteFile tmp data]
                       /\ snd (Save s rs customFilePath) = Some (ErrWriteTemp tmp)
                       \/ added = [EMkdirAll dir; EWriteFile tmp data; ERename tmp file]
                          /\ snd (Save s rs customFilePath) = None
                       \/ added = [EMkdirAll dir; EWriteFile tmp data; ERename tmp file;
                                   ERemove tmp]
                          /\ snd (Save s rs customFilePath)
                             = Some (ErrRenameTemp tmp file))).
Proof.
  intros file tmp dir. unfold Save. fold (filePathToUse rs customFilePath).
  fold file. fold dir.
  destruct (String.eqb file "") eqn:Hf.
  { apply String.eqb_eq in Hf. left. auto. }
  apply String.eqb_neq in Hf. right. split; [exact Hf|].
  unfold do_MkdirAll. destruct (os_MkdirAll (world s) dir) as [w1 ok1].
  destruct ok1; simpl; [|eexists; split; [reflexivity | left; auto]].
  destruct (json_MarshalIndent rs) as [data|];
    [|eexists; split; [reflexivity | right; left; auto]].
  unfold do_WriteFile. simpl. fold tmp.
  destruct (os_WriteFile w1 tmp data) as [w2 ok2]. destruct ok2; simpl.
  2:{ eexists. split; [rewrite <- app_assoc; reflexivity|].
      right; right. exists data. split; [reflexivity|]. left. auto. }
  unfold do_Rename. simpl. destruct (os_Rename w2 tmp file) as [w3 ok3].
  destruct ok3; simpl.
  - eexists. split; [rewrite <- !app_assoc; reflexivity|].
    right; right. exists data. split; [reflexivity|]. right; left. auto.
  - eexists. split; [rewrite <- !app_assoc; reflexivity|].
    right; right. exists data. split; [reflexivity|]. right; right. auto.
Qed.

(** The effects of [Save] are those of saving to its file, with at most
    one write. *)
Lemma Save_effects (s : Sys W) (rs : RepoState) (customFilePath : list string) :
  exists added : list Effect,
    trace (fst (Save s rs customFilePath)) = trace s ++ added
    /\ Forall (is_save_effect (filePathToUse rs customFilePath)) added
    /\ length (filter (fun e => is_write e = true) added) <= 1.
Proof.
  destruct (Save_cases s rs customFilePath)
    as [[_ ->] | (_ & added & Htr & Hc)].
  { exists []. simpl. rewrite app_nil_r. split; [reflexivity|]. split; [constructor | lia]. }
  exists added. split; [exact Htr|].
  destruct Hc as [[-> _] | [(-> & _) | (data & _ & [[-> _] | [[-> _] | [-> _]]])]];
    (split; [repeat constructor | vm_compute; lia]).
Qed.

(** X10. [Save] never opens the state file for writing. Whatever the file
    system answers, the only file it writes is the temporary file beside
    the state file, with the encoding of the store; its only renaming is
    of that file onto the state file; its only removal is of that file,
    after a renaming that failed. A successful [Save] made the directory,
    wrote the temporary file and renamed it, in that order; and without
    a file path nothing is attempted. *)
Theorem Save_protocol (s : Sys W) (rs : RepoState) (customFilePath : list string) :
  let file := filePathToUse rs customFilePath in
  let tmp := (file ++ ".tmp")%string in
  exists added : list Effect,
    trace (fst (Save s rs customFilePath)) = trace s ++ added
    /\ Forall (is_save_effect file) added
    /\ (forall name data, EWriteFile name data ∈ added -> json_MarshalIndent rs = Some data)
    /\ (forall name, ERemove name ∈ added ->
          snd (Save s rs customFilePath) = Some (ErrRenameTemp tmp file))
    /\ (snd (Save s rs customFilePath) = None ->
          exists data, json_MarshalIndent rs = Some data
            /\ added = [EMkdirAll (Filepath.Dir file); EWriteFile tmp data; ERename tmp file])
    /\ (file = "" -> Save s rs customFilePath = (s, Some ErrNoFilePath)).
Proof.
  intros file tmp.
  destruct (Save_cases s rs customFilePath) as [[Hf HS] | (Hf & added & Htr & Hc)].
  { exists []. rewrite HS. simpl. rewrite app_nil_r.
    split_and!; try reflexivity; try constructor; try discriminate;
      intros; exfalso; eapply not_elem_of_nil; eassumption. }
  fold file in Hf. fold file tmp in Hc.
  exists added. split; [exact Htr|].
  destruct Hc as [[-> HS] | [(-> & Hm & HS) | (data & Hm & [[-> HS] | [[-> HS] | [-> HS]]])]];
    rewrite HS; (split; [repeat constructor|]);
    (split; [intros name d Hin; set_unfold; intuition congruence|]);
    (split; [intros name Hin; set_unfold; intuition congruence|]);
    (split; [|intros; contradiction]); try discriminate.
  intros _. exists data. auto.
Qed.

End Save.

End SaveProps.

(** * More properties of the reconciler *)

Module ReconcilerMore.
Import GoStrings State Cmd Commands Observed SaveProps.
Local Open Scope list_scope.

Lemma is_move_effect_mono (ps ps' : list string) (eff : Effect) :
  ps ⊆ ps' -> is_move_effect ps eff -> is_move_effect ps' eff.
Proof. intros Hsub. destruct eff; simpl; auto. Qed.

Lemma move_effects_no_write (ps : list string) (l : list Effect) :
  Forall (is_move_effect ps) l -> filter (fun e => is_write e = true) l = [].
Proof.
  induction 1 as [|eff l Heff _ IH]; [reflexivity|].
  rewrite filter_cons, IH. destruct eff; simpl in *; try contradiction; reflexivity.
Qed.

Lemma count_msgs_cons (p : LogMsg -> bool) (lg : list LogMsg) (logs : list (list LogMsg)) :
  count_msgs p (lg :: logs) = count_msgs p [lg] + count_msgs p logs.
Proof. unfold count_msgs. simpl. now rewrite app_nil_r, filter_app, length_app. Qed.

Lemma bookkeeping_refl (e : RepositoryEntry) : bookkeeping e e.
Proof. now split. Qed.

Lemma bookkeeping_trans (e1 e2 e3 : RepositoryEntry) :
  bookkeeping e1 e2 -> bookkeeping e2 e3 -> bookkeeping e1 e3.
Proof. intros [] []; split; congruence. Qed.

Lemma count_msgs_app (p : LogMsg -> bool) (l1 l2 : list (list LogMsg)) :
  count_msgs p (l1 ++ l2) = count_msgs p l1 + count_msgs p l2.
Proof. unfold count_msgs. now rewrite concat_app, filter_app, length_app. Qed.

Lemma count_msgs_log_app (p : LogMsg -> bool) (lg1 lg2 : list LogMsg) :
  count_msgs p [lg1 ++ lg2] = count_msgs p [lg1] + count_msgs p [lg2].
Proof.
  unfold count_msgs. simpl. now rewrite !app_nil_r, filter_app, length_app.
Qed.

Lemma proposals_app (lg1 lg2 : list LogMsg) :
  proposals (lg1 ++ lg2) = proposals lg1 + proposals lg2.
Proof. unfold proposals. rewrite !count_msgs_log_app. lia. Qed.

Section Reconciler.
Context {W : Type} `{World W}.

Implicit Types (st : LoopState W) (it : Iter W) (e repoEntry : RepositoryEntry).

(** What the URL check does to the log, the counters and the entry. *)
Lemma urlCheck_stage (d : bool) it (live : string) (pl : Gitutil.ParsedGitURL) :
  exists lg : list LogMsg,
    actionLog (urlCheck d it live pl) = actionLog it ++ lg
    /\ proposals lg <= 1
    /\ actionsProposed (loop (urlCheck d it live pl))
       = actionsProposed (loop it) + proposals lg
    /\ actionsTaken (loop it) <= actionsTaken (loop (urlCheck d it live pl))
    /\ actionsTaken (loop (urlCheck d it live pl)) <= actionsTaken (loop it) + proposals lg
    /\ bookkeeping (currentRepo it) (currentRepo (urlCheck d it live pl))
    /\ Name (currentRepo (urlCheck d it live pl)) = Name (currentRepo it)
    /\ (d = true -> currentRepo (urlCheck d it live pl) = currentRepo it).
Proof.
  unfold urlCheck.
  destruct (negb (is_ok _) || negb (String.eqb _ _)).
  2:{ exists []. rewrite app_nil_r. change (proposals []) with 0.
      repeat split; try lia. }
  destruct d; simpl.
  - exists [RemoteURLChanged (CurrentURL (currentRepo it)) live].
    change (proposals [RemoteURLChanged (CurrentURL (currentRepo it)) live]) with 1.
    repeat split; lia.
  - destruct (String.eqb _ _); simpl.
    + exists [RemoteURLChanged (CurrentURL (currentRepo it)) live;
              AlsoUpdatedOriginalURL live].
      rewrite <- app_assoc.
      change (proposals [RemoteURLChanged (CurrentURL (currentRepo it)) live;
                         AlsoUpdatedOriginalURL live]) with 1.
      repeat split; try lia; discriminate.
    + exists [RemoteURLChanged (CurrentURL (currentRepo it)) live].
      change (proposals [RemoteURLChanged (CurrentURL (currentRepo it)) live]) with 1.
      repeat split; try lia; discriminate.
Qed.

(** What the name update does: it prints no proposal, counts nothing and
    assigns the name only. *)
Lemma nameCheck_stage (d : bool) it (p : Gitutil.ParsedGitURL) :
  exists lg : list LogMsg,
    actionLog (nameCheck d it p) = actionLog it ++ lg
    /\ proposals lg = 0
    /\ actionsProposed (loop (nameCheck d it p)) = actionsProposed (loop it)
    /\ actionsTaken (loop (nameCheck d it p)) = actionsTaken (loop it)
    /\ currentRepo (nameCheck d it p)
       = set_Name (Name (currentRepo (nameCheck d it p))) (currentRepo it).
Proof.
  unfold nameCheck. destruct (negb (String.eqb _ _)).
  2:{ exists []. rewrite app_nil_r. repeat split. now destruct (currentRepo it). }
  eexists. destruct d; simpl; repeat split.
Qed.

(** What the path check does: it proposes at most one move; an applying
    run whose conventional path is free makes the parent directory and,
    when that worked, renames the directory of the entry, and the entry
    takes the conventional path exactly when the renaming worked. *)
Lemma pathCheck_stage (d : bool) it (c : string) :
  let w := world (sys (loop it)) in
  let m := os_MkdirAll w (Filepath.Dir c) in
  exists (lg : list LogMsg) (added : list Effect),
    actionLog (pathCheck d it c) = actionLog it ++ lg
    /\ trace (sys (loop (pathCheck d it c))) = trace (sys (loop it)) ++ added
    /\ proposals lg <= 1
    /\ actionsProposed (loop (pathCheck d it c)) = actionsProposed (loop it) + proposals lg
    /\ actionsTaken (loop it) <= actionsTaken (loop (pathCheck d it c))
    /\ actionsTaken (loop (pathCheck d it c)) <= actionsTaken (loop it) + proposals lg
    /\ currentRepo (pathCheck d it c)
       = set_Path (Path (currentRepo (pathCheck d it c))) (currentRepo it)
    /\ (d = true -> currentRepo (pathCheck d it c) = currentRepo it)
    /\ (added = [] /\ Path (currentRepo (pathCheck d it c)) = Path (currentRepo it)
        \/ d = false /\ os_Stat w c = StatNotExist
           /\ (snd m = false /\ added = [EMkdirAll (Filepath.Dir c)]
               /\ Path (currentRepo (pathCheck d it c)) = Path (currentRepo it)
               \/ snd m = true
                  /\ added = [EMkdirAll (Filepath.Dir c); ERename (Path (currentRepo it)) c]
                  /\ Path (currentRepo (pathCheck d it c))
                     = if snd (os_Rename (fst m) (Path (currentRepo it)) c)
                       then c else Path (currentRepo it))).
Proof.
  intros w m. unfold pathCheck.
  assert (Hid : currentRepo it = set_Path (Path (currentRepo it)) (currentRepo it))
    by now destruct (currentRepo it).
  destruct (negb (String.eqb _ _)).
  2:{ exists [], []. rewrite !app_nil_r. change (proposals []) with 0.
      repeat split; try lia; auto. }
  destruct d; simpl.
  { exists [PathMismatch (Path (currentRepo it)) c], []. rewrite app_nil_r.
    change (proposals [PathMismatch (Path (currentRepo it)) c]) with 1.
    repeat split; try lia; auto. }
  fold w.
  destruct (os_Stat w c) eqn:Hstat.
  1,3: exists [PathMismatch (Path (currentRepo it)) c; FailTargetExists c], [];
       rewrite app_nil_r, <- app_assoc;
       change (proposals [PathMismatch (Path (currentRepo it)) c; FailTargetExists c]) with 1;
       simpl; repeat split; try lia; try discriminate; auto.
  unfold do_MkdirAll. simpl. fold w. fold m. destruct m as [w1 ok1] eqn:Hm.
  destruct ok1; simpl.
  2:{ exists [PathMismatch (Path (currentRepo it)) c; FailMkdirParent (Filepath.Dir c)],
             [EMkdirAll (Filepath.Dir c)].
      rewrite <- app_assoc.
      change (proposals [PathMismatch (Path (currentRepo it)) c;
                         FailMkdirParent (Filepath.Dir c)]) with 1.
      simpl. repeat split; try lia; try discriminate; auto.
      right. repeat split. left. repeat split. }
  unfold do_Rename. simpl.
  destruct (os_Rename w1 (Path (currentRepo it)) c) as [w2 ok2] eqn:Hr.
  destruct ok2; simpl.
  - exists [PathMismatch (Path (currentRepo it)) c; Moving (Path (currentRepo it)) c;
            MoveSuccessful],
           [EMkdirAll (Filepath.Dir c); ERename (Path (currentRepo it)) c].
    rewrite <- !app_assoc.
    change (proposals [PathMismatch (Path (currentRepo it)) c;
                       Moving (Path (currentRepo it)) c; MoveSuccessful]) with 1.
    simpl. repeat split; try lia; try discriminate.
    right. repeat split. right. repeat split.
  - exists [PathMismatch (Path (currentRepo it)) c; Moving (Path (currentRepo it)) c;
            FailMove],
           [EMkdirAll (Filepath.Dir c); ERename (Path (currentRepo it)) c].
    rewrite <- !app_assoc.
    change (proposals [PathMismatch (Path (currentRepo it)) c;
                       Moving (Path (currentRepo it)) c; FailMove]) with 1.
    simpl. repeat split; try lia; try discriminate; auto.
    right. repeat split. right. repeat split.
Qed.

Lemma bookkeeping_set_Name (n : string) e : bookkeeping e (set_Name n e).
Proof. now split. Qed.

Lemma bookkeeping_set_Path (p : string) e : bookkeeping e (set_Path p e).
Proof. now split. Qed.

(** One iteration, in sum: the entry and the log it appends, the effects
    it attempts, and what it counts. *)
Lemma processEntry_summary (d : bool) (home : string) st e :
  let w := world (sys st) in
  exists (e' : RepositoryEntry) (lg : list LogMsg) (added : list Effect),
    updatedRepositories (processEntry d home st e) = updatedRepositories st ++ [e']
    /\ printed (processEntry d home st e) = printed st ++ [lg]
    /\ trace (sys (processEntry d home st e)) = trace (sys st) ++ added
    /\ proposals lg <= 2
    /\ actionsProposed (processEntry d home st e) = actionsProposed st + proposals lg
    /\ actionsTaken st <= actionsTaken (processEntry d home st e)
    /\ actionsTaken (processEntry d home st e) <= actionsTaken st + proposals lg
    /\ bookkeeping e e'
    /\ (d = true -> e' = set_Name (Name e') e)
    /\ (added = [] /\ Path e' = Path e
        \/ d = false
           /\ exists c : string,
               canonicalTarget d home st e = Some c
               /\ os_Stat w c = StatNotExist
               /\ (snd (os_MkdirAll w (Filepath.Dir c)) = false
                   /\ added = [EMkdirAll (Filepath.Dir c)]
                   /\ Path e' = Path e
                   \/ snd (os_MkdirAll w (Filepath.Dir c)) = true
                      /\ added = [EMkdirAll (Filepath.Dir c); ERename (Path e) c]
                      /\ Path e'
                         = if snd (os_Rename (fst (os_MkdirAll w (Filepath.Dir c))) (Path e) c)
                           then c else Path e)).
Proof.
  intros w. unfold processEntry, canonicalTarget. fold w.
  assert (Hskip : forall m : LogMsg, proposals [m] = 0 ->
            exists (e' : RepositoryEntry) (lg : list LogMsg) (added : list Effect),
              updatedRepositories (skip st e [m]) = updatedRepositories st ++ [e']
              /\ printed (skip st e [m]) = printed st ++ [lg]
              /\ trace (sys (skip st e [m])) = trace (sys st) ++ added
              /\ proposals lg <= 2
              /\ actionsProposed (skip st e [m]) = actionsProposed st + proposals lg
              /\ actionsTaken st <= actionsTaken (skip st e [m])
              /\ actionsTaken (skip st e [m]) <= actionsTaken st + proposals lg
              /\ bookkeeping e e'
              /\ (d = true -> e' = set_Name (Name e') e)
              /\ (added = [] /\ Path e' = Path e)).
  { intros m Hm. exists e, [m], []. rewrite Hm, app_nil_r. simpl.
    repeat split; try lia. now destruct e. }
  assert (Hskip' : forall m : LogMsg, proposals [m] = 0 ->
            exists (e' : RepositoryEntry) (lg : list LogMsg) (added : list Effect),
              updatedRepositories (skip st e [m]) = updatedRepositories st ++ [e']
              /\ printed (skip st e [m]) = printed st ++ [lg]
              /\ trace (sys (skip st e [m])) = trace (sys st) ++ added
              /\ proposals lg <= 2
              /\ actionsProposed (skip st e [m]) = actionsProposed st + proposals lg
              /\ actionsTaken st <= actionsTaken (skip st e [m])
              /\ actionsTaken (skip st e [m]) <= actionsTaken st + proposals lg
              /\ bookkeeping e e'
              /\ (d = true -> e' = set_Name (Name e') e)
              /\ (added = [] /\ Path e' = Path e
                  \/ d = false
                     /\ exists c : string,
                         None = Some c
                         /\ os_Stat w c = StatNotExist
                         /\ (snd (os_MkdirAll w (Filepath.Dir c)) = false
                             /\ added = [EMkdirAll (Filepath.Dir c)]
                             /\ Path e' = Path e
                             \/ snd (os_MkdirAll w (Filepath.Dir c)) = true
                                /\ added = [EMkdirAll (Filepath.Dir c); ERename (Path e) c]
                                /\ Path e'
                                   = if snd (os_Rename (fst (os_MkdirAll w (Filepath.Dir c)))
                                               (Path e) c)
                                     then c else Path e))).
  { intros m Hm. destruct (Hskip m Hm) as (e' & lg & added & H1 & H2 & H3 & H4 & H5 & H6 & H7 & H8 & H9 & H10).
    exists e', lg, added. repeat split; auto; try apply H8; try apply H10. }
  clear Hskip.
  destruct (os_Stat w (Path e)); try (apply Hskip'; reflexivity).
  destruct (negb (IsGitRepository w (Path e))); [apply Hskip'; reflexivity|].
  destruct (GetRemoteOriginURL w (Path e)) as [live|]; [|apply Hskip'; reflexivity].
  destruct (Gitutil.ParseGitURL live) as [pl|]; [|apply Hskip'; reflexivity].
  clear Hskip'.
  destruct (ReconcilerProps.urlCheck_frame d (mkIter st e []) live pl)
    as [[Hu1 Hp1] [Hs1 Hpath1]].
  destruct (urlCheck_stage d (mkIter st e []) live pl)
    as (lg1 & Hlog1 & Hb1 & Hprop1 & Hge1 & Hle1 & Hbk1 & Hname1 & Hdry1).
  set (it1 := urlCheck d (mkIter st e []) live pl) in *. simpl in *.
  destruct (Gitutil.ParseGitURL (CurrentURL (currentRepo it1))) as [pf|].
  2:{ exists (currentRepo it1), (lg1 ++ [WarnUnparsableCurrentURL (CurrentURL (currentRepo it1))]), [].
      unfold skip. simpl. rewrite Hu1, Hp1, Hs1, Hlog1, app_nil_r, proposals_app.
      change (proposals [WarnUnparsableCurrentURL (CurrentURL (currentRepo it1))]) with 0.
      split_and!; try lia; auto.
      intros Hd. rewrite (Hdry1 Hd). now destruct e. }
  set (c := Gitutil.GetLocalPath pf home).
  destruct (pathCheck_stage d it1 c)
    as (lg2 & added & Hlog2 & Htr2 & Hb2 & Hprop2 & Hge2 & Hle2 & Hcur2 & Hdry2 & Hguard).
  destruct (ReconcilerProps.pathCheck_frame d it1 c) as [Hu2 Hp2].
  set (it2 := pathCheck d it1 c) in *.
  destruct (nameCheck_stage d it2 pf) as (lg3 & Hlog3 & Hb3 & Hprop3 & Htk3 & Hcur3).
  destruct (ReconcilerProps.nameCheck_frame d it2 pf) as [[Hu3 Hp3] [Hs3 Hpath3]].
  set (it3 := nameCheck d it2 pf) in *.
  exists (currentRepo it3), (lg1 ++ lg2 ++ lg3), added.
  unfold finish. simpl.
  rewrite Hu3, Hu2, Hu1, Hp3, Hp2, Hp1, Hs3, Htr2, Hs1, Hlog3, Hlog2, Hlog1.
  rewrite !proposals_app, Hb3, Hprop3, Hprop2, Hprop1, Htk3, <- app_assoc.
  split_and!; try lia; try reflexivity.
  - rewrite Hcur3. eapply bookkeeping_trans; [|apply bookkeeping_set_Name].
    rewrite Hcur2. eapply bookkeeping_trans; [exact Hbk1 | apply bookkeeping_set_Path].
  - intros Hd. pose proof (Hdry2 Hd) as E2. rewrite (Hdry1 Hd) in E2.
    rewrite E2 in Hcur3. exact Hcur3.
  - rewrite Hpath3. rewrite Hs1, Hpath1 in Hguard.
    destruct Hguard as [Hq | (Hd & Hstat & Hcases)]; [left; exact Hq|].
    right. split; [exact Hd|]. exists c. split; [reflexivity|]. split; [exact Hstat|].
    exact Hcases.
Qed.

(** The loop, in sum. *)
Lemma runLoop_summary (d : bool) (home : string) (l : list RepositoryEntry) st :
  exists (l' : list RepositoryEntry) (logs : list (list LogMsg)) (added : list Effect),
    updatedRepositories (runLoop d home st l) = updatedRepositories st ++ l'
    /\ printed (runLoop d home st l) = printed st ++ logs
    /\ trace (sys (runLoop d home st l)) = trace (sys st) ++ added
    /\ length logs = length l
    /\ Forall2 bookkeeping l l'
    /\ (d = true -> Forall2 (fun e e' => e' = set_Name (Name e') e) l l')
    /\ count_msgs is_url_update logs + count_msgs is_move_proposal logs <= 2 * length l
    /\ actionsProposed (runLoop d home st l)
       = actionsProposed st
         + (count_msgs is_url_update logs + count_msgs is_move_proposal logs)
    /\ actionsTaken st <= actionsTaken (runLoop d home st l)
    /\ actionsTaken (runLoop d home st l)
       <= actionsTaken st
          + (count_msgs is_url_update logs + count_msgs is_move_proposal logs)
    /\ Forall (is_move_effect (Path <$> l)) added.
Proof.
  revert st. induction l as [|e l IH]; intros st.
  - exists [], [], []. simpl. rewrite !app_nil_r.
    change (count_msgs is_url_update []) with 0.
    change (count_msgs is_move_proposal []) with 0.
    split_and!; try reflexivity; try lia; try (intros _); constructor.
  - simpl. fold (runLoop d home (processEntry d home st e) l).
    destruct (processEntry_summary d home st e)
      as (e' & lg & a1 & Hu1 & Hp1 & Ht1 & Hb1 & Hpr1 & Hge1 & Hle1 & Hbk1 & Hdry1 & Hg1).
    destruct (IH (processEntry d home st e))
      as (l' & logs & a2 & Hu2 & Hp2 & Ht2 & Hlen & Hbk2 & Hdry2 & Hb2 & Hpr2 & Hge2
          & Hle2 & Hm2).
    exists (e' :: l'), (lg :: logs), (a1 ++ a2).
    rewrite Hu2, Hp2, Ht2, Hpr2, Hu1, Hp1, Ht1, Hpr1, <- !app_assoc.
    rewrite !(count_msgs_cons _ lg logs). unfold proposals in *. simpl.
    split_and!; try reflexivity; try lia.
    + constructor; assumption.
    + intros Hd. constructor; auto.
    + apply Forall_app. split.
      * assert (Ha1 : Forall (is_move_effect [Path e]) a1).
        { destruct Hg1 as [[-> _] | (_ & c & _ & _ & [(_ & -> & _) | (_ & -> & _)])];
            repeat constructor. }
        eapply Forall_impl; [exact Ha1|]. intros eff.
        apply is_move_effect_mono. intros x Hx.
        apply list_elem_of_singleton in Hx as ->. now left.
      * eapply Forall_impl; [exact Hm2|]. intros eff.
        apply is_move_effect_mono. intros x Hx. now right.
Qed.

(** What the command returns, by the loop it ran. *)
Lemma reorganize_by_loop (d : bool) (home stateFile : string) (s : Sys W) (rs : RepoState) :
  let st := runLoop d home (initLoop s) (Repositories rs) in
  let o := reorganize d home stateFile s rs in
  Repositories (out_state o) = updatedRepositories st
  /\ filePath (out_state o) = filePath rs
  /\ out_printed o = printed st
  /\ out_proposed o = actionsProposed st
  /\ out_taken o = actionsTaken st
  /\ (out_sys o = sys st
      \/ d = false /\ out_sys o = fst (Save (sys st) (out_state o) [stateFile])).
Proof.
  unfold reorganize. destruct (Repositories rs) as [|e l] eqn:Hl.
  { simpl. rewrite Hl. split_and!; auto. }
  destruct (stateModified _ && negb d) eqn:Hm.
  - destruct (Save _ _ _) as [s' err] eqn:HS.
    cbn [out_state out_sys out_printed out_proposed out_taken Repositories filePath
         set_Repositories].
    split_and!; try reflexivity. right.
    apply andb_true_iff in Hm as [_ Hd]. split; [now destruct d|].
    now rewrite HS.
  - simpl. split_and!; auto.
Qed.

(** X11. A pass of [reorganize], dry or not, keeps the entries of the
    registry in number and in order, and the file of the store. Of each
    entry it keeps the domain, the normalized path, the three instants,
    the mark of a manual addition and the notes, whatever became of its
    URLs and its path: a URL update or a move refreshes none of them, not
    even [LastModified]. A dry pass changes, in memory, at most names. *)
Theorem reorganize_keeps_entries (d : bool) (home stateFile : string) (s : Sys W)
    (rs : RepoState) :
  Forall2 bookkeeping (Repositories rs)
    (Repositories (out_state (reorganize d home stateFile s rs)))
  /\ filePath (out_state (reorganize d home stateFile s rs)) = filePath rs
  /\ Forall2 (fun e e' => e' = set_Name (Name e') e) (Repositories rs)
       (Repositories (out_state (reorganize true home stateFile s rs))).
Proof.
  destruct (reorganize_by_loop d home stateFile s rs) as (Hr & Hf & _).
  destruct (reorganize_by_loop true home stateFile s rs) as (Hr' & _).
  destruct (runLoop_summary d home (Repositories rs) (initLoop s))
    as (l' & logs & added & Hu & _ & _ & _ & Hbk & _).
  destruct (runLoop_summary true home (Repositories rs) (initLoop s))
    as (l2 & logs2 & added2 & Hu2 & _ & _ & _ & _ & Hdry & _).
  simpl in Hu, Hu2. rewrite Hr, Hr', Hu, Hu2.
  split; [exact Hbk|]. split; [exact Hf | now apply Hdry].
Qed.

(** X12. What a pass of [reorganize] attempts on the file system, and
    nothing else: it makes directories, it renames directories that the
    registry tracks, and it saves the state by the protocol of [Save].
    So it removes and writes nothing but the temporary state file, and it
    writes the state at most once. *)
Theorem reorganize_effects_confined (d : bool) (home stateFile : string) (s : Sys W)
    (rs : RepoState) :
  exists added : list Effect,
    trace (out_sys (reorganize d home stateFile s rs)) = trace s ++ added
    /\ Forall (fun eff => is_move_effect (Path <$> Repositories rs) eff
                          \/ is_save_effect (filePathToUse rs [stateFile]) eff) added
    /\ length (filter (fun eff => is_write eff = true) added) <= 1.
Proof.
  destruct (reorganize_by_loop d home stateFile s rs) as (_ & Hf & _ & _ & _ & Hsys).
  destruct (runLoop_summary d home (Repositories rs) (initLoop s))
    as (l' & logs & a1 & _ & _ & Ht & _ & _ & _ & _ & _ & _ & _ & Hm).
  simpl in Ht.
  destruct Hsys as [-> | [_ ->]].
  - exists a1. split; [exact Ht|]. split.
    + eapply Forall_impl; [exact Hm|]. intros eff; auto.
    + rewrite (move_effects_no_write _ _ Hm). simpl. lia.
  - destruct (Save_effects (sys (runLoop d home (initLoop s) (Repositories rs)))
                (out_state (reorganize d home stateFile s rs)) [stateFile])
      as (a2 & Ht2 & Hs2 & Hw2).
    assert (Hfile : filePathToUse (out_state (reorganize d home stateFile s rs)) [stateFile]
                    = filePathToUse rs [stateFile])
      by (unfold filePathToUse; now rewrite Hf).
    rewrite Hfile in Hs2.
    exists (a1 ++ a2). rewrite Ht2, Ht, <- app_assoc. split; [reflexivity|]. split.
    + apply Forall_app. split.
      * eapply Forall_impl; [exact Hm|]. intros eff; auto.
      * eapply Forall_impl; [exact Hs2|]. intros eff; auto.
    + rewrite filter_app, length_app, (move_effects_no_write _ _ Hm). simpl. exact Hw2.
Qed.

(** X13. An applying iteration records a move only when it happened. It
    attempts something only when the conventional path of the entry is
    free: it then makes the parent directory and, when that worked,
    renames the path of the entry to the conventional path, once; and
    the entry it leaves has the conventional path when the renaming
    worked, and the path it had otherwise. *)
Theorem processEntry_move_guarded (home : string) st e :
  exists e' : RepositoryEntry,
    updatedRepositories (processEntry false home st e) = updatedRepositories st ++ [e']
    /\ (trace (sys (processEntry false home st e)) = trace (sys st) /\ Path e' = Path e
        \/ exists c : string,
             canonicalTarget false home st e = Some c
             /\ os_Stat (world (sys st)) c = StatNotExist
             /\ (snd (os_MkdirAll (world (sys st)) (Filepath.Dir c)) = false
                 /\ trace (sys (processEntry false home st e))
                    = trace (sys st) ++ [EMkdirAll (Filepath.Dir c)]
                 /\ Path e' = Path e
                 \/ snd (os_MkdirAll (world (sys st)) (Filepath.Dir c)) = true
                    /\ trace (sys (processEntry false home st e))
                       = trace (sys st) ++ [EMkdirAll (Filepath.Dir c); ERename (Path e) c]
                    /\ Path e'
                       = if snd (os_Rename (fst (os_MkdirAll (world (sys st)) (Filepath.Dir c)))
                                   (Path e) c)
                         then c else Path e)).
Proof.
  destruct (processEntry_summary false home st e)
    as (e' & lg & added & Hu & _ & Ht & _ & _ & _ & _ & _ & _ & Hg).
  exists e'. split; [exact Hu|]. rewrite Ht.
  destruct Hg as [[-> Hp] | (_ & c & Hc & Hstat & Hcases)].
  - left. now rewrite app_nil_r.
  - right. exists c. split; [exact Hc|]. split; [exact Hstat|].
    destruct Hcases as [(Hm & -> & Hp) | (Hm & -> & Hp)]; [left | right]; auto.
Qed.

(** X14. The summary of a pass counts what it printed: the actions
    proposed are the URL updates and the moves among the messages, at
    most two for an entry; the actions taken are among the proposed; and
    every entry of the registry has its block of messages. *)
Theorem reorganize_counts (d : bool) (home stateFile : string) (s : Sys W) (rs : RepoState) :
  out_proposed (reorganize d home stateFile s rs)
  = count_msgs is_url_update (out_printed (reorganize d home stateFile s rs))
    + count_msgs is_move_proposal (out_printed (reorganize d home stateFile s rs))
  /\ out_taken (reorganize d home stateFile s rs)
     <= out_proposed (reorganize d home stateFile s rs)
  /\ out_proposed (reorganize d home stateFile s rs) <= 2 * length (Repositories rs)
  /\ length (out_printed (reorganize d home stateFile s rs)) = length (Repositories rs).
Proof.
  destruct (reorganize_by_loop d home stateFile s rs) as (_ & _ & -> & -> & -> & _).
  destruct (runLoop_summary d home (Repositories rs) (initLoop s))
    as (l' & logs & a1 & _ & Hp & _ & Hlen & _ & _ & Hb & Hpr & _ & Hle & _).
  simpl in Hp, Hpr, Hle. rewrite Hp, Hpr. split_and!; lia.
Qed.

(** X15. The URL check is blind to the transport of a plain
    repository: when the stored URL is the SCP-like form and the live one
    the HTTPS form of the same host and path, or the other way round,
    both normalize to the HTTPS form, and the check proposes nothing and
    leaves the entry as it is. *)
Theorem urlCheck_transport_blind (d : bool) it (host path : string) :
  Gitutil.plainHTTPS host path ->
  exists pl ps : Gitutil.ParsedGitURL,
    Gitutil.ParseGitURL (Gitutil.httpsURL host path) = Ok pl
    /\ Gitutil.ParseGitURL (scpURL host path) = Ok ps
    /\ Gitutil.ToHTTPS pl = Ok (Gitutil.httpsURL host path)
    /\ Gitutil.ToHTTPS ps = Ok (Gitutil.httpsURL host path)
    /\ (CurrentURL (currentRepo it) = scpURL host path ->
        urlCheck d it (Gitutil.httpsURL host path) pl = it)
    /\ (CurrentURL (currentRepo it) = Gitutil.httpsURL host path ->
        urlCheck d it (scpURL host path) ps = it).
Proof.
  intros Hplain.
  pose proof (URLProps.ParseGitURL_plain host path Hplain) as Hpl.
  pose proof (URLProps.ParseGitURL_plain_ssh host path Hplain) as Hps.
  pose proof (URLProps.ToHTTPS_plain_ssh host path Hplain) as Hts.
  fold (scpURL host path) in Hps, Hts.
  eexists. eexists. split; [exact Hpl|]. split; [exact Hps|].
  assert (Htl : Gitutil.ToHTTPS
                  (Gitutil.mkParsedGitURL (Gitutil.httpsURL host path) "https" "" host host
                     path (TrimSuffix (Filepath.Base path) ".git") false)
                = Ok (Gitutil.httpsURL host path)) by reflexivity.
  split; [exact Htl|]. split; [exact Hts|]. split.
  - intros Hcur. unfold urlCheck. rewrite Hcur, Hps, Htl, Hts.
    cbn [is_ok discard_err negb orb]. now rewrite String.eqb_refl.
  - intros Hcur. unfold urlCheck. rewrite Hcur, Hpl, Htl, Hts.
    cbn [is_ok discard_err negb orb]. now rewrite String.eqb_refl.
Qed.

End Reconciler.

(** [urlCheck_transport_blind] at an entry stored with the SCP-like URL
    of a repository whose live remote is the HTTPS one. *)
Lemma urlCheck_transport_blind_witness :
  let e := Sim.entry "cobra" "/home/u/git/github.com/spf13/cobra"
             "git@github.com:spf13/cobra.git" in
  let it := mkIter (initLoop (mkSys Sim.disk3 [])) e [] in
  exists pl : Gitutil.ParsedGitURL,
    Gitutil.ParseGitURL "https://github.com/spf13/cobra" = Ok pl
    /\ urlCheck false it "https://github.com/spf13/cobra" pl = it.
Proof.
  destruct (urlCheck_transport_blind false
              (mkIter (initLoop (mkSys Sim.disk3 []))
                 (Sim.entry "cobra" "/home/u/git/github.com/spf13/cobra"
                    "git@github.com:spf13/cobra.git") [])
              "github.com" "spf13/cobra")
    as (pl & ps & Hpl & _ & _ & _ & Hscp & _).
  { split; try reflexivity; discriminate. }
  exists pl. split; [exact Hpl | exact (Hscp eq_refl)].
Defined.

End ReconcilerMore.

(** * Properties of [doctor], and of [doctor] with [reorganize] *)

Module DoctorProps.
Import GoStrings State Cmd Commands Observed Sim SimMore.
Local Open Scope list_scope.

Section Doctor.
Context {W : Type} `{WorldExt W}.

Implicit Types (st : LoopState W) (it : Iter W) (e : RepositoryEntry).

(** The loop of [doctor], from any state of its counters. *)
Lemma doctor_loop (verbose : bool) (home : string) (w : W) (repos : list RepositoryEntry)
    (ds : DoctorState) :
  let ds' := fold_left (doctorStep verbose home w) repos ds in
  reported ds' = reported ds ++ (checkRepo verbose home w <$> repos)
  /\ reposOk ds' + issuesFound ds' = reposOk ds + issuesFound ds + length repos
  /\ issuesFound ds'
     = issuesFound ds
       + length (filter (fun r => r <> []) (checkRepo verbose home w <$> repos)).
Proof.
  revert ds. induction repos as [|e repos IH]; intros ds.
  - simpl. rewrite app_nil_r. split_and!; try reflexivity; lia.
  - cbn [fold_left length]. rewrite fmap_cons.
    destruct (IH (doctorStep verbose home w ds e)) as (Hr & Hc & Hi).
    assert (Hstep : reported (doctorStep verbose home w ds e)
                    = reported ds ++ [checkRepo verbose home w e]
                    /\ reposOk (doctorStep verbose home w ds e)
                       + issuesFound (doctorStep verbose home w ds e)
                       = S (reposOk ds + issuesFound ds)
                    /\ issuesFound (doctorStep verbose home w ds e)
                       = issuesFound ds
                         + length (filter (fun r => r <> []) [checkRepo verbose home w e])).
    { unfold doctorStep. destruct (checkRepo verbose home w e); simpl; split_and!;
        try reflexivity; lia. }
    destruct Hstep as (Hr1 & Hc1 & Hi1).
    rewrite Hr, Hr1, <- app_assoc. split; [reflexivity|]. split; [lia|].
    rewrite Hi, Hi1.
    rewrite !filter_cons, filter_nil.
    destruct (decide (checkRepo verbose home w e <> [])); simpl; lia.
Qed.

(** What [doctor] returns: no error exactly when no repository has an
    issue, and otherwise the number of repositories with issues. *)
Lemma doctor_verdict (verbose : bool) (home : string) (w : W) (rs : RepoState) :
  (snd (doctor verbose home w rs) = None
   <-> Forall (fun e => checkRepo verbose home w e = []) (Repositories rs))
  /\ (snd (doctor verbose home w rs) <> None
      -> snd (doctor verbose home w rs) = Some (issuesFound (fst (doctor verbose home w rs)))).
Proof.
  assert (Hfilter : forall l : list (list Issue),
            length (filter (fun r => r <> []) l) = 0 <-> Forall (fun r => r = []) l).
  { induction l as [|r l IH]; [split; [constructor | reflexivity]|].
    rewrite filter_cons. destruct r as [|i r]; simpl.
    - rewrite IH. split; [now constructor | now inversion 1].
    - split; [discriminate | inversion 1; discriminate]. }
  unfold doctor. destruct (Repositories rs) as [|e l] eqn:Hl.
  { simpl. split; [|intros; contradiction]. split; [constructor | reflexivity]. }
  rewrite <- Hl.
  destruct (doctor_loop verbose home w (Repositories rs) (mkDoctorState 0 0 []))
    as (_ & _ & Hi).
  simpl in *. set (ds := fold_left _ _ _) in *.
  destruct (Nat.ltb_spec 0 (issuesFound ds)) as [Hpos|Hz].
  - split; [|reflexivity]. split; [discriminate|].
    intros Hall. exfalso.
    assert (Hz : length (filter (fun r => r <> [])
                           (checkRepo verbose home w <$> Repositories rs)) = 0).
    { apply Hfilter. apply Forall_fmap. exact Hall. }
    lia.
  - split; [|intros; contradiction]. split; [|reflexivity]. intros _.
    assert (Hz' : length (filter (fun r => r <> [])
                            (checkRepo verbose home w <$> Repositories rs)) = 0) by lia.
    apply Hfilter in Hz'. now apply Forall_fmap in Hz'.
Qed.

(** X16. [doctor] reports one block per repository, the issues of its
    checks; every repository is counted once, as in order or as having
    issues; and the command returns an error, which carries the number
    of repositories with issues, exactly when some repository has one. *)
Theorem doctor_counts (verbose : bool) (home : string) (w : W) (rs : RepoState) :
  reported (fst (doctor verbose home w rs)) = (checkRepo verbose home w <$> Repositories rs)
  /\ reposOk (fst (doctor verbose home w rs)) + issuesFound (fst (doctor verbose home w rs))
     = length (Repositories rs)
  /\ issuesFound (fst (doctor verbose home w rs))
     = length (filter (fun r => r <> []) (checkRepo verbose home w <$> Repositories rs))
  /\ (snd (doctor verbose home w rs) = None
      <-> Forall (fun e => checkRepo verbose home w e = []) (Repositories rs))
  /\ (snd (doctor verbose home w rs) <> None
      -> snd (doctor verbose home w rs) = Some (issuesFound (fst (doctor verbose home w rs)))).
Proof.
  destruct (doctor_verdict verbose home w rs) as [Hiff Herr].
  split_and!; [| | | exact Hiff | exact Herr];
    unfold doctor; destruct (Repositories rs) as [|e l] eqn:Hl; try reflexivity;
    rewrite <- Hl;
    destruct (doctor_loop verbose home w (Repositories rs) (mkDoctorState 0 0 []))
      as (Hr & Hc & Hi); simpl in *; [exact Hr | lia | exact Hi].
Qed.

(** An iteration of [reorganize] on an entry in order attempts nothing,
    proposes and takes no action, and leaves the entry as it is but for
    its name. *)
Lemma in_order_iteration (verbose d : bool) (home : string) st e :
  in_order verbose home (world (sys st)) e ->
  sys (processEntry d home st e) = sys st
  /\ actionsProposed (processEntry d home st e) = actionsProposed st
  /\ actionsTaken (processEntry d home st e) = actionsTaken st
  /\ exists e' : RepositoryEntry,
       updatedRepositories (processEntry d home st e) = updatedRepositories st ++ [e']
       /\ e' = set_Name (Name e') e.
Proof.
  intros [Hc Hlive]. unfold checkRepo in Hc. unfold processEntry.
  set (w := world (sys st)) in *.
  destruct (os_Stat w (Path e)); try discriminate.
  destruct (negb (IsGitRepository w (Path e))); [discriminate|].
  rewrite Hlive in *.
  destruct (Gitutil.ParseGitURL (CurrentURL e)) as [p|err] eqn:Hp.
  2:{ exfalso. cbn [is_ok] in Hc. rewrite String.eqb_refl in Hc. discriminate. }
  cbn [is_ok] in Hc. rewrite String.eqb_refl in Hc. cbn [negb app] in Hc.
  destruct (negb (String.eqb (TrimRightByte (Filepath.Clean (Path e)) Filepath.Separator) _))
    eqn:Hn; [discriminate|].
  assert (Hurl : urlCheck d (mkIter st e []) (CurrentURL e) p = mkIter st e []).
  { unfold urlCheck. cbn [currentRepo]. rewrite Hp. cbn [is_ok negb orb].
    now rewrite String.eqb_refl. }
  rewrite Hurl. cbn [currentRepo]. rewrite Hp.
  assert (Hpath : pathCheck d (mkIter st e []) (Gitutil.GetLocalPath p home)
                  = mkIter st e []).
  { unfold pathCheck. cbn [currentRepo]. now rewrite Hn. }
  rewrite Hpath. unfold nameCheck, finish. cbn [currentRepo loop].
  destruct (negb (String.eqb (Name e) (Gitutil.RepoName p))); [destruct d|]; simpl;
    (split_and!; try reflexivity; eexists; split; [reflexivity|]; now destruct e).
Qed.


Lemma in_order_loop (verbose d : bool) (home : string) (l : list RepositoryEntry) st :
  Forall (in_order verbose home (world (sys st))) l ->
  sys (runLoop d home st l) = sys st
  /\ actionsProposed (runLoop d home st l) = actionsProposed st
  /\ actionsTaken (runLoop d home st l) = actionsTaken st
  /\ exists l' : list RepositoryEntry,
       updatedRepositories (runLoop d home st l) = updatedRepositories st ++ l'
       /\ Forall2 (fun e e' => e' = set_Name (Name e') e) l l'.
Proof.
  revert st. induction l as [|e l IH]; intros st Hall.
  - simpl. split_and!; try reflexivity. exists []. rewrite app_nil_r. split; constructor.
  - apply Forall_cons in Hall as [He Hl].
    destruct (in_order_iteration verbose d home st e He) as (Hs & Hp & Ht & e' & Hu & He').
    cbn [runLoop fold_left]. fold (runLoop d home (processEntry d home st e) l).
    rewrite <- Hs in Hl.
    destruct (IH (processEntry d home st e) Hl) as (Hs2 & Hp2 & Ht2 & l' & Hu2 & Hl').
    rewrite Hs2, Hp2, Ht2, Hs, Hp, Ht. split_and!; try reflexivity.
    exists (e' :: l'). rewrite Hu2, Hu, <- app_assoc. split; [reflexivity|].
    now constructor.
Qed.

(** X17. [doctor] and [reorganize] agree on a registry in order. When
    the checks of [doctor] find nothing on any entry and the current URL
    of every entry is the live one, [doctor] returns no error, and a pass
    of [reorganize], dry or not, proposes and takes no action, moves
    nothing (whatever it attempts is a step of saving the state), and
    leaves every entry as it is but for its name. *)
Theorem in_order_is_left_alone (verbose d : bool) (home stateFile : string) (s : Sys W)
    (rs : RepoState) :
  Forall (in_order verbose home (world s)) (Repositories rs) ->
  snd (doctor verbose home (world s) rs) = None
  /\ out_proposed (reorganize d home stateFile s rs) = 0
  /\ out_taken (reorganize d home stateFile s rs) = 0
  /\ Forall2 (fun e e' => e' = set_Name (Name e') e) (Repositories rs)
       (Repositories (out_state (reorganize d home stateFile s rs)))
  /\ exists added : list Effect,
       trace (out_sys (reorganize d home stateFile s rs)) = trace s ++ added
       /\ Forall (is_save_effect (filePathToUse rs [stateFile])) added.
Proof.
  intros Hall. split.
  { apply (proj1 (doctor_verdict verbose home (world s) rs)).
    eapply Forall_impl; [exact Hall|]. now intros e [Hc _]. }
  destruct (ReconcilerMore.reorganize_by_loop d home stateFile s rs)
    as (Hr & Hf & _ & -> & -> & Hsys).
  destruct (in_order_loop verbose d home (Repositories rs) (initLoop s) Hall)
    as (Hs & -> & -> & l' & Hu & Hl').
  simpl in Hu. rewrite Hr, Hu. split_and!; try reflexivity; [exact Hl'|].
  destruct Hsys as [-> | [_ ->]].
  - exists []. rewrite Hs, app_nil_r. split; [reflexivity | constructor].
  - destruct (SaveProps.Save_effects (sys (runLoop d home (initLoop s) (Repositories rs)))
                (out_state (reorganize d home stateFile s rs)) [stateFile])
      as (added & Ht & Hsave & _).
    assert (Hfile : filePathToUse (out_state (reorganize d home stateFile s rs)) [stateFile]
                    = filePathToUse rs [stateFile])
      by (unfold filePathToUse; now rewrite Hf).
    rewrite Hfile in Hsave. rewrite Hs in *. exists added. split; [exact Ht | exact Hsave].
Qed.

End Doctor.

(** [in_order_is_left_alone] at a registry of the healthy entry of the
    registry of three entries, on their disk. *)
Lemma in_order_is_left_alone_witness :
  let rs := mkRepoState [healthy] stateFile in
  snd (doctor true home disk3 rs) = None
  /\ out_proposed (reorganize false home stateFile (mkSys disk3 []) rs) = 0
  /\ out_taken (reorganize false home stateFile (mkSys disk3 []) rs) = 0
  /\ Forall2 (fun e e' => e' = set_Name (Name e') e) [healthy]
       (Repositories (out_state (reorganize false home stateFile (mkSys disk3 []) rs)))
  /\ exists added : list Effect,
       trace (out_sys (reorganize false home stateFile (mkSys disk3 []) rs)) = [] ++ added
       /\ Forall (is_save_effect (filePathToUse rs [stateFile])) added.
Proof.
  apply (in_order_is_left_alone true false home stateFile (mkSys disk3 [])
           (mkRepoState [healthy] stateFile)).
  repeat constructor; vm_compute; reflexivity.
Defined.

End DoctorProps.

(** * Properties of [clone] and [add] *)

Module CommandProps.
Import GoStrings State Cmd Commands Observed Sim SimMore SaveProps.
Local Open Scope list_scope.

(** [AddRepository] on a path that is not tracked appends the stamped
    entry. *)
Lemma AddRepository_fresh (rs : RepoState) (entry : RepositoryEntry) (now : Time.Time) :
  Path entry <> "" -> OriginalURL entry <> "" ->
  find_by_Path (Path entry) (Repositories rs) = None ->
  AddRepository rs entry now
  = Ok (set_Repositories (Repositories rs ++ [stamped now entry]) rs).
Proof.
  intros Hp Hu Hf. unfold AddRepository.
  rewrite (proj2 (String.eqb_neq _ _) Hp), (proj2 (String.eqb_neq _ _) Hu).
  destruct entry as [n p u c dm nf lc lm ca ma no]. unfold stamped. cbn in *.
  destruct (Time.IsZero ca); cbn; destruct (Time.IsZero lc); cbn; now rewrite Hf.
Qed.

Lemma find_by_Path_snoc (repos : list RepositoryEntry) (e : RepositoryEntry) :
  find_by_Path (Path e) repos = None ->
  find_by_Path (Path e) (repos ++ [e]) = Some (length repos, e).
Proof.
  intros Hf. apply StoreMore.find_by_Path_intro.
  - rewrite lookup_app_r by lia. now rewrite Nat.sub_diag.
  - reflexivity.
  - intros j y Hj Hlt. rewrite lookup_app_l in Hj by lia.
    apply StoreProps.find_by_Path_None in Hf. intros Hy. apply Hf.
    rewrite <- Hy. apply list_elem_of_fmap_2, list_elem_of_lookup. eauto.
Qed.

(** The conventional path of a parsed URL is not empty. *)
Lemma GetLocalPath_nonempty (repoURL home : string) (pu : Gitutil.ParsedGitURL) :
  Gitutil.ParseGitURL repoURL = Ok pu -> Gitutil.GetLocalPath pu home <> "".
Proof.
  intros Hp. destruct (URLMore.ParseGitURL_post repoURL pu Hp) as (_ & Hd & _).
  unfold Gitutil.GetLocalPath. now apply URLMore.Join3_nonempty.
Qed.

Section Commands.
Context {W : Type} `{WorldExt W}.

Lemma lift_MkdirAll (s : SysE W) (dir : string) :
  lift (fun s0 => do_MkdirAll s0 dir) s
  = (mkSysE (fst (os_MkdirAll (worldE s) dir)) (events s ++ [Wrote (EMkdirAll dir)]),
     snd (os_MkdirAll (worldE s) dir)).
Proof.
  unfold lift, do_MkdirAll. cbn. now destruct (os_MkdirAll (worldE s) dir).
Qed.

(** The ways through [clone], with the events of each. *)
Lemma clone_cases (home stateFile : string) (now : Time.Time) (s : SysE W)
    (rs : RepoState) (repoURL : string) :
  let r := clone home stateFile now s rs repoURL in
  (exists e, Gitutil.ParseGitURL repoURL = Err e /\ r = (s, rs, CloneInvalidURL e))
  \/ exists p : Gitutil.ParsedGitURL,
       Gitutil.ParseGitURL repoURL = Ok p
       /\ let targetPath := Gitutil.GetLocalPath p home in
          let mk := Wrote (EMkdirAll (Filepath.Dir targetPath)) in
          (exists i existing,
              find_by_Path targetPath (Repositories rs) = Some (i, existing)
              /\ (r = (s, rs, CloneAlreadyTracked)
                  /\ (OriginalURL existing = repoURL \/ CurrentURL existing = repoURL)
                  \/ r = (s, rs, CloneTrackedOtherURL targetPath (CurrentURL existing))))
          \/ find_by_Path targetPath (Repositories rs) = None
             /\ (os_Stat (worldE s) targetPath <> StatNotExist
                 /\ r = (s, rs, CloneExistsUntracked targetPath)
                 \/ os_Stat (worldE s) targetPath = StatNotExist
                    /\ (events (fst (fst r)) = events s ++ [mk]
                        /\ snd (fst r) = rs
                        /\ snd r = CloneMkdirFailed (Filepath.Dir targetPath)
                        \/ events (fst (fst r)) = events s ++ [mk; Cloned repoURL targetPath]
                           /\ snd (fst r) = rs /\ snd r = CloneFailed
                        \/ (exists e,
                              AddRepository rs (cloneEntry repoURL targetPath p) now = Err e
                              /\ events (fst (fst r))
                                 = events s ++ [mk; Cloned repoURL targetPath;
                                                RemovedAll targetPath]
                              /\ snd (fst r) = rs /\ snd r = CloneAddFailed e)
                        \/ exists (rs1 : RepoState) (s0 : Sys W),
                             AddRepository rs (cloneEntry repoURL targetPath p) now = Ok rs1
                             /\ trace s0 = []
                             /\ events (fst (fst r))
                                = events s ++ [mk; Cloned repoURL targetPath]
                                  ++ (Wrote <$> trace (fst (Save s0 rs1 [stateFile])))
                             /\ snd (fst r) = rs1
                             /\ snd r = match snd (Save s0 rs1 [stateFile]) with
                                      | Some e => CloneSaveFailed e
                                      | None => CloneDone
                                      end)).
Proof.
  intros r. subst r. unfold clone.
  destruct (Gitutil.ParseGitURL repoURL) as [p|e]; [right | left; eauto].
  exists p. split; [reflexivity|]. cbv zeta.
  set (targetPath := Gitutil.GetLocalPath p home).
  destruct (find_by_Path targetPath (Repositories rs)) as [[i existing]|] eqn:Hf.
  { left. exists i, existing. split; [reflexivity|].
    destruct (String.eqb (OriginalURL existing) repoURL) eqn:Ho;
      [left; split; [reflexivity|]; left; now apply String.eqb_eq|].
    destruct (String.eqb (CurrentURL existing) repoURL) eqn:Hc;
      [left; split; [reflexivity|]; right; now apply String.eqb_eq|].
    right. reflexivity. }
  right. split; [reflexivity|].
  destruct (os_Stat (worldE s) targetPath) eqn:Hstat;
    [left; split; [discriminate | reflexivity] | | left; split; [discriminate | reflexivity]].
  right. split; [reflexivity|].
  rewrite lift_MkdirAll.
  destruct (os_MkdirAll (worldE s) (Filepath.Dir targetPath)) as [w1 ok1].
  cbn [fst snd].
  destruct ok1; cbn [negb]; [|left; auto].
  unfold do_Clone. cbn [worldE events].
  destruct (CloneRepository w1 repoURL targetPath) as [w2 ok2].
  destruct ok2; cbn [negb]; [|right; left; rewrite <- app_assoc; auto].
  destruct (AddRepository rs (cloneEntry repoURL targetPath p) now) as [rs1|e].
  2:{ right; right; left. exists e. unfold do_RemoveAll. cbn [worldE events].
      destruct (os_RemoveAll w2 targetPath) as [w3 ok3]. cbn.
      rewrite <- !app_assoc. auto. }
  right; right; right. exists rs1, (mkSys w2 []). split; [reflexivity|].
  split; [reflexivity|]. unfold lift. cbn [worldE events].
  destruct (Save (mkSys w2 []) rs1 [stateFile]) as [s' err]. cbn.
  rewrite <- !app_assoc. destruct err; auto.
Qed.

(** A run of [clone] that got to add its entry: the URL is not empty
    and the stamped entry is appended. *)
Lemma clone_adds (home : string) (now : Time.Time) (rs rs1 : RepoState)
    (repoURL : string) (p : Gitutil.ParsedGitURL) :
  Gitutil.ParseGitURL repoURL = Ok p ->
  find_by_Path (Gitutil.GetLocalPath p home) (Repositories rs) = None ->
  AddRepository rs (cloneEntry repoURL (Gitutil.GetLocalPath p home) p) now = Ok rs1 ->
  repoURL <> ""
  /\ rs1 = set_Repositories
             (Repositories rs
              ++ [stamped now (cloneEntry repoURL (Gitutil.GetLocalPath p home) p)]) rs.
Proof.
  intros Hp Hf Hadd.
  assert (Hu : repoURL <> "").
  { intros ->.
    pose proof (proj2 (StoreMore.AddRepository_refuses rs
                         (cloneEntry "" (Gitutil.GetLocalPath p home) p) now)
                  (or_intror eq_refl)) as Hr.
    rewrite Hadd in Hr. discriminate. }
  split; [exact Hu|].
  rewrite AddRepository_fresh in Hadd;
    [now injection Hadd | now apply (GetLocalPath_nonempty repoURL) | exact Hu | exact Hf].
Qed.

(** X18. [clone] touches nothing unless the conventional path of the URL
    is neither tracked nor present on disk: otherwise it leaves the world
    and the store as they are. When it goes on, it first makes the parent
    directory; the only clone it runs is of the given URL into that
    path; it removes a directory only for the empty URL; and the store
    changes only in a run that ends well or fails at saving. *)
Theorem clone_guarded (home stateFile : string) (now : Time.Time) (s : SysE W)
    (rs : RepoState) (repoURL : string) :
  exists added : list Event,
    events (fst (fst (clone home stateFile now s rs repoURL))) = events s ++ added
    /\ (added = [] -> fst (clone home stateFile now s rs repoURL) = (s, rs))
    /\ (added <> [] ->
        exists p : Gitutil.ParsedGitURL,
          Gitutil.ParseGitURL repoURL = Ok p
          /\ find_by_Path (Gitutil.GetLocalPath p home) (Repositories rs) = None
          /\ os_Stat (worldE s) (Gitutil.GetLocalPath p home) = StatNotExist
          /\ head added
             = Some (Wrote (EMkdirAll (Filepath.Dir (Gitutil.GetLocalPath p home))))
          /\ (forall u t, Cloned u t ∈ added ->
                u = repoURL /\ t = Gitutil.GetLocalPath p home)
          /\ (forall q, RemovedAll q ∈ added ->
                q = Gitutil.GetLocalPath p home /\ repoURL = ""))
    /\ (snd (fst (clone home stateFile now s rs repoURL)) = rs
        \/ snd (clone home stateFile now s rs repoURL) = CloneDone
        \/ exists e, snd (clone home stateFile now s rs repoURL) = CloneSaveFailed e).
Proof.
  destruct (clone_cases home stateFile now s rs repoURL)
    as [(e & _ & Hr) | (p & Hp & [(i & ex & _ & [[Hr _] | Hr]) | (Hf & [[_ Hr] | (Hst & Hrun)])])].
  1-4: exists []; rewrite Hr; cbn; rewrite app_nil_r;
       (split_and!; [reflexivity | reflexivity | intros []; reflexivity | now left]).
  assert (Hgo : forall added : list Event,
            head added = Some (Wrote (EMkdirAll (Filepath.Dir (Gitutil.GetLocalPath p home)))) ->
            (forall u t, Cloned u t ∈ added ->
               u = repoURL /\ t = Gitutil.GetLocalPath p home) ->
            (forall q, RemovedAll q ∈ added ->
               q = Gitutil.GetLocalPath p home /\ repoURL = "") ->
            (snd (fst (clone home stateFile now s rs repoURL)) = rs
             \/ snd (clone home stateFile now s rs repoURL) = CloneDone
             \/ exists e, snd (clone home stateFile now s rs repoURL) = CloneSaveFailed e) ->
            (added = [] -> fst (clone home stateFile now s rs repoURL) = (s, rs))
            /\ (added <> [] ->
                exists p : Gitutil.ParsedGitURL,
                  Gitutil.ParseGitURL repoURL = Ok p
                  /\ find_by_Path (Gitutil.GetLocalPath p home) (Repositories rs) = None
                  /\ os_Stat (worldE s) (Gitutil.GetLocalPath p home) = StatNotExist
                  /\ head added
                     = Some (Wrote (EMkdirAll (Filepath.Dir (Gitutil.GetLocalPath p home))))
                  /\ (forall u t, Cloned u t ∈ added ->
                        u = repoURL /\ t = Gitutil.GetLocalPath p home)
                  /\ (forall q, RemovedAll q ∈ added ->
                        q = Gitutil.GetLocalPath p home /\ repoURL = ""))
            /\ (snd (fst (clone home stateFile now s rs repoURL)) = rs
                \/ snd (clone home stateFile now s rs repoURL) = CloneDone
                \/ exists e, snd (clone home stateFile now s rs repoURL) = CloneSaveFailed e)).
  { intros added Hhd Hcl Hrm Hend. split; [intros ->; discriminate|].
    split; [|exact Hend]. intros _. exists p. auto 10. }
  cbv zeta in Hrun.
  destruct Hrun as [(Hev & Hrs & _) | [(Hev & Hrs & _) | [(e & Hadd & Hev & Hrs & _)
                    | (rs1 & s0 & Hadd & Htr & Hev & Hrs & Hend)]]].
  - eexists. split; [exact Hev|]. apply Hgo; [reflexivity | | | now left].
    + intros u t Hin. apply list_elem_of_singleton in Hin. discriminate.
    + intros q Hin. apply list_elem_of_singleton in Hin. discriminate.
  - eexists. split; [exact Hev|]. apply Hgo; [reflexivity | | | now left].
    + intros u t Hin. set_unfold. destruct Hin as [?|[?|[]]]; [discriminate|]. split; congruence.
    + intros q Hin. set_unfold. destruct Hin as [?|[?|[]]]; discriminate.
  - assert (Hu : repoURL = "").
    { pose proof (proj1 (StoreMore.AddRepository_refuses rs
                           (cloneEntry repoURL (Gitutil.GetLocalPath p home) p) now)) as Hr.
      rewrite Hadd in Hr. destruct (Hr eq_refl) as [Hpath | Hurl]; [|exact Hurl].
      exfalso. now apply (GetLocalPath_nonempty repoURL home p Hp). }
    eexists. split; [exact Hev|]. apply Hgo; [reflexivity | | | now left].
    + intros u t Hin. set_unfold.
      destruct Hin as [?|[?|[?|[]]]]; try discriminate. split; congruence.
    + intros q Hin. set_unfold.
      destruct Hin as [?|[?|[?|[]]]]; try discriminate. split; congruence.
  - eexists. split; [exact Hev|]. apply Hgo; [reflexivity | | |].
    + intros u t Hin. set_unfold.
      destruct Hin as [?|[?|(x & ? & _)]]; try discriminate. split; congruence.
    + intros q Hin. set_unfold.
      destruct Hin as [?|[?|(x & ? & _)]]; discriminate.
    + rewrite Hend. destruct (snd (Save s0 rs1 [stateFile])); eauto.
Qed.

(** What a run of [clone] that ends well went through. *)
Lemma clone_done_inv (home stateFile : string) (now : Time.Time) (s : SysE W)
    (rs : RepoState) (repoURL : string) :
  snd (clone home stateFile now s rs repoURL) = CloneDone ->
  exists (p : Gitutil.ParsedGitURL) (s0 : Sys W),
    Gitutil.ParseGitURL repoURL = Ok p
    /\ repoURL <> ""
    /\ find_by_Path (Gitutil.GetLocalPath p home) (Repositories rs) = None
    /\ os_Stat (worldE s) (Gitutil.GetLocalPath p home) = StatNotExist
    /\ snd (fst (clone home stateFile now s rs repoURL))
       = set_Repositories
           (Repositories rs
            ++ [stamped now (cloneEntry repoURL (Gitutil.GetLocalPath p home) p)]) rs
    /\ trace s0 = []
    /\ snd (Save s0 (snd (fst (clone home stateFile now s rs repoURL))) [stateFile]) = None
    /\ events (fst (fst (clone home stateFile now s rs repoURL)))
       = events s
         ++ [Wrote (EMkdirAll (Filepath.Dir (Gitutil.GetLocalPath p home)));
             Cloned repoURL (Gitutil.GetLocalPath p home)]
         ++ (Wrote <$> trace (fst (Save s0 (snd (fst (clone home stateFile now s rs repoURL)))
                                     [stateFile]))).
Proof.
  intros Hdone.
  destruct (clone_cases home stateFile now s rs repoURL)
    as [(e & _ & Hr) | (p & Hp & [(i & ex & _ & [[Hr _] | Hr]) | (Hf & [[_ Hr] | (Hst & Hrun)])])];
    try (rewrite Hr in Hdone; discriminate).
  cbv zeta in Hrun.
  destruct Hrun as [(_ & _ & He) | [(_ & _ & He) | [(e & _ & _ & _ & He)
                    | (rs1 & s0 & Hadd & Htr & Hev & Hrs & Hend)]]];
    try (rewrite He in Hdone; discriminate).
  destruct (clone_adds home now rs rs1 repoURL p Hp Hf Hadd) as [Hu Hrs1].
  exists p, s0. rewrite Hrs, Hev. rewrite Hend in Hdone.
  destruct (snd (Save s0 rs1 [stateFile])) eqn:HS; [discriminate|].
  split_and!; auto.
Qed.

(** X19. A run of [clone] that ends well has cloned the URL, which is
    not empty, into its conventional path, which was neither tracked nor
    present; the store has one more entry, the last one and the one found
    by that path: it has the URL as original and as current URL, the
    instants of the addition, and no mark of a manual addition. The
    events of the run are the parent directory made, the clone, and the
    three steps of saving the state, in that order. *)
Theorem clone_done (home stateFile : string) (now : Time.Time) (s : SysE W)
    (rs : RepoState) (repoURL : string) :
  snd (clone home stateFile now s rs repoURL) = CloneDone ->
  exists (p : Gitutil.ParsedGitURL) (data : string),
    let targetPath := Gitutil.GetLocalPath p home in
    let entry := mkRepositoryEntry (Gitutil.RepoName p) targetPath repoURL repoURL
                   (Gitutil.Domain p) (Gitutil.GetNormalizedFSPath p) now now now false "" in
    let rs' := snd (fst (clone home stateFile now s rs repoURL)) in
    let file := filePathToUse rs [stateFile] in
    Gitutil.ParseGitURL repoURL = Ok p
    /\ repoURL <> ""
    /\ find_by_Path targetPath (Repositories rs) = None
    /\ os_Stat (worldE s) targetPath = StatNotExist
    /\ Repositories rs' = Repositories rs ++ [entry]
    /\ find_by_Path targetPath (Repositories rs') = Some (length (Repositories rs), entry)
    /\ json_MarshalIndent rs' = Some data
    /\ events (fst (fst (clone home stateFile now s rs repoURL)))
       = events s
         ++ [Wrote (EMkdirAll (Filepath.Dir targetPath)); Cloned repoURL targetPath;
             Wrote (EMkdirAll (Filepath.Dir file));
             Wrote (EWriteFile (file ++ ".tmp") data);
             Wrote (ERename (file ++ ".tmp") file)].
Proof.
  intros Hdone.
  destruct (clone_done_inv home stateFile now s rs repoURL Hdone)
    as (p & s0 & Hp & Hu & Hf & Hst & Hrs & Htr & HS & Hev).
  set (rs' := snd (fst (clone home stateFile now s rs repoURL))) in *.
  destruct (Save_cases s0 rs' [stateFile]) as [[_ HS'] | (_ & added & Htr' & Hc)].
  { rewrite HS' in HS. discriminate. }
  rewrite Htr in Htr'.
  assert (Hfile : filePathToUse rs' [stateFile] = filePathToUse rs [stateFile])
    by (unfold filePathToUse; now rewrite Hrs).
  rewrite Hfile in Hc.
  destruct Hc as [[_ HS'] | [(_ & _ & HS') | (data & Hm & [[_ HS'] | [[-> _] | [_ HS']]])]];
    try (rewrite HS' in HS; discriminate).
  exists p, data. cbv zeta. rewrite Hev, Htr'. fold rs'. rewrite Hrs.
  cbn [Repositories set_Repositories].
  split_and!; auto; [|rewrite <- Hrs; exact Hm].
  apply (find_by_Path_snoc (Repositories rs)
           (stamped now (cloneEntry repoURL (Gitutil.GetLocalPath p home) p))).
  exact Hf.
Qed.

(** X20. Once [clone] has ended well, the URL is tracked: a second run
    on the same URL, from the store the first one left and in whatever
    world, ends as already tracked, attempts nothing and leaves the
    store as it is. *)
Theorem clone_twice (home stateFile : string) (now now' : Time.Time) (s s' : SysE W)
    (rs : RepoState) (repoURL : string) :
  snd (clone home stateFile now s rs repoURL) = CloneDone ->
  clone home stateFile now' s' (snd (fst (clone home stateFile now s rs repoURL))) repoURL
  = (s', snd (fst (clone home stateFile now s rs repoURL)), CloneAlreadyTracked).
Proof.
  intros Hdone.
  destruct (clone_done_inv home stateFile now s rs repoURL Hdone)
    as (p & s0 & Hp & Hu & Hf & Hst & Hrs & _).
  pose proof (find_by_Path_snoc (Repositories rs)
                (stamped now (cloneEntry repoURL (Gitutil.GetLocalPath p home) p)) Hf)
    as Hfind.
  cbn [Path stamped cloneEntry] in Hfind.
  rewrite Hrs. unfold clone at 1. rewrite Hp. cbv zeta.
  cbn [Repositories set_Repositories]. rewrite Hfind.
  cbn [OriginalURL]. now rewrite String.eqb_refl.
Qed.

(** X21. [clone] removes the directory it cloned into only when adding
    the entry fails, and that happens for one URL only, the empty
    string, which parses: the run then made the parent directory,
    cloned, and removed the clone, and the store is as it was. *)
Theorem clone_cleanup (home stateFile : string) (now : Time.Time) (s : SysE W)
    (rs : RepoState) (repoURL : string) (e : State.error) :
  snd (clone home stateFile now s rs repoURL) = CloneAddFailed e ->
  repoURL = ""
  /\ snd (fst (clone home stateFile now s rs repoURL)) = rs
  /\ exists p : Gitutil.ParsedGitURL,
       Gitutil.ParseGitURL "" = Ok p
       /\ e = ErrAddOriginalURLEmpty (Gitutil.RepoName p)
       /\ events (fst (fst (clone home stateFile now s rs repoURL)))
          = events s
            ++ [Wrote (EMkdirAll (Filepath.Dir (Gitutil.GetLocalPath p home)));
                Cloned "" (Gitutil.GetLocalPath p home);
                RemovedAll (Gitutil.GetLocalPath p home)].
Proof.
  intros Hend.
  destruct (clone_cases home stateFile now s rs repoURL)
    as [(e0 & _ & Hr) | (p & Hp & [(i & ex & _ & [[Hr _] | Hr]) | (Hf & [[_ Hr] | (Hst & Hrun)])])];
    try (rewrite Hr in Hend; discriminate).
  cbv zeta in Hrun.
  destruct Hrun as [(_ & _ & He) | [(_ & _ & He) | [(e1 & Hadd & Hev & Hrs & He)
                    | (rs1 & s0 & _ & _ & _ & _ & He)]]];
    try (rewrite He in Hend; discriminate).
  2:{ rewrite He in Hend. destruct (snd (Save s0 rs1 [stateFile])); discriminate. }
  rewrite He in Hend. injection Hend as ->.
  assert (Hpath : Gitutil.GetLocalPath p home <> "")
    by now apply (GetLocalPath_nonempty repoURL).
  unfold AddRepository in Hadd. cbn [Path OriginalURL cloneEntry Name] in Hadd.
  rewrite (proj2 (String.eqb_neq _ _) Hpath) in Hadd.
  destruct (String.eqb repoURL "") eqn:Hu.
  2:{ destruct (find_by_Path _ _) as [[? ?]|]; discriminate. }
  apply String.eqb_eq in Hu. subst repoURL. injection Hadd as <-.
  split; [reflexivity|]. split; [exact Hrs|]. exists p. auto.
Qed.

(** What a run of [add] that ends well went through. *)
Lemma add_done_inv (home stateFile : string) (now : Time.Time) (s : Sys W)
    (rs : RepoState) (repoPathArg : string) :
  snd (fst (add home stateFile now s rs repoPathArg)) = AddDone ->
  exists (absRepoPath originURL : string) (p : Gitutil.ParsedGitURL),
    Abs (world s) repoPathArg = Some absRepoPath
    /\ IsGitRepository (world s) absRepoPath = true
    /\ find_by_Path absRepoPath (Repositories rs) = None
    /\ GetRemoteOriginURL (world s) absRepoPath = Some originURL
    /\ originURL <> ""
    /\ Gitutil.ParseGitURL originURL = Ok p
    /\ snd (fst (fst (add home stateFile now s rs repoPathArg)))
       = set_Repositories
           (Repositories rs ++ [stamped now (addEntry originURL absRepoPath p)]) rs
    /\ fst (fst (fst (add home stateFile now s rs repoPathArg)))
       = fst (Save s (snd (fst (fst (add home stateFile now s rs repoPathArg)))) [stateFile])
    /\ snd (Save s (snd (fst (fst (add home stateFile now s rs repoPathArg)))) [stateFile])
       = None.
Proof.
  unfold add.
  destruct (Abs (world s) repoPathArg) as [absRepoPath|]; [|discriminate].
  destruct (IsGitRepository (world s) absRepoPath) eqn:Hgit; [|discriminate]. cbn [negb].
  destruct (find_by_Path absRepoPath (Repositories rs)) as [[i ex]|] eqn:Hf; [discriminate|].
  destruct (GetRemoteOriginURL (world s) absRepoPath) as [originURL|] eqn:Ho; [|discriminate].
  destruct (String.eqb originURL "") eqn:Hu; [discriminate|].
  apply String.eqb_neq in Hu.
  destruct (Gitutil.ParseGitURL originURL) as [p|] eqn:Hp; [|discriminate]. cbv zeta.
  destruct (AddRepository rs (addEntry originURL absRepoPath p) now) as [rs1|] eqn:Hadd;
    [|discriminate].
  assert (Hpath : absRepoPath <> "").
  { intros ->.
    pose proof (proj2 (StoreMore.AddRepository_refuses rs (addEntry originURL "" p) now)
                  (or_introl eq_refl)) as Hr.
    rewrite Hadd in Hr. discriminate. }
  rewrite AddRepository_fresh in Hadd by assumption. injection Hadd as <-.
  destruct (Save s _ [stateFile]) as [s1 err] eqn:HS.
  destruct err; [discriminate|]. intros _. cbn [fst snd].
  exists absRepoPath, originURL, p. rewrite HS. split_and!; auto.
Qed.

(** X22. A run of [add] that ends well was given the path of a Git
    repository that was not tracked and whose origin URL is not empty
    and parses. The store has one more entry, the last one and the one
    found by the absolute path: it has the origin URL as original and as
    current URL, the instants of the addition and the mark of a manual
    addition. The repository itself is not touched: the effects of the
    run are the three steps of saving the state. *)
Theorem add_done (home stateFile : string) (now : Time.Time) (s : Sys W)
    (rs : RepoState) (repoPathArg : string) :
  snd (fst (add home stateFile now s rs repoPathArg)) = AddDone ->
  exists (absRepoPath originURL data : string) (p : Gitutil.ParsedGitURL),
    let entry := mkRepositoryEntry (Gitutil.RepoName p) absRepoPath originURL originURL
                   (Gitutil.Domain p) (Gitutil.GetNormalizedFSPath p) now now now true "" in
    let rs' := snd (fst (fst (add home stateFile now s rs repoPathArg))) in
    let file := filePathToUse rs [stateFile] in
    Abs (world s) repoPathArg = Some absRepoPath
    /\ IsGitRepository (world s) absRepoPath = true
    /\ find_by_Path absRepoPath (Repositories rs) = None
    /\ GetRemoteOriginURL (world s) absRepoPath = Some originURL
    /\ originURL <> ""
    /\ Gitutil.ParseGitURL originURL = Ok p
    /\ Repositories rs' = Repositories rs ++ [entry]
    /\ find_by_Path absRepoPath (Repositories rs') = Some (length (Repositories rs), entry)
    /\ json_MarshalIndent rs' = Some data
    /\ trace (fst (fst (fst (add home stateFile now s rs repoPathArg))))
       = trace s ++ [EMkdirAll (Filepath.Dir file); EWriteFile (file ++ ".tmp") data;
                     ERename (file ++ ".tmp") file].
Proof.
  intros Hdone.
  destruct (add_done_inv home stateFile now s rs repoPathArg Hdone)
    as (a & u & p & Habs & Hgit & Hf & Ho & Hu & Hp & Hrs & Hsys & HS).
  set (rs' := snd (fst (fst (add home stateFile now s rs repoPathArg)))) in *.
  destruct (Save_cases s rs' [stateFile]) as [[_ HS'] | (_ & added & Htr' & Hc)].
  { rewrite HS' in HS. discriminate. }
  assert (Hfile : filePathToUse rs' [stateFile] = filePathToUse rs [stateFile])
    by (unfold filePathToUse; now rewrite Hrs).
  rewrite Hfile in Hc.
  destruct Hc as [[_ HS'] | [(_ & _ & HS') | (data & Hm & [[_ HS'] | [[-> _] | [_ HS']]])]];
    try (rewrite HS' in HS; discriminate).
  exists a, u, data, p. cbv zeta. rewrite Hsys, Htr'. fold rs'.
  split_and!; auto; [now rewrite Hrs|].
  rewrite Hrs. cbn [Repositories set_Repositories].
  apply (find_by_Path_snoc (Repositories rs) (stamped now (addEntry u a p))).
  exact Hf.
Qed.

(** X23. Once [add] has ended well the directory is tracked: a second
    run on the same argument, from the store the first one left and in
    a world where the argument names the same directory, still a Git
    repository, finds it managed, attempts nothing and leaves the store
    as it is. *)
Theorem add_twice (home stateFile : string) (now now' : Time.Time) (s s' : Sys W)
    (rs : RepoState) (repoPathArg : string) :
  snd (fst (add home stateFile now s rs repoPathArg)) = AddDone ->
  Abs (world s') repoPathArg = Abs (world s) repoPathArg ->
  (forall absRepoPath, Abs (world s) repoPathArg = Some absRepoPath ->
                       IsGitRepository (world s') absRepoPath = true) ->
  add home stateFile now' s' (snd (fst (fst (add home stateFile now s rs repoPathArg))))
    repoPathArg
  = (s', snd (fst (fst (add home stateFile now s rs repoPathArg))), AddAlreadyTracked, false).
Proof.
  intros Hdone Habs' Hgit'.
  destruct (add_done_inv home stateFile now s rs repoPathArg Hdone)
    as (a & u & p & Habs & _ & Hf & _ & _ & _ & Hrs & _).
  pose proof (find_by_Path_snoc (Repositories rs) (stamped now (addEntry u a p)) Hf)
    as Hfind.
  cbn [Path stamped addEntry] in Hfind.
  rewrite Hrs. unfold add at 1. rewrite Habs', Habs, (Hgit' a Habs).
  cbn [negb Repositories set_Repositories]. now rewrite Hfind.
Qed.

(** X24. [clone] puts a repository where [doctor] and [reorganize]
    expect it. After a run that ended well, in any world where the
    conventional path of the URL is a Git repository whose origin is
    the URL (as [git clone] leaves it), the entry that the run added,
    the last of the store, is in order: the checks of [doctor] find
    nothing on it and its current URL is the live one. *)
Theorem clone_is_in_order (verbose : bool) (home stateFile : string) (now : Time.Time)
    (s : SysE W) (rs : RepoState) (repoURL : string) (w : W) :
  snd (clone home stateFile now s rs repoURL) = CloneDone ->
  (forall p : Gitutil.ParsedGitURL,
      Gitutil.ParseGitURL repoURL = Ok p ->
      os_Stat w (Gitutil.GetLocalPath p home) = StatOk
      /\ IsGitRepository w (Gitutil.GetLocalPath p home) = true
      /\ GetRemoteOriginURL w (Gitutil.GetLocalPath p home) = Some repoURL) ->
  exists e : RepositoryEntry,
    last (Repositories (snd (fst (clone home stateFile now s rs repoURL)))) = Some e
    /\ OriginalURL e = repoURL
    /\ in_order verbose home w e.
Proof.
  intros Hdone Hw.
  destruct (clone_done_inv home stateFile now s rs repoURL Hdone)
    as (p & s0 & Hp & _ & _ & _ & Hrs & _).
  destruct (Hw p Hp) as (Hstat & Hgit & Horigin).
  exists (stamped now (cloneEntry repoURL (Gitutil.GetLocalPath p home) p)).
  rewrite Hrs. cbn [Repositories set_Repositories]. rewrite last_snoc.
  split; [reflexivity|]. split; [reflexivity|].
  unfold in_order, checkRepo. cbn [Path CurrentURL ManuallyAdded stamped cloneEntry].
  rewrite Hstat, Hgit, Horigin, Hp. cbn [negb is_ok]. rewrite !String.eqb_refl.
  split; reflexivity.
Qed.

End Commands.

(** [clone_done] and [clone_twice] in the small world: a repository that
    is not tracked, cloned beside the three of the registry. *)
Lemma clone_done_witness :
  exists (p : Gitutil.ParsedGitURL) (data : string),
    let r := clone home stateFile 7%Z (mkSysE disk3 []) registry3
               "https://github.com/spf13/afero" in
    Gitutil.ParseGitURL "https://github.com/spf13/afero" = Ok p
    /\ length (Repositories (snd (fst r))) = 4
    /\ find_by_Path "/home/u/git/github.com/spf13/afero" (Repositories (snd (fst r)))
       = Some (3, mkRepositoryEntry "afero" "/home/u/git/github.com/spf13/afero"
                    "https://github.com/spf13/afero" "https://github.com/spf13/afero"
                    "github.com" "github.com/spf13/afero" 7%Z 7%Z 7%Z false "")
    /\ events (fst (fst r))
       = [Wrote (EMkdirAll "/home/u/git/github.com/spf13");
          Cloned "https://github.com/spf13/afero" "/home/u/git/github.com/spf13/afero";
          Wrote (EMkdirAll "/home/u/.fussy-git");
          Wrote (EWriteFile "/home/u/.fussy-git/repos.json.tmp" data);
          Wrote (ERename "/home/u/.fussy-git/repos.json.tmp" "/home/u/.fussy-git/repos.json")].
Proof.
  assert (Hdone : snd (clone home stateFile 7%Z (mkSysE disk3 []) registry3
                         "https://github.com/spf13/afero") = CloneDone)
    by (vm_compute; reflexivity).
  destruct (clone_done home stateFile 7%Z (mkSysE disk3 []) registry3
              "https://github.com/spf13/afero" Hdone)
    as (p & data & Hp & _ & _ & _ & Hrs & Hfind & _ & Hev).
  exists p, data. cbv zeta.
  assert (Hp' : p = Gitutil.mkParsedGitURL "https://github.com/spf13/afero" "https" ""
                      "github.com" "github.com" "spf13/afero" "afero" false).
  { vm_compute in Hp. now injection Hp as <-. }
  subst p. split; [reflexivity|]. split; [now rewrite Hrs|]. split; [exact Hfind | exact Hev].
Defined.

Lemma clone_twice_witness :
  let r := clone home stateFile 7%Z (mkSysE disk3 []) registry3
             "https://github.com/spf13/afero" in
  clone home stateFile 8%Z (fst (fst r)) (snd (fst r)) "https://github.com/spf13/afero"
  = (fst (fst r), snd (fst r), CloneAlreadyTracked).
Proof.
  apply (clone_twice home stateFile 7%Z 8%Z (mkSysE disk3 [])).
  vm_compute. reflexivity.
Defined.

(** [clone_cleanup] in the small world: the empty URL. *)
Lemma clone_cleanup_witness :
  let r := clone home stateFile 7%Z (mkSysE disk3 []) registry3 "" in
  snd (fst r) = registry3
  /\ exists p : Gitutil.ParsedGitURL,
       Gitutil.ParseGitURL "" = Ok p
       /\ events (fst (fst r))
          = [Wrote (EMkdirAll (Filepath.Dir (Gitutil.GetLocalPath p home)));
             Cloned "" (Gitutil.GetLocalPath p home);
             RemovedAll (Gitutil.GetLocalPath p home)].
Proof.
  assert (Hend : snd (clone home stateFile 7%Z (mkSysE disk3 []) registry3 "")
                 = CloneAddFailed (ErrAddOriginalURLEmpty "."))
    by (vm_compute; reflexivity).
  destruct (clone_cleanup home stateFile 7%Z (mkSysE disk3 []) registry3 ""
              (ErrAddOriginalURLEmpty ".") Hend)
    as (_ & Hrs & p & Hp & _ & Hev).
  split; [exact Hrs|]. exists p. split; [exact Hp | exact Hev].
Defined.

(** [add_done] and [add_twice] in the small world: the repository that
    sits in [/tmp/pflag], added by its path, the registry being empty. *)
Lemma add_done_witness :
  exists data : string,
    let r := add home stateFile 9%Z (mkSys disk3 []) (NewRepoState stateFile) "/tmp/pflag" in
    Repositories (snd (fst (fst r)))
    = [mkRepositoryEntry "pflag" "/tmp/pflag" "https://github.com/spf13/pflag"
         "https://github.com/spf13/pflag" "github.com" "github.com/spf13/pflag"
         9%Z 9%Z 9%Z true ""]
    /\ trace (fst (fst (fst r)))
       = [EMkdirAll "/home/u/.fussy-git";
          EWriteFile "/home/u/.fussy-git/repos.json.tmp" data;
          ERename "/home/u/.fussy-git/repos.json.tmp" "/home/u/.fussy-git/repos.json"].
Proof.
  assert (Hdone : snd (fst (add home stateFile 9%Z (mkSys disk3 []) (NewRepoState stateFile)
                              "/tmp/pflag")) = AddDone)
    by (vm_compute; reflexivity).
  destruct (add_done home stateFile 9%Z (mkSys disk3 []) (NewRepoState stateFile)
              "/tmp/pflag" Hdone)
    as (a & u & data & p & Habs & _ & _ & Ho & _ & Hp & Hrs & _ & _ & Htr).
  exists data. cbv zeta.
  assert (Ha : a = "/tmp/pflag") by (vm_compute in Habs; now injection Habs as <-).
  subst a.
  assert (Hu : u = "https://github.com/spf13/pflag")
    by (vm_compute in Ho; now injection Ho as <-).
  subst u.
  assert (Hp' : p = Gitutil.mkParsedGitURL "https://github.com/spf13/pflag" "https" ""
                      "github.com" "github.com" "spf13/pflag" "pflag" false)
    by (vm_compute in Hp; now injection Hp as <-).
  subst p. split; [exact Hrs | exact Htr].
Defined.

Lemma add_twice_witness :
  let r := add home stateFile 9%Z (mkSys disk3 []) (NewRepoState stateFile) "/tmp/pflag" in
  add home stateFile 10%Z (fst (fst (fst r))) (snd (fst (fst r))) "/tmp/pflag"
  = (fst (fst (fst r)), snd (fst (fst r)), AddAlreadyTracked, false).
Proof.
  apply (add_twice home stateFile 9%Z 10%Z (mkSys disk3 [])).
  - vm_compute. reflexivity.
  - reflexivity.
  - intros a Ha. vm_compute in Ha. injection Ha as <-. vm_compute. reflexivity.
Defined.

(** [clone_is_in_order] in the small world, at the world the run left. *)
Lemma clone_is_in_order_witness :
  let r := clone home stateFile 7%Z (mkSysE disk3 []) registry3
             "https://github.com/spf13/afero" in
  exists e : RepositoryEntry,
    last (Repositories (snd (fst r))) = Some e
    /\ OriginalURL e = "https://github.com/spf13/afero"
    /\ in_order true home (worldE (fst (fst r))) e.
Proof.
  apply (clone_is_in_order true home stateFile 7%Z (mkSysE disk3 []) registry3
           "https://github.com/spf13/afero").
  - vm_compute. reflexivity.
  - intros p Hp. vm_compute in Hp. injection Hp as <-. vm_compute. repeat split.
Defined.

End CommandProps.

(** * Properties of [findGitRepoRoot] *)

Module RootProps.
Import GoStrings State Cmd Commands Observed Sim SimMore.
Local Open Scope list_scope.

(** ** The length of a cleaned path

    The elements of a path, each counted with the separator before it,
    weigh one more than the path; cleaning only drops elements. *)

Local Notation "'weight'" := (sum_list_with (fun e : string => S (len e))).

Lemma SplitByte_weight (t : string) : weight (SplitByte t "/") = S (len t).
Proof.
  induction t as [|c t IH]; [reflexivity|].
  cbn [SplitByte]. destruct (Ascii.eqb c "/").
  - cbn [sum_list_with]. rewrite IH. reflexivity.
  - destruct (SplitByte t "/") as [|e es]; [discriminate|].
    cbn [sum_list_with] in *. unfold len in *. cbn [String.length]. lia.
Qed.

Lemma clean_step_weight (out : list string) (e : string) :
  weight (Filepath.clean_step true out e) <= weight out + S (len e).
Proof.
  unfold Filepath.clean_step.
  destruct (String.eqb e "" || String.eqb e "."); [lia|].
  destruct (String.eqb e "..").
  - destruct out as [|prev out]; [cbn [sum_list_with]; lia|].
    destruct (String.eqb prev ".."); cbn [sum_list_with]; lia.
  - cbn [sum_list_with]. lia.
Qed.

Lemma clean_fold_weight (elems out : list string) :
  weight (fold_left (Filepath.clean_step true) elems out) <= weight out + weight elems.
Proof.
  revert out. induction elems as [|e elems IH]; intros out; cbn [fold_left sum_list_with].
  - lia.
  - specialize (IH (Filepath.clean_step true out e)).
    pose proof (clean_step_weight out e). lia.
Qed.

Lemma Join_len (l : list string) : len (GoStrings.Join l "/") = pred (weight l).
Proof.
  induction l as [|e l IH]; [reflexivity|].
  destruct l as [|e2 l]; [cbn [GoStrings.Join sum_list_with]; lia|].
  change (GoStrings.Join (e :: e2 :: l) "/")
    with (e ++ "/" ++ GoStrings.Join (e2 :: l) "/")%string.
  rewrite !URLProps.len_app, IH. cbn [sum_list_with]. unfold len. cbn [String.length].
  lia.
Qed.

(** A rooted path, cleaned: the separator, then what is left of the
    elements. *)
Lemma Clean_rooted_body (t : string) :
  Filepath.Clean (String "/" t)
  = String "/" (GoStrings.Join
                  (List.rev (fold_left (Filepath.clean_step true) (SplitByte t "/") [])) "/").
Proof. reflexivity. Qed.

Lemma Clean_rooted_len (t : string) :
  len (Filepath.Clean (String "/" t)) <= S (len t).
Proof.
  rewrite Clean_rooted_body. cbn [len String.length]. fold (len (GoStrings.Join
    (List.rev (fold_left (Filepath.clean_step true) (SplitByte t "/") [])) "/")).
  rewrite Join_len.
  rewrite (sum_list_with_Permutation_proper _ _ _ (Permutation_sym (Permutation_rev _))).
  pose proof (clean_fold_weight (SplitByte t "/") []) as Hw.
  rewrite SplitByte_weight in Hw. cbn [sum_list_with] in Hw. lia.
Qed.

Lemma SplitByte_snoc (u : string) :
  SplitByte (u ++ "/") "/" = SplitByte u "/" ++ [""].
Proof.
  induction u as [|c u IH]; [reflexivity|].
  change (String c u ++ "/")%string with (String c (u ++ "/")).
  cbn [SplitByte]. rewrite IH. destruct (Ascii.eqb c "/"); [reflexivity|].
  destruct (SplitByte u "/") as [|e es] eqn:Hs; [|reflexivity].
  pose proof (SplitByte_weight u) as Hw. rewrite Hs in Hw. discriminate.
Qed.

(** A trailing separator does not change the cleaned path. *)
Lemma Clean_trailing (u : string) :
  Filepath.Clean (String "/" (u ++ "/")) = Filepath.Clean (String "/" u).
Proof.
  rewrite !Clean_rooted_body, SplitByte_snoc, fold_left_app. reflexivity.
Qed.

Lemma LastIndexByte_take (s : string) (c : ascii) (j : nat) :
  LastIndexByte s c = Some j ->
  take (S j) s = (take j s ++ String c "")%string /\ len (take j s) = j /\ j < len s.
Proof.
  revert j. induction s as [|d s IH]; intros j; [discriminate|].
  cbn [LastIndexByte]. destruct (LastIndexByte s c) as [i|].
  - intros [= <-]. destruct (IH i eq_refl) as (Ht & Hl & Hlt).
    change (take (S (S i)) (String d s)) with (String d (take (S i) s)).
    change (take (S i) (String d s)) with (String d (take i s)).
    rewrite Ht. unfold len in *. cbn [String.length]. rewrite Hl.
    split; [reflexivity|]. split; lia.
  - destruct (Ascii.eqb d c) eqn:Hd; [|discriminate]. intros [= <-].
    apply Ascii.eqb_eq in Hd as ->. unfold len. cbn. split; [reflexivity|]. split; lia.
Qed.

(** The parent of a rooted path is the path itself, at the root, or a
    shorter rooted path. *)
Lemma Dir_rooted (s : string) :
  Filepath.Dir (String "/" s) = String "/" s
  \/ len (Filepath.Dir (String "/" s)) < len (String "/" s)
     /\ HasPrefix (Filepath.Dir (String "/" s)) "/" = true.
Proof.
  unfold Filepath.Dir. cbn [LastIndexByte].
  destruct (LastIndexByte s Filepath.Separator) as [j|] eqn:Hj.
  - right. change (take (S (S j)) (String "/" s)) with (String "/" (take (S j) s)).
    split; [|apply URLMore.Clean_rooted].
    destruct (LastIndexByte_take s _ j Hj) as (-> & Hl & Hlt).
    change (String Filepath.Separator "") with "/". rewrite Clean_trailing.
    pose proof (Clean_rooted_len (take j s)) as Hc. rewrite Hl in Hc.
    unfold len in *. cbn [String.length]. lia.
  - change (Ascii.eqb "/" Filepath.Separator) with true. cbv iota.
    change (take 1 (String "/" s)) with "/".
    change (Filepath.Clean "/") with "/".
    destruct s as [|c s]; [now left|]. right. split; [cbn; lia | reflexivity].
Qed.

Section Root.
Context {W : Type} `{WorldExt W}.

(** The loop of [findGitRepoRoot] ends within one iteration per byte of
    a rooted path. *)
Lemma climb_total (w : W) (n : nat) (p : string) :
  HasPrefix p "/" = true -> len p <= S n ->
  exists r : RootEnd, climb (S n) w p = Some r.
Proof.
  revert p. induction n as [|n IH]; intros p Hp Hlen.
  - apply URLMore.HasPrefix_slash_inv in Hp as [s ->].
    destruct s as [|c s]; [|unfold len in Hlen; cbn in Hlen; lia].
    cbn [climb]. change (Filepath.Dir "/") with "/". cbn [String.eqb].
    rewrite Ascii.eqb_refl.
    destruct (os_Stat w _); [destruct (stat_IsDir w _)| |]; eauto.
  - cbn [climb].
    assert (Hup : exists r : RootEnd,
               (if String.eqb (Filepath.Dir p) p then Some RootNotFound
                else climb (S n) w (Filepath.Dir p)) = Some r).
    { destruct (String.eqb (Filepath.Dir p) p) eqn:He; [eauto|].
      apply String.eqb_neq in He.
      destruct (URLMore.HasPrefix_slash_inv p Hp) as [s ->].
      destruct (Dir_rooted s) as [Hfix | [Hlt Hr]]; [contradiction|].
      apply IH; [exact Hr | lia]. }
    destruct (os_Stat w _); [destruct (stat_IsDir w _)| |]; eauto.
Qed.

(** What the loop returns, whatever the bound: the first of the path and
    its ancestors that has a [.git] directory, when it stopped at one;
    no ancestor has one, when it got to the root. *)
Lemma climb_sound (w : W) (fuel : nat) (p : string) (r : RootEnd) :
  climb fuel w p = Some r ->
  match r with
  | RootFound root =>
      exists k : nat,
        root = Nat.iter k Filepath.Dir p
        /\ has_git_dir w root = true
        /\ forall m, m < k -> has_git_dir w (Nat.iter m Filepath.Dir p) = false
  | RootStatError gitDir =>
      exists k : nat,
        gitDir = Filepath.Join [Nat.iter k Filepath.Dir p; ".git"]
        /\ os_Stat w gitDir = StatError
        /\ forall m, m < k -> has_git_dir w (Nat.iter m Filepath.Dir p) = false
  | RootNotFound => forall m, has_git_dir w (Nat.iter m Filepath.Dir p) = false
  | RootAbsFailed => False
  end.
Proof.
  revert p r. induction fuel as [|fuel IH]; intros p r; [discriminate|].
  cbn [climb].
  assert (Hup : has_git_dir w p = false ->
            (if String.eqb (Filepath.Dir p) p then Some RootNotFound
             else climb fuel w (Filepath.Dir p)) = Some r ->
            match r with
            | RootFound root =>
                exists k : nat,
                  root = Nat.iter k Filepath.Dir p
                  /\ has_git_dir w root = true
                  /\ forall m, m < k -> has_git_dir w (Nat.iter m Filepath.Dir p) = false
            | RootStatError gitDir =>
                exists k : nat,
                  gitDir = Filepath.Join [Nat.iter k Filepath.Dir p; ".git"]
                  /\ os_Stat w gitDir = StatError
                  /\ forall m, m < k -> has_git_dir w (Nat.iter m Filepath.Dir p) = false
            | RootNotFound => forall m, has_git_dir w (Nat.iter m Filepath.Dir p) = false
            | RootAbsFailed => False
            end).
  { intros Hno. destruct (String.eqb (Filepath.Dir p) p) eqn:He.
    - intros [= <-]. apply String.eqb_eq in He. intros m.
      assert (Hm : Nat.iter m Filepath.Dir p = p).
      { induction m as [|m IHm]; [reflexivity|]. now rewrite Nat.iter_succ, IHm. }
      now rewrite Hm.
    - intros Hc. specialize (IH _ _ Hc).
      assert (Hshift : forall k (P : nat -> Prop),
                (forall m, m < k -> has_git_dir w (Nat.iter m Filepath.Dir (Filepath.Dir p))
                                    = false) ->
                forall m, m < S k -> has_git_dir w (Nat.iter m Filepath.Dir p) = false).
      { intros k _ Hk m Hm. destruct m as [|m]; [exact Hno|].
        rewrite Nat.iter_succ_r. apply Hk. lia. }
      destruct r as [root | g | |]; [| | |exact IH].
      + destruct IH as (k & Hroot & Hgit & Hbelow). exists (S k).
        rewrite Nat.iter_succ_r. split; [exact Hroot|]. split; [exact Hgit|].
        now apply (Hshift k (fun _ => True)).
      + destruct IH as (k & Hg & Hst & Hbelow). exists (S k).
        rewrite Nat.iter_succ_r. split; [exact Hg|]. split; [exact Hst|].
        now apply (Hshift k (fun _ => True)).
      + intros m. destruct m as [|m]; [exact Hno|].
        rewrite Nat.iter_succ_r. apply IH. }
  unfold has_git_dir in Hup at 1.
  destruct (os_Stat w (Filepath.Join [p; ".git"])) eqn:Hst.
  - destruct (stat_IsDir w (Filepath.Join [p; ".git"])) eqn:Hd; [|now apply Hup].
    intros [= <-]. exists 0. change (Nat.iter 0 Filepath.Dir p) with p.
    unfold has_git_dir. rewrite Hst, Hd.
    split; [reflexivity|]. split; [reflexivity|]. intros m Hm. lia.
  - now apply Hup.
  - intros [= <-]. exists 0. change (Nat.iter 0 Filepath.Dir p) with p.
    split; [reflexivity|]. split; [exact Hst|].
    intros m Hm. lia.
Qed.

(** The absolute path of a path is rooted when the working directory
    is. *)
Lemma Abs_rooted (w : W) (path p : string) :
  (forall wd, os_Getwd w = Some wd -> HasPrefix wd "/" = true) ->
  Abs w path = Some p -> HasPrefix p "/" = true.
Proof.
  intros Hwd. unfold Abs. destruct (HasPrefix path "/") eqn:Hp.
  - intros [= <-]. apply URLMore.HasPrefix_slash_inv in Hp as [s ->].
    apply URLMore.Clean_rooted.
  - destruct (os_Getwd w) as [wd|] eqn:Hg; [|discriminate]. intros [= <-].
    destruct (URLMore.HasPrefix_slash_inv wd (Hwd wd eq_refl)) as [a ->].
    cbn [Filepath.Join].
    change (String.eqb (String "/" a) "") with false. cbv iota.
    change (GoStrings.Join [String "/" a; path] "/")
      with (String "/" (a ++ "/" ++ GoStrings.Join [path] "/")).
    apply URLMore.Clean_rooted.
Qed.

(** X25. [findGitRepoRoot] ends, and finds the nearest repository. With
    an absolute working directory the loop that climbs from the absolute
    start path ends within one iteration per byte of that path. When it
    returns a root, the root is the start path or one of its ancestors,
    it has a [.git] directory, and no path below it on the way up has
    one (a [.git] that is a file does not count). When it reports that
    nothing was found, no ancestor up to the root of the file system has
    a [.git] directory; and it gives up on the first [.git] that cannot
    be looked at. *)
Theorem findGitRepoRoot_nearest (w : W) (startPath : string) :
  (forall wd, os_Getwd w = Some wd -> HasPrefix wd "/" = true) ->
  exists r : RootEnd,
    findGitRepoRoot w startPath = Some r
    /\ match r with
       | RootAbsFailed => Abs w startPath = None
       | RootFound root =>
           exists (p : string) (k : nat),
             Abs w startPath = Some p
             /\ root = Nat.iter k Filepath.Dir p
             /\ has_git_dir w root = true
             /\ forall m, m < k -> has_git_dir w (Nat.iter m Filepath.Dir p) = false
       | RootStatError gitDir =>
           exists (p : string) (k : nat),
             Abs w startPath = Some p
             /\ gitDir = Filepath.Join [Nat.iter k Filepath.Dir p; ".git"]
             /\ os_Stat w gitDir = StatError
             /\ forall m, m < k -> has_git_dir w (Nat.iter m Filepath.Dir p) = false
       | RootNotFound =>
           exists p : string,
             Abs w startPath = Some p
             /\ forall m, has_git_dir w (Nat.iter m Filepath.Dir p) = false
       end.
Proof.
  intros Hwd. unfold findGitRepoRoot.
  destruct (Abs w startPath) as [p|] eqn:Habs; [|exists RootAbsFailed; auto].
  destruct (climb_total w (len p) p (Abs_rooted w startPath p Hwd Habs) (Nat.le_succ_diag_r _))
    as [r Hr].
  exists r. split; [exact Hr|].
  pose proof (climb_sound w _ p r Hr) as Hs.
  destruct r as [root | g | |]; [| | |contradiction].
  - destruct Hs as (k & Hs). exists p, k. auto.
  - destruct Hs as (k & Hs). exists p, k. auto.
  - exists p. auto.
Qed.

End Root.

(** [findGitRepoRoot_nearest] on a disk with a checkout in
    [/home/u/proj] and another in its [src]; [src/cmd] holds a [.git]
    file. From [proj/src/cmd] under [/home/u] the root found is
    [/home/u/proj/src]. *)
Lemma findGitRepoRoot_nearest_witness :
  findGitRepoRoot diskProj "proj/src/cmd" = Some (RootFound "/home/u/proj/src")
  /\ exists r : RootEnd,
       findGitRepoRoot diskProj "proj/src/cmd" = Some r
       /\ match r with
          | RootAbsFailed => Abs diskProj "proj/src/cmd" = None
          | RootFound root =>
              exists (p : string) (k : nat),
                Abs diskProj "proj/src/cmd" = Some p
                /\ root = Nat.iter k Filepath.Dir p
                /\ has_git_dir diskProj root = true
                /\ forall m, m < k -> has_git_dir diskProj (Nat.iter m Filepath.Dir p) = false
          | RootStatError gitDir =>
              exists (p : string) (k : nat),
                Abs diskProj "proj/src/cmd" = Some p
                /\ gitDir = Filepath.Join [Nat.iter k Filepath.Dir p; ".git"]
                /\ os_Stat diskProj gitDir = StatError
                /\ forall m, m < k -> has_git_dir diskProj (Nat.iter m Filepath.Dir p) = false
          | RootNotFound =>
              exists p : string,
                Abs diskProj "proj/src/cmd" = Some p
                /\ forall m, has_git_dir diskProj (Nat.iter m Filepath.Dir p) = false
          end.
Proof.
  split; [vm_compute; reflexivity|].
  apply (findGitRepoRoot_nearest diskProj "proj/src/cmd").
  intros wd Hwd. injection Hwd as <-. reflexivity.
Defined.

End RootProps.

(** * Properties of [LoadState] *)

Module LoadProps.
Import GoStrings State Cmd Commands Observed Sim SimMore SaveProps.
Local Open Scope list_scope.

Section Load.
Context {W : Type} `{WorldExt W}.

(** X26. [LoadState] reads an existing state file and writes nothing:
    whenever the file is there (or cannot be looked at) the world is
    left as it was. Only when the file does not exist does it write: a
    run that then succeeds made the directory and saved the empty store
    by the protocol of [Save], and returns the empty store. Every store
    it returns has the given file path, so a later [Save] goes to the
    file that was loaded. And it returns a nil store with a nil error
    in exactly one case: the file holds the JSON literal [null]. *)
Theorem LoadState_behaviour (s : Sys W) (filePath : string) :
  (os_Stat (world s) filePath <> StatNotExist -> fst (LoadState s filePath) = s)
  /\ (forall rs : RepoState,
        snd (LoadState s filePath) = Ok (Some rs) -> State.filePath rs = filePath)
  /\ (os_Stat (world s) filePath = StatNotExist ->
      forall o : option RepoState,
        snd (LoadState s filePath) = Ok o ->
        o = Some (NewRepoState filePath)
        /\ filePath <> ""
        /\ exists data : string,
             json_MarshalIndent (NewRepoState filePath) = Some data
             /\ trace (fst (LoadState s filePath))
                = trace s ++ [EMkdirAll (Filepath.Dir filePath);
                              EMkdirAll (Filepath.Dir filePath);
                              EWriteFile (filePath ++ ".tmp") data;
                              ERename (filePath ++ ".tmp") filePath])
  /\ (snd (LoadState s filePath) = Ok None
      <-> os_Stat (world s) filePath = StatOk
          /\ os_Open (world s) filePath = true
          /\ exists data : string,
               io_ReadAll (world s) filePath = Some data
               /\ data <> ""
               /\ json_Unmarshal data = DecodedNull).
Proof.
  unfold LoadState. destruct (os_Stat (world s) filePath) eqn:Hstat.
  - (* the file is there *)
    destruct (os_Open (world s) filePath) eqn:Hopen; cbn [negb].
    2:{ split_and!; try reflexivity; try discriminate.
        split; [discriminate | intros (_ & Ho & _); discriminate]. }
    destruct (io_ReadAll (world s) filePath) as [data|] eqn:Hread.
    2:{ split_and!; try reflexivity; try discriminate.
        split; [discriminate | intros (_ & _ & d & Hd & _); discriminate]. }
    destruct (len data =? 0)%nat eqn:Hlen.
    { apply Nat.eqb_eq in Hlen.
      assert (data = "") as -> by (destruct data; [reflexivity | discriminate]).
      split_and!; try reflexivity; try discriminate.
      - intros rs [= <-]. reflexivity.
      - split; [discriminate|]. intros (_ & _ & d & [= <-] & Hne & _). contradiction. }
    apply Nat.eqb_neq in Hlen.
    assert (Hne : data <> "") by (intros ->; now apply Hlen).
    destruct (json_Unmarshal data) eqn:Hu; cbn [fst snd];
      (split_and!; [reflexivity | try discriminate | discriminate |]).
    + split; [discriminate|]. intros (_ & _ & d & [= <-] & _ & Hd). congruence.
    + split; [discriminate|]. intros (_ & _ & d & [= <-] & _ & Hd). congruence.
    + split; [|reflexivity]. intros _. split_and!; try reflexivity. eauto.
    + intros rs [= <-]. reflexivity.
    + split; [discriminate|]. intros (_ & _ & d & [= <-] & _ & Hd). congruence.
  - (* the file is not there *)
    unfold do_MkdirAll.
    destruct (os_MkdirAll (world s) (Filepath.Dir filePath)) as [w1 ok1].
    destruct ok1; cbn [negb].
    2:{ split_and!; try contradiction; try discriminate.
        split; [discriminate | intros [? _]; discriminate]. }
    set (s1 := mkSys w1 (trace s ++ [EMkdirAll (Filepath.Dir filePath)])).
    destruct (Save_cases s1 (NewRepoState filePath) [])
      as [[Hf HS] | (Hf & added & Htr & Hc)]; cbn [filePathToUse State.filePath NewRepoState] in *.
    { rewrite HS. split_and!; try contradiction; try discriminate.
      split; [discriminate | intros [? _]; discriminate]. }
    destruct (Save s1 (NewRepoState filePath) []) as [s2 err] eqn:HS. cbn [fst snd] in *.
    destruct Hc as [[_ ->] | [(_ & _ & ->) | (data & Hm & [[_ ->] | [[-> ->] | [_ ->]]])]];
      (split_and!; [contradiction | try discriminate | | split; [discriminate | intros [? _]; discriminate]]);
      try (intros _ o; discriminate).
    + intros rs [= <-]. reflexivity.
    + intros _ o [= <-]. split; [reflexivity|]. split; [exact Hf|].
      exists data. split; [exact Hm|]. cbn [fst]. rewrite Htr. unfold s1. cbn [trace].
      now rewrite <- app_assoc.
  - (* the file cannot be looked at *)
    split_and!; try reflexivity; try discriminate.
    split; [discriminate | intros [? _]; discriminate].
Qed.

End Load.

End LoadProps.
